(** * 3DPanelAnalyzer: a shallow embedding of [3DPanelAnalyzer.py]

    The script reads a Wavefront-like text file into named sides
    ([parse_side]), scans windows of six consecutive sides for the box
    topology ([find_panels]), computes a bounding box per panel
    ([calculate_panel_properties]) and groups the panels by their rounded
    dimension triple ([main]).

    Python floats are IEEE 754 binary64 numbers: they are modelled by Rocq's
    primitive floats, whose operations are specified by [SpecFloat].
    Exceptions are modelled by the [result] type. *)

From Stdlib Require Import String Ascii.
From Stdlib Require Import ZArith List Bool Lia Floats.
From Stdlib Require Import Permutation Sorted.
Import ListNotations.

Set Warnings "-inexact-float".

Local Open Scope Z_scope.

(* ================================================================= *)
(** ** Exceptions *)

(** The exceptions the script can raise (all of them are fatal: nothing
    is caught). *)
Inductive exn : Type :=
| IndexError      (* sequence index out of range *)
| ValueError      (* float()/int() of a malformed token, min()/max() of an empty sequence *)
| AttributeError. (* attribute access on None *)

Inductive result (A : Type) : Type :=
| Ok (a : A)
| Raise (e : exn).

Arguments Ok {A} a.
Arguments Raise {A} e.

Definition bind {A B : Type} (r : result A) (k : A -> result B) : result B :=
  match r with
  | Ok a => k a
  | Raise e => Raise e
  end.

Notation "x <- r ;; k" := (bind r (fun x => k))
  (at level 61, r at next level, right associativity).
Notation "' p <- r ;; k" := (bind r (fun x => match x with p => k end))
  (at level 61, p pattern, r at next level, right associativity).

(** [list(map(f, xs))] for a conversion [f] that raises [e] on the first
    element it rejects. *)
Fixpoint map_raise {A B : Type} (e : exn) (f : A -> option B) (xs : list A)
  : result (list B) :=
  match xs with
  | [] => Ok []
  | x :: xs' =>
      match f x with
      | None => Raise e
      | Some y => ys <- map_raise e f xs' ;; Ok (y :: ys)
      end
  end.

(** [for x in xs: st = body(st, x)] where the body may raise. *)
Fixpoint for_each {S A : Type} (body : S -> A -> result S) (xs : list A) (st : S)
  : result S :=
  match xs with
  | [] => Ok st
  | x :: xs' => st' <- body st x ;; for_each body xs' st'
  end.

(* ================================================================= *)
(** ** Python sequences, sets and dictionaries *)

(** [range(n)] for a possibly negative [n]. *)
Definition py_range (n : Z) : list nat := seq 0 (Z.to_nat n).

(** [l[i:j]] for non-negative [i] and [j]. *)
Definition slice {A : Type} (l : list A) (i j : nat) : list A :=
  firstn (j - i) (skipn i l).

(** Equality of two tuples (or lists): same length, equal items. *)
Fixpoint seq_eqb {A : Type} (eqb : A -> A -> bool) (l1 l2 : list A) : bool :=
  match l1, l2 with
  | [], [] => true
  | x :: l1', y :: l2' => eqb x y && seq_eqb eqb l1' l2'
  | _, _ => false
  end.

Section PySet.
Context {A : Type} (eqb : A -> A -> bool).

(** A set (and the keys of a dictionary) keeps one member of every class
    of equal values; it is modelled by the list of its members in the order
    they were added.  Membership is decided by [==].  The interpreter tests
    first whether the two objects are the same object, which matters for
    NaN only (any other float is [==] to itself): the model is the
    interpreter's set on floats that are not NaN, and on NaN objects that
    are pairwise different objects, as are all the floats that [parse_side]
    and [calculate_panel_properties] make. *)
Definition set_mem (x : A) (s : list A) : bool :=
  existsb (fun y => eqb y x) s.

Definition set_add (s : list A) (x : A) : list A :=
  if set_mem x s then s else s ++ [x].

(** [set(l)] *)
Definition py_set (l : list A) : list A := fold_left set_add l [].

(** The positions of [l] that hold a value not equal to any value at an
    earlier position: the first occurrences. *)
Fixpoint first_occurrences (seen l : list A) : list A :=
  match l with
  | [] => []
  | x :: l' =>
      if set_mem x seen then first_occurrences (seen ++ [x]) l'
      else x :: first_occurrences (seen ++ [x]) l'
  end.
End PySet.

(* ================================================================= *)
(** ** Floats *)

(** Python's [==], [<] and [>] on floats are the IEEE comparisons. *)
Definition feq (x y : float) : bool := (x =? y)%float.
Definition flt (x y : float) : bool := (x <? y)%float.
Definition fgt (x y : float) : bool := (y <? x)%float.
Definition fle (x y : float) : bool := (x <=? y)%float.

(** A float that is neither NaN nor an infinity. *)
Definition finite (x : float) : bool :=
  match Prim2SF x with
  | S754_zero _ | S754_finite _ _ _ => true
  | _ => false
  end.

Definition not_nan (x : float) : bool :=
  match Prim2SF x with
  | S754_nan => false
  | _ => true
  end.

(** *** [round(x, 1)]

    The interpreter prints [x] with one digit after the point, correctly
    rounded (ties of the exact binary value go to the even digit), and
    reads the decimal string back as the nearest float.  Zeros, infinities
    and NaN are returned as they are; the sign is kept, so a small negative
    number rounds to [-0.0]. *)

(** Every finite float is an integral multiple of [2^-1074]; [units m e] is
    that multiple for the float [m * 2^e]. *)
Definition units (m : positive) (e : Z) : Z := Z.pos m * 2 ^ (e + 1074).

(** [a / b] rounded to the nearest integer, ties to even ([0 <= a], [0 < b]). *)
Definition div_half_even (a b : Z) : Z :=
  let q := a / b in
  let r := a mod b in
  match 2 * r ?= b with
  | Lt => q
  | Gt => q + 1
  | Eq => if Z.even q then q else q + 1
  end.

(** The number of tenths nearest to [u] units. *)
Definition tenths_of_units (u : Z) : Z := div_half_even (10 * u) (2 ^ 1074).

(** The number of units of the float nearest to [k / 10] ([0 <= k]): below
    [2^53] units the floats are one unit apart, above they are [2^(d - 53)]
    units apart, [d] being the number of bits of the integral part. *)
Definition units_of_tenths (k : Z) : Z :=
  let t := k * 2 ^ 1074 in
  let sh := Z.log2 (t / 10) + 1 - 53 in
  if sh <=? 0 then div_half_even t 10
  else div_half_even t (10 * 2 ^ sh) * 2 ^ sh.

(** The float of sign [s] that is [u] units ([0 <= u]) away from zero. *)
Definition float_of_units (s : bool) (u : Z) : spec_float :=
  match u with
  | Z.pos p =>
      let sh := Z.max 0 (Z.log2 u + 1 - 53) in
      if 2 ^ 2098 <=? u then S754_infinity s
      else S754_finite s (Z.to_pos (u / 2 ^ sh)) (sh - 1074)
  | _ => S754_zero s
  end.

Definition py_round1 (x : float) : float :=
  match Prim2SF x with
  | S754_finite s m e =>
      SF2Prim (float_of_units s (units_of_tenths (tenths_of_units (units m e))))
  | _ => x
  end.

(** *** [min], [max] and [sorted] *)

(** [min(xs)] keeps the first item and replaces it by every later item that
    is [<] the one kept; [max(xs)] does the same with [>]. *)
Definition py_min (x : float) (xs : list float) : float :=
  fold_left (fun best y => if flt y best then y else best) xs x.

Definition py_max (x : float) (xs : list float) : float :=
  fold_left (fun best y => if fgt y best then y else best) xs x.

Section Sorting.
Context {A : Type} (lt : A -> A -> bool).

(** [sorted] is stable and compares with [<] only.  It is modelled by
    the stable insertion sort: an item goes in front of the first item
    of the sorted rest that is not [<] it.  Where [<] orders the items
    (no NaN among them) this is the one stable sorted arrangement; on
    lists of at most three items it is also what the interpreter's sort
    returns when [<] does not order them.  On longer lists that [<] does
    not order the interpreter may return another rearrangement: there the
    model says no more than that a rearrangement is returned. *)
Fixpoint insert_sorted (x : A) (l : list A) : list A :=
  match l with
  | [] => [x]
  | y :: l' => if lt y x then y :: insert_sorted x l' else x :: l
  end.

Definition py_sorted (l : list A) : list A := fold_right insert_sorted [] l.

(** [sorted(l, reverse=True)]: the list is reversed, sorted, and
    reversed again, which keeps equal items in their original order. *)
Definition py_sorted_reverse (l : list A) : list A := rev (py_sorted (rev l)).
End Sorting.

(* ================================================================= *)
(** ** The data model *)

(** [class Side]: a name, the points (each the list of floats of a [v]
    line) and the surfaces (each the list of integers of an [f] line). *)
Record Side : Type := mkSide {
  name : string;
  points : list (list float);
  surfaces : list (list Z)
}.

Definition point_eqb : list float -> list float -> bool := seq_eqb feq.
Definition surface_eqb : list Z -> list Z -> bool := seq_eqb Z.eqb.

(* ================================================================= *)
(** ** [parse_side] *)

(** [round(coord * 2.54, 1)] followed by [coord if coord != -0.0 else 0.0]. *)
Definition convert_coordinate (coord : float) : float :=
  let c := py_round1 (coord * 2.54)%float in
  if negb (feq c (-0.0)%float) then c else 0.0%float.

(** [s.replace('obj', '')] *)
Fixpoint replace_obj (s : string) : string :=
  match s with
  | String "o" (String "b" (String "j" rest)) => replace_obj rest
  | String c rest => String c (replace_obj rest)
  | EmptyString => EmptyString
  end.

Section Parser.
(** The built-ins [str.split], [float] and [int]; the last two raise
    [ValueError] ([None] here) on a token they cannot read. *)
Variable py_split : string -> list string.
Variable py_float : string -> option float.
Variable py_int : string -> option Z.

(** The state of the loop: [sides] and [current_side]. *)
Definition parse_state : Type := (list Side * option Side)%type.

Definition flush (sides : list Side) (current_side : option Side) : list Side :=
  match current_side with
  | Some s => sides ++ [s]
  | None => sides
  end.

(** The body of [for line in file]. *)
Definition parse_line (st : parse_state) (line : string) : result parse_state :=
  let '(sides, current_side) := st in
  if prefix "o " line then
    let sides := flush sides current_side in
    match nth_error (py_split line) 1 with
    | None => Raise IndexError
    | Some nm => Ok (sides, Some (mkSide (replace_obj nm) [] []))
    end
  else if prefix "v " line then
    coordinates <- map_raise ValueError py_float (tl (py_split line)) ;;
    let converted_coordinates := map convert_coordinate coordinates in
    match current_side with
    | None => Raise AttributeError
    | Some s =>
        Ok (sides, Some (mkSide (name s) (points s ++ [converted_coordinates]) (surfaces s)))
    end
  else if prefix "f " line then
    match current_side with
    | None => Raise AttributeError
    | Some s =>
        surface <- map_raise ValueError py_int (tl (py_split line)) ;;
        Ok (sides, Some (mkSide (name s) (points s) (surfaces s ++ [surface])))
    end
  else Ok st.

(** [parse_side], given the lines of the file. *)
Definition parse_side (lines : list string) : result (list Side) :=
  '(sides, current_side) <- for_each parse_line lines ([], None) ;;
  Ok (flush sides current_side).
End Parser.

(* ================================================================= *)
(** ** [find_panels] *)

Definition all_points (group : list Side) : list (list float) :=
  flat_map points group.

Definition all_surfaces (group : list Side) : list (list Z) :=
  flat_map surfaces group.

(** The test of the [if] in the loop. *)
Definition is_panel (group : list Side) : bool :=
  forallb (fun side => Nat.eqb (length (points side)) 4) group &&
  forallb (fun side => Nat.eqb (length (surfaces side)) 2) group &&
  Nat.eqb (length (py_set point_eqb (all_points group))) 8 &&
  Nat.eqb (length (py_set surface_eqb (all_surfaces group))) 12.

Definition find_panels (sides : list Side) : list (list Side) :=
  fold_left
    (fun panels i =>
       let group := slice sides i (i + 6) in
       if is_panel group then panels ++ [group] else panels)
    (py_range (Z.of_nat (length sides) - 5))
    [].

(* ================================================================= *)
(** ** [calculate_panel_properties] *)

(** [min(point[i] for point in all_points)]: [ValueError] on no point,
    [IndexError] at the first point that has no item [i]. *)
Definition axis (i : nat) (pts : list (list float)) : result (list float) :=
  map_raise IndexError (fun point => nth_error point i) pts.

Definition min_axis (i : nat) (pts : list (list float)) : result float :=
  match pts with
  | [] => Raise ValueError
  | _ =>
      cs <- axis i pts ;;
      match cs with
      | c :: cs' => Ok (py_min c cs')
      | [] => Raise ValueError
      end
  end.

Definition max_axis (i : nat) (pts : list (list float)) : result float :=
  match pts with
  | [] => Raise ValueError
  | _ =>
      cs <- axis i pts ;;
      match cs with
      | c :: cs' => Ok (py_max c cs')
      | [] => Raise ValueError
      end
  end.

Definition origin_t : Type := (float * float * float)%type.

(** The tuple [(origin, length, width, height)]. *)
Definition properties_t : Type := (origin_t * float * float * float)%type.

Definition calculate_panel_properties (panel : list Side) : result properties_t :=
  let pts := all_points panel in
  min_x <- min_axis 0 pts ;;
  min_y <- min_axis 1 pts ;;
  min_z <- min_axis 2 pts ;;
  max_x <- max_axis 0 pts ;;
  max_y <- max_axis 1 pts ;;
  max_z <- max_axis 2 pts ;;
  let origin := (min_x, min_y, min_z) in
  let dimensions := py_sorted flt [max_x - min_x; max_y - min_y; max_z - min_z]%float in
  match dimensions with
  | [d0; d1; d2] => Ok (origin, py_round1 d2, py_round1 d1, py_round1 d0)
  | _ => Raise IndexError
  end.

(* ================================================================= *)
(** ** [main]: sorting and aggregation *)

(** The dimension triple [(length, width, height)], the key of the
    dictionary. *)
Definition dims_t : Type := (float * float * float)%type.

Definition dims_eqb (a b : dims_t) : bool :=
  let '(l1, w1, h1) := a in
  let '(l2, w2, h2) := b in
  feq l1 l2 && feq w1 w2 && feq h1 h2.

(** The sort key [(height, length * width)]; the lambda calls the
    calculator three times. *)
Definition sort_key (panel : list Side) : result (float * float) :=
  '(_, _, _, height) <- calculate_panel_properties panel ;;
  '(_, length, _, _) <- calculate_panel_properties panel ;;
  '(_, _, width, _) <- calculate_panel_properties panel ;;
  Ok (height, (length * width)%float).

(** [<] on two key tuples: the first items that are not [==] decide. *)
Definition key_lt (a b : float * float) : bool :=
  if negb (feq (fst a) (fst b)) then flt (fst a) (fst b)
  else if negb (feq (snd a) (snd b)) then flt (snd a) (snd b)
  else false.

(** [sorted(panels, key=..., reverse=True)]: the keys are computed once,
    in list order, then the panels are sorted on them. *)
Definition sorted_panels (panels : list (list Side)) : result (list (list Side)) :=
  keyed <- for_each (fun acc panel => k <- sort_key panel ;; Ok (acc ++ [(k, panel)]))
             panels [] ;;
  Ok (map snd (py_sorted_reverse (fun a b => key_lt (fst a) (fst b)) keyed)).

(** [panel_properties]: the dictionary, as the list of its items in
    insertion order. *)
Definition panel_dict : Type := list (dims_t * list origin_t).

Definition dict_mem (k : dims_t) (d : panel_dict) : bool :=
  set_mem dims_eqb k (map fst d).

(** [d[k].append(o)] for a key that is in [d]. *)
Fixpoint dict_append (d : panel_dict) (k : dims_t) (o : origin_t) : panel_dict :=
  match d with
  | [] => []
  | (k', os) :: d' =>
      if dims_eqb k' k then (k', os ++ [o]) :: d'
      else (k', os) :: dict_append d' k o
  end.

(** The body of [for panel in sorted_panels]. *)
Definition aggregate_step (d : panel_dict) (panel : list Side) : result panel_dict :=
  '(origin, length, width, height) <- calculate_panel_properties panel ;;
  let properties := (length, width, height) in
  if dict_mem properties d then Ok (dict_append d properties origin)
  else Ok (d ++ [(properties, [origin])]).

(** Lines 120 to 131 of [main]. *)
Definition aggregate (panels : list (list Side)) : result panel_dict :=
  sorted <- sorted_panels panels ;;
  for_each aggregate_step sorted [].

(** One block of the report per item of the dictionary: the count and
    whether the labels are plural, the triple, the origins. *)
Record report_block : Type := mkBlock {
  block_count : nat;
  block_plural : bool;
  block_length : float;
  block_width : float;
  block_height : float;
  block_origins : list origin_t
}.

Definition report (d : panel_dict) : list report_block :=
  map (fun '((length, width, height), origins) =>
         mkBlock (List.length origins) (negb (Nat.eqb (List.length origins) 1))
                 length width height origins) d.

Section Main.
Variable py_split : string -> list string.
Variable py_float : string -> option float.
Variable py_int : string -> option Z.

(** [main], given the lines of the input file: what it prints, or the
    exception that ends the run. *)
Definition main (lines : list string) : result (list report_block) :=
  sides <- parse_side py_split py_float py_int lines ;;
  let panels := find_panels sides in
  d <- aggregate panels ;;
  Ok (report d).
End Main.

(* ================================================================= *)
(** ** Specification vocabulary *)

(** The window of six consecutive sides that starts at index [i]. *)
Definition window (sides : list Side) (i : nat) : list Side :=
  firstn 6 (skipn i sides).

(** The number of distinct values of a list: the number of positions whose
    value is not equal to the value at any earlier position. *)
Definition num_distinct {A : Type} (eqb : A -> A -> bool) (l : list A) : nat :=
  List.length (first_occurrences eqb [] l).

(** What the test of [find_panels] counts on a group. *)
Definition panel_counts (group : list Side) : Prop :=
  Forall (fun side => List.length (points side) = 4%nat) group /\
  Forall (fun side => List.length (surfaces side) = 2%nat) group /\
  num_distinct point_eqb (all_points group) = 8%nat /\
  num_distinct surface_eqb (all_surfaces group) = 12%nat.

(** The value a float holds.  The two zeros hold the same number; floats
    that differ otherwise hold different values. *)
Definition float_value (x : float) : spec_float :=
  match Prim2SF x with
  | S754_zero _ => S754_zero false
  | v => v
  end.

Definition point_value (point : list float) : list spec_float :=
  map float_value point.

(** The points and the faces of the sides of a group. *)
Definition point_of (group : list Side) (point : list float) : Prop :=
  exists side, In side group /\ In point (points side).

Definition face_of (group : list Side) (face : list Z) : Prop :=
  exists side, In side group /\ In face (surfaces side).

(** The members take exactly [n] distinct values: some list without
    repetition, of length [n], holds the values of the members and nothing
    else. *)
Definition distinct_values {A V : Type} (member : A -> Prop) (value : A -> V) (n : nat)
  : Prop :=
  exists vals : list V,
    NoDup vals /\ List.length vals = n /\
    forall v, In v vals <-> exists x, member x /\ value x = v.

(** The box-topology invariant of a group of sides: four points and two
    faces on every side, eight distinct point values and twelve distinct
    faces over the sides. *)
Definition box_topology (group : list Side) : Prop :=
  (forall side, In side group ->
     List.length (points side) = 4%nat /\ List.length (surfaces side) = 2%nat) /\
  distinct_values (point_of group) point_value 8 /\
  distinct_values (face_of group) (fun face => face) 12.

(** No coordinate of the sides is NaN. *)
Definition no_nan (sides : list Side) : bool :=
  forallb (fun side => forallb (forallb not_nan) (points side)) sides.

(* ================================================================= *)
(** ** Example inputs *)

(** Instances of the built-ins, enough to read the example files: tokens
    are separated by ASCII white space; a float token is [inf], [-inf],
    [nan] or an optionally signed decimal numeral with at most fifteen
    digits (the quotient of two integers that floats hold exactly, so one
    rounding gives the nearest float); an integer token is an optionally
    signed string of digits. *)
Definition is_space (c : ascii) : bool :=
  let n := N_of_ascii c in
  ((9 <=? n) && (n <=? 13) || (28 <=? n) && (n <=? 32))%N.

Fixpoint split_from (tok : string) (s : string) : list string :=
  match s with
  | EmptyString => match tok with EmptyString => [] | _ => [tok] end
  | String c s' =>
      if is_space c then
        match tok with
        | EmptyString => split_from EmptyString s'
        | _ => tok :: split_from EmptyString s'
        end
      else split_from (tok ++ String c EmptyString) s'
  end.

Definition example_split (s : string) : list string := split_from EmptyString s.

Definition digit_of (c : ascii) : option Z :=
  let n := Z.of_N (N_of_ascii c) in
  if (48 <=? n) && (n <=? 57) then Some (n - 48) else None.

(** The digits of [s] read after the digits [acc]: the number and how many
    digits were read. *)
Fixpoint read_digits (s : string) (acc : Z) (n : Z) : option (Z * Z) :=
  match s with
  | EmptyString => Some (acc, n)
  | String c s' =>
      match digit_of c with
      | Some d => read_digits s' (10 * acc + d) (n + 1)
      | None => None
      end
  end.

Fixpoint split_at_dot (s : string) : string * option string :=
  match s with
  | EmptyString => (EmptyString, None)
  | String "." s' => (EmptyString, Some s')
  | String c s' => let '(a, b) := split_at_dot s' in (String c a, b)
  end.

Definition float_of_Z (n : Z) : float := SF2Prim (binary_normalize prec emax n 0 false).

Definition example_unsigned_float (s : string) : option float :=
  let '(int_part, frac_part) := split_at_dot s in
  match read_digits int_part 0 0 with
  | None => None
  | Some (i, ni) =>
      match read_digits (match frac_part with Some f => f | None => EmptyString end) i ni with
      | None => None
      | Some (v, nv) =>
          if (nv =? 0) || (15 <? nv) then None
          else Some (float_of_Z v / float_of_Z (10 ^ (nv - ni)))%float
      end
  end.

Definition example_float (s : string) : option float :=
  match s with
  | "inf"%string => Some infinity
  | "-inf"%string => Some neg_infinity
  | "nan"%string => Some nan
  | String "-" s' => option_map opp (example_unsigned_float s')
  | _ => example_unsigned_float s
  end.

Definition example_int (s : string) : option Z :=
  match s with
  | String "-" s' =>
      match read_digits s' 0 0 with
      | Some (v, n) => if n =? 0 then None else Some (- v)
      | None => None
      end
  | _ =>
      match read_digits s 0 0 with
      | Some (v, n) => if n =? 0 then None else Some v
      | None => None
      end
  end.

(** A line of a file ends with a newline. *)
Definition line (s : string) : string := s ++ String (ascii_of_nat 10) EmptyString.
(** The unit cube, in inches: six sides of four points and two faces. *)
Definition cube_file : list string :=
  map line
    ["o Side1obj";
     "v 0 0 0";
     "v 1 0 0";
     "v 1 1 0";
     "v 0 1 0";
     "f 1 2 3";
     "f 1 3 4";
     "o Side2obj";
     "v 0 0 1";
     "v 1 0 1";
     "v 1 1 1";
     "v 0 1 1";
     "f 5 6 7";
     "f 5 7 8";
     "o Side3obj";
     "v 0 0 0";
     "v 1 0 0";
     "v 1 0 1";
     "v 0 0 1";
     "f 9 10 11";
     "f 9 11 12";
     "o Side4obj";
     "v 0 1 0";
     "v 1 1 0";
     "v 1 1 1";
     "v 0 1 1";
     "f 13 14 15";
     "f 13 15 16";
     "o Side5obj";
     "v 0 0 0";
     "v 0 1 0";
     "v 0 1 1";
     "v 0 0 1";
     "f 17 18 19";
     "f 17 19 20";
     "o Side6obj";
     "v 1 0 0";
     "v 1 1 0";
     "v 1 1 1";
     "v 1 0 1";
     "f 21 22 23";
     "f 21 23 24"]%string.

(** Coordinate [i] of a point, and the coordinates [i] of a list of points. *)
Definition coordinate (i : nat) (point : list float) : float := nth i point 0%float.

Definition coordinates (i : nat) (pts : list (list float)) : list float :=
  map (coordinate i) pts.

(** [m] is a least (a greatest) item of [cs]. *)
Definition is_minimum (m : float) (cs : list float) : Prop :=
  In m cs /\ forall c, In c cs -> fle m c = true.

Definition is_maximum (m : float) (cs : list float) : Prop :=
  In m cs /\ forall c, In c cs -> fle c m = true.

(** Every point has the three coordinates the calculator reads. *)
Definition three_coordinates (pts : list (list float)) : Prop :=
  Forall (fun point => (3 <= List.length point)%nat) pts.

(** Every coordinate of every point is a finite number. *)
Definition finite_coordinates (pts : list (list float)) : Prop :=
  Forall (Forall (fun c => finite c = true)) pts.

(** Six sides whose [v] lines give two coordinates only: eight distinct
    points, twelve distinct faces. *)
Definition flat_file : list string :=
  map line
    ["o Side1obj";
     "v 0 0";
     "v 1 0";
     "v 2 0";
     "v 3 0";
     "f 1 2 3";
     "f 1 3 4";
     "o Side2obj";
     "v 0 1";
     "v 1 1";
     "v 2 1";
     "v 3 1";
     "f 5 6 7";
     "f 5 7 8";
     "o Side3obj";
     "v 0 0";
     "v 1 0";
     "v 2 0";
     "v 3 0";
     "f 9 10 11";
     "f 9 11 12";
     "o Side4obj";
     "v 0 1";
     "v 1 1";
     "v 2 1";
     "v 3 1";
     "f 13 14 15";
     "f 13 15 16";
     "o Side5obj";
     "v 0 0";
     "v 1 0";
     "v 2 0";
     "v 3 0";
     "f 17 18 19";
     "f 17 19 20";
     "o Side6obj";
     "v 0 1";
     "v 1 1";
     "v 2 1";
     "v 3 1";
     "f 21 22 23";
     "f 21 23 24"]%string.

Definition parse_example : list string -> result (list Side) :=
  parse_side example_split example_float example_int.

Definition sides_of (file : list string) : list Side :=
  match parse_example file with
  | Ok sides => sides
  | Raise _ => []
  end.

Definition cube_sides : list Side := Eval vm_compute in sides_of cube_file.
Definition cube_panel : list Side := Eval vm_compute in window cube_sides 0.
Definition flat_sides : list Side := Eval vm_compute in sides_of flat_file.
Definition flat_panel : list Side := Eval vm_compute in window flat_sides 0.

(** Six sides whose points all have the first coordinate [inf]: eight
    distinct points, twelve distinct faces. *)
Definition inf_file : list string :=
  map line
    ["o Side1obj";
     "v inf 0 0";
     "v inf 1 0";
     "v inf 2 0";
     "v inf 3 0";
     "f 1 2 3";
     "f 1 3 4";
     "o Side2obj";
     "v inf 0 1";
     "v inf 1 1";
     "v inf 2 1";
     "v inf 3 1";
     "f 5 6 7";
     "f 5 7 8";
     "o Side3obj";
     "v inf 0 0";
     "v inf 1 0";
     "v inf 2 0";
     "v inf 3 0";
     "f 9 10 11";
     "f 9 11 12";
     "o Side4obj";
     "v inf 0 1";
     "v inf 1 1";
     "v inf 2 1";
     "v inf 3 1";
     "f 13 14 15";
     "f 13 15 16";
     "o Side5obj";
     "v inf 0 0";
     "v inf 1 0";
     "v inf 2 0";
     "v inf 3 0";
     "f 17 18 19";
     "f 17 19 20";
     "o Side6obj";
     "v inf 0 1";
     "v inf 1 1";
     "v inf 2 1";
     "v inf 3 1";
     "f 21 22 23";
     "f 21 23 24"]%string.

Definition inf_sides : list Side := Eval vm_compute in sides_of inf_file.
Definition inf_panel : list Side := Eval vm_compute in window inf_sides 0.

(** Six sides with four points and two faces each, twelve distinct faces,
    and twenty-four points that take five values: four of the points are
    [(nan, 0, 0)]. *)
Definition nan_file : list string :=
  map line
    ["o Side1obj";
     "v nan 0 0";
     "v 0 0 0";
     "v 1 0 0";
     "v 1 1 0";
     "f 1 2 3";
     "f 1 3 4";
     "o Side2obj";
     "v nan 0 0";
     "v 0 0 0";
     "v 1 0 0";
     "v 0 1 0";
     "f 5 6 7";
     "f 5 7 8";
     "o Side3obj";
     "v nan 0 0";
     "v 0 0 0";
     "v 1 1 0";
     "v 0 1 0";
     "f 9 10 11";
     "f 9 11 12";
     "o Side4obj";
     "v nan 0 0";
     "v 1 0 0";
     "v 1 1 0";
     "v 0 1 0";
     "f 13 14 15";
     "f 13 15 16";
     "o Side5obj";
     "v 0 0 0";
     "v 1 0 0";
     "v 1 1 0";
     "v 0 1 0";
     "f 17 18 19";
     "f 17 19 20";
     "o Side6obj";
     "v 0 0 0";
     "v 1 0 0";
     "v 1 1 0";
     "v 0 1 0";
     "f 21 22 23";
     "f 21 23 24"]%string.

Definition nan_sides : list Side := Eval vm_compute in sides_of nan_file.

(** Six sides without points. *)
Definition empty_panel : list Side := repeat (mkSide EmptyString [] []) 6.

(** What the calculator returns for a panel on which it does not raise, and
    its parts: the origin, the dimension triple (the key of the
    dictionary) and the sort key. *)
Definition properties_of (panel : list Side) : properties_t :=
  match calculate_panel_properties panel with
  | Ok r => r
  | Raise _ => ((0, 0, 0), 0, 0, 0)%float
  end.

Definition origin_of (panel : list Side) : origin_t :=
  let '(origin, _, _, _) := properties_of panel in origin.

Definition dims_of (panel : list Side) : dims_t :=
  let '(_, length, width, height) := properties_of panel in (length, width, height).

Definition key_of (panel : list Side) : float * float :=
  let '(_, length, width, height) := properties_of panel in (height, (length * width)%float).

(** The calculator returns a result for the panel. *)
Definition calculable (panel : list Side) : Prop :=
  exists r, calculate_panel_properties panel = Ok r.

(** The number of origins of a dictionary, over all its groups. *)
Definition total_origins (d : panel_dict) : nat :=
  list_sum (map (fun item => List.length (snd item)) d).

(** The position of the first key equal to [k] (the number of keys when
    there is none). *)
Fixpoint find_key (keys : list dims_t) (k : dims_t) : nat :=
  match keys with
  | [] => 0
  | k' :: keys' => if dims_eqb k' k then 0 else S (find_key keys' k)
  end.

(** The loop body on a panel the calculator accepts. *)
Definition insert_panel (d : panel_dict) (panel : list Side) : panel_dict :=
  if dict_mem (dims_of panel) d then dict_append d (dims_of panel) (origin_of panel)
  else d ++ [(dims_of panel, [origin_of panel])].

(** The group each panel lands in: the position, in the dictionary, of the
    item its origin is added to (a new item goes to the end). *)
Fixpoint landings (d : panel_dict) (panels : list (list Side)) : list nat :=
  match panels with
  | [] => []
  | panel :: panels' =>
      find_key (map fst d) (dims_of panel) :: landings (insert_panel d panel) panels'
  end.

(** The panels in the order [sorted(..., reverse=True)] gives them, when
    the calculator accepts them all. *)
Definition processing_order (panels : list (list Side)) : list (list Side) :=
  map snd (py_sorted_reverse (fun a b => key_lt (fst a) (fst b))
                             (map (fun panel => (key_of panel, panel)) panels)).

(** The origins of the panels of [panels] that landed in group [g]. *)
Fixpoint origins_landed (g : nat) (panels : list (list Side)) (gs : list nat) : list origin_t :=
  match panels, gs with
  | panel :: panels', g' :: gs' =>
      if Nat.eqb g' g then origin_of panel :: origins_landed g panels' gs'
      else origins_landed g panels' gs'
  | _, _ => []
  end.

(** The origins of group [g] of a dictionary (none when there is no such
    group). *)
Definition group_origins (d : panel_dict) (g : nat) : list origin_t :=
  match nth_error d g with
  | Some (_, origins) => origins
  | None => []
  end.

(** Three boxes: the unit cube, a cube of two inches, and the unit cube
    moved along the first axis. *)
Definition boxes_file : list string :=
  map line
    ["o Side1obj";
     "v 0 0 0";
     "v 1 0 0";
     "v 1 1 0";
     "v 0 1 0";
     "f 1 2 3";
     "f 1 3 4";
     "o Side2obj";
     "v 0 0 1";
     "v 1 0 1";
     "v 1 1 1";
     "v 0 1 1";
     "f 5 6 7";
     "f 5 7 8";
     "o Side3obj";
     "v 0 0 0";
     "v 1 0 0";
     "v 1 0 1";
     "v 0 0 1";
     "f 9 10 11";
     "f 9 11 12";
     "o Side4obj";
     "v 0 1 0";
     "v 1 1 0";
     "v 1 1 1";
     "v 0 1 1";
     "f 13 14 15";
     "f 13 15 16";
     "o Side5obj";
     "v 0 0 0";
     "v 0 1 0";
     "v 0 1 1";
     "v 0 0 1";
     "f 17 18 19";
     "f 17 19 20";
     "o Side6obj";
     "v 1 0 0";
     "v 1 1 0";
     "v 1 1 1";
     "v 1 0 1";
     "f 21 22 23";
     "f 21 23 24";
     "o Side7obj";
     "v 10 0 0";
     "v 12 0 0";
     "v 12 2 0";
     "v 10 2 0";
     "f 25 26 27";
     "f 25 27 28";
     "o Side8obj";
     "v 10 0 2";
     "v 12 0 2";
     "v 12 2 2";
     "v 10 2 2";
     "f 29 30 31";
     "f 29 31 32";
     "o Side9obj";
     "v 10 0 0";
     "v 12 0 0";
     "v 12 0 2";
     "v 10 0 2";
     "f 33 34 35";
     "f 33 35 36";
     "o Side10obj";
     "v 10 2 0";
     "v 12 2 0";
     "v 12 2 2";
     "v 10 2 2";
     "f 37 38 39";
     "f 37 39 40";
     "o Side11obj";
     "v 10 0 0";
     "v 10 2 0";
     "v 10 2 2";
     "v 10 0 2";
     "f 41 42 43";
     "f 41 43 44";
     "o Side12obj";
     "v 12 0 0";
     "v 12 2 0";
     "v 12 2 2";
     "v 12 0 2";
     "f 45 46 47";
     "f 45 47 48";
     "o Side13obj";
     "v 1.97 0 0";
     "v 2.97 0 0";
     "v 2.97 1 0";
     "v 1.97 1 0";
     "f 49 50 51";
     "f 49 51 52";
     "o Side14obj";
     "v 1.97 0 1";
     "v 2.97 0 1";
     "v 2.97 1 1";
     "v 1.97 1 1";
     "f 53 54 55";
     "f 53 55 56";
     "o Side15obj";
     "v 1.97 0 0";
     "v 2.97 0 0";
     "v 2.97 0 1";
     "v 1.97 0 1";
     "f 57 58 59";
     "f 57 59 60";
     "o Side16obj";
     "v 1.97 1 0";
     "v 2.97 1 0";
     "v 2.97 1 1";
     "v 1.97 1 1";
     "f 61 62 63";
     "f 61 63 64";
     "o Side17obj";
     "v 1.97 0 0";
     "v 1.97 1 0";
     "v 1.97 1 1";
     "v 1.97 0 1";
     "f 65 66 67";
     "f 65 67 68";
     "o Side18obj";
     "v 2.97 0 0";
     "v 2.97 1 0";
     "v 2.97 1 1";
     "v 2.97 0 1";
     "f 69 70 71";
     "f 69 71 72"]%string.

Definition boxes_sides : list Side := Eval vm_compute in sides_of boxes_file.
Definition boxes_panels : list (list Side) := Eval vm_compute in find_panels boxes_sides.

(** The three boxes in the order in which [main] processes them. *)
Definition boxes_order : list (list Side) :=
  Eval vm_compute in processing_order boxes_panels.

(* ================================================================= *)
(** * Properties *)

(** ** Sets *)

Section PySetFacts.
Context {A : Type} (eqb : A -> A -> bool).

Lemma set_mem_app (x : A) (s t : list A) :
  set_mem eqb x (s ++ t) = set_mem eqb x s || set_mem eqb x t.
Proof. unfold set_mem. apply existsb_app. Qed.

Lemma set_mem_true (x : A) (s : list A) :
  set_mem eqb x s = true <-> exists y, In y s /\ eqb y x = true.
Proof. unfold set_mem. apply existsb_exists. Qed.

Lemma set_mem_false (x : A) (s : list A) :
  set_mem eqb x s = false <-> forall y, In y s -> eqb y x = false.
Proof.
  split.
  - intros H y Hy. destruct (eqb y x) eqn:E; [|reflexivity].
    assert (set_mem eqb x s = true) by (apply set_mem_true; eauto).
    congruence.
  - intros H. destruct (set_mem eqb x s) eqn:E; [|reflexivity].
    apply set_mem_true in E. destruct E as (y & Hy & E).
    rewrite (H y Hy) in E. discriminate.
Qed.

Hypothesis eqb_sym : forall x y, eqb x y = true -> eqb y x = true.
Hypothesis eqb_trans : forall x y z, eqb x y = true -> eqb y z = true -> eqb x z = true.

(** A set represents what has been seen: membership in one is membership
    in the other. *)
Definition represents (s seen : list A) : Prop :=
  forall x, set_mem eqb x s = set_mem eqb x seen.

Lemma represents_add (s seen : list A) (a : A) :
  represents s seen -> represents (set_add eqb s a) (seen ++ [a]).
Proof.
  intros Hrep x.
  unfold set_add. destruct (set_mem eqb a s) eqn:Ea.
  - rewrite set_mem_app, <- Hrep.
    destruct (set_mem eqb x s) eqn:Ex; [reflexivity|]. simpl.
    unfold set_mem. simpl. rewrite orb_false_r.
    destruct (eqb a x) eqn:Eax; [|reflexivity].
    apply set_mem_true in Ea. destruct Ea as (y & Hy & Eya).
    assert (set_mem eqb x s = true); [|congruence].
    apply set_mem_true. exists y. split; [assumption|].
    now apply (eqb_trans y a x).
  - rewrite !set_mem_app, Hrep. reflexivity.
Qed.

(** Python's set and the first occurrences hold the same values. *)
Lemma fold_set_add_first_occurrences (l s seen : list A) :
  represents s seen ->
  fold_left (set_add eqb) l s = s ++ first_occurrences eqb seen l.
Proof.
  revert s seen. induction l as [|a l IH]; intros s seen Hrep; simpl.
  - now rewrite app_nil_r.
  - rewrite (IH _ (seen ++ [a])) by now apply represents_add.
    unfold set_add. rewrite <- (Hrep a).
    destruct (set_mem eqb a s); [reflexivity|].
    now rewrite <- app_assoc.
Qed.

Lemma py_set_first_occurrences (l : list A) :
  py_set eqb l = first_occurrences eqb [] l.
Proof.
  unfold py_set. rewrite (fold_set_add_first_occurrences l [] []); [reflexivity|].
  intros x. reflexivity.
Qed.

Lemma length_py_set (l : list A) :
  List.length (py_set eqb l) = num_distinct eqb l.
Proof. unfold num_distinct. now rewrite py_set_first_occurrences. Qed.
End PySetFacts.

(** ** The order of the floats *)

Lemma digits2_pos_bounds (m : positive) :
  2 ^ (Z.pos (digits2_pos m) - 1) <= Z.pos m < 2 ^ Z.pos (digits2_pos m).
Proof.
  induction m as [p IH|p IH|]; simpl digits2_pos.
  - rewrite Pos2Z.inj_succ, Z.pow_succ_r by lia.
    replace (Z.succ (Z.pos (digits2_pos p)) - 1) with (Z.succ (Z.pos (digits2_pos p) - 1)) by lia.
    rewrite Z.pow_succ_r by lia. lia.
  - rewrite Pos2Z.inj_succ, Z.pow_succ_r by lia.
    replace (Z.succ (Z.pos (digits2_pos p)) - 1) with (Z.succ (Z.pos (digits2_pos p) - 1)) by lia.
    rewrite Z.pow_succ_r by lia. lia.
  - simpl. lia.
Qed.

(** What validity says of a finite float [m * 2^e]: the exponent is in
    range, the mantissa has at most 53 bits, and exactly 53 unless the
    exponent is the smallest one. *)
Lemma valid_finite_bounds (s : bool) (m : positive) (e : Z) :
  valid_binary (S754_finite s m e) = true ->
  -1074 <= e <= 971 /\ Z.pos m < 2 ^ 53 /\ (-1074 < e -> 2 ^ 52 <= Z.pos m).
Proof.
  unfold SpecFloat.valid_binary, bounded, canonical_mantissa, fexp, emin, prec, emax.
  intros H. apply andb_true_iff in H. destruct H as [Hc He].
  apply Z.eqb_eq in Hc. apply Z.leb_le in He.
  pose proof (digits2_pos_bounds m) as [Hlo Hhi].
  set (d := Z.pos (digits2_pos m)) in *.
  assert (Hd : d <= 53) by lia.
  split; [lia|]. split.
  - apply Z.lt_le_trans with (1 := Hhi). apply Z.pow_le_mono_r; lia.
  - intros Hgt. assert (d = 53) by lia. subst d.
    replace 52 with (Z.pos (digits2_pos m) - 1) by lia. exact Hlo.
Qed.

Lemma units_pos (m : positive) (e : Z) : -1074 <= e -> 0 < units m e.
Proof.
  intros He. unfold units. apply Z.mul_pos_pos; [lia|]. apply Z.pow_pos_nonneg; lia.
Qed.

Lemma units_bound (s : bool) (m : positive) (e : Z) :
  valid_binary (S754_finite s m e) = true -> 0 < units m e < 2 ^ 2098.
Proof.
  intros H. apply valid_finite_bounds in H. destruct H as (He & Hm & _).
  split; [apply units_pos; lia|]. unfold units.
  apply Z.lt_le_trans with (2 ^ 53 * 2 ^ (e + 1074)).
  - apply Z.mul_lt_mono_pos_r; [apply Z.pow_pos_nonneg; lia|exact Hm].
  - rewrite <- Z.pow_add_r by lia. apply Z.pow_le_mono_r; lia.
Qed.

(** Among valid floats a larger exponent is a larger number. *)
Lemma units_exponent_lt (s1 s2 : bool) (m1 m2 : positive) (e1 e2 : Z) :
  valid_binary (S754_finite s1 m1 e1) = true ->
  valid_binary (S754_finite s2 m2 e2) = true ->
  e1 < e2 -> units m1 e1 < units m2 e2.
Proof.
  intros H1 H2 Hlt.
  apply valid_finite_bounds in H1. destruct H1 as (He1 & Hm1 & _).
  apply valid_finite_bounds in H2. destruct H2 as (He2 & _ & Hm2).
  specialize (Hm2 ltac:(lia)). unfold units.
  apply Z.lt_le_trans with (2 ^ 53 * 2 ^ (e1 + 1074)).
  - apply Z.mul_lt_mono_pos_r; [apply Z.pow_pos_nonneg; lia|exact Hm1].
  - apply Z.le_trans with (2 ^ 52 * 2 ^ (e2 + 1074)).
    + rewrite <- !Z.pow_add_r by lia. apply Z.pow_le_mono_r; lia.
    + apply Z.mul_le_mono_nonneg_r; [apply Z.pow_nonneg; lia|exact Hm2].
Qed.

Lemma units_mantissa_compare (m1 m2 : positive) (e : Z) :
  -1074 <= e -> (units m1 e ?= units m2 e) = (m1 ?= m2)%positive.
Proof.
  intros He. unfold units.
  assert (0 < 2 ^ (e + 1074)) by (apply Z.pow_pos_nonneg; lia).
  rewrite Pos2Z.inj_compare.
  destruct (Z.compare_spec (Z.pos m1) (Z.pos m2)) as [E|E|E].
  - rewrite E. apply Z.compare_refl.
  - apply Z.compare_lt_iff. now apply Z.mul_lt_mono_pos_r.
  - apply Z.compare_gt_iff. now apply Z.mul_lt_mono_pos_r.
Qed.

(** The place of a float on the line of integers: its number of units,
    with the infinities beyond every finite float. *)
Definition SFkey (x : spec_float) : Z :=
  match x with
  | S754_zero _ => 0
  | S754_nan => 0
  | S754_infinity s => if s then - 2 ^ 2100 else 2 ^ 2100
  | S754_finite s m e => if s then - units m e else units m e
  end.

Definition SFnot_nan (x : spec_float) : Prop := x <> S754_nan.

Lemma SFcompare_key (x y : spec_float) :
  valid_binary x = true -> valid_binary y = true ->
  SFnot_nan x -> SFnot_nan y ->
  SFcompare x y = Some (SFkey x ?= SFkey y).
Proof.
  intros Vx Vy Nx Ny.
  assert (P2100 : 2 ^ 2098 < 2 ^ 2100) by (apply Z.pow_lt_mono_r; lia).
  assert (P0 : 0 < 2 ^ 2098) by (apply Z.pow_pos_nonneg; lia).
  destruct x as [sx|sx| |sx mx ex]; [| |now elim Nx|];
    destruct y as [sy|sy| |sy my ey]; try (now elim Ny);
    try (pose proof (units_bound _ _ _ Vx) as Bx);
    try (pose proof (units_bound _ _ _ Vy) as By);
    cbn [SFcompare SFkey];
    try solve [ repeat match goal with b : bool |- _ => destruct b end;
                f_equal; symmetry;
                first [ apply Z.compare_eq_iff; lia
                      | apply Z.compare_lt_iff; lia
                      | apply Z.compare_gt_iff; lia ] ].
  - assert (Hex : -1074 <= ex) by (apply valid_finite_bounds in Vx; lia).
    destruct sx, sy; f_equal; symmetry.
    + change (Pos.compare_cont Eq mx my) with (mx ?= my)%positive.
      destruct (Z.compare_spec ex ey) as [E|E|E].
      * subst ey. rewrite Z.compare_opp, units_mantissa_compare by assumption.
        apply Pos.compare_antisym.
      * apply Z.compare_gt_iff.
        pose proof (units_exponent_lt _ _ _ _ _ _ Vx Vy E). lia.
      * apply Z.compare_lt_iff.
        pose proof (units_exponent_lt _ _ _ _ _ _ Vy Vx E). lia.
    + apply Z.compare_lt_iff; lia.
    + apply Z.compare_gt_iff; lia.
    + change (Pos.compare_cont Eq mx my) with (mx ?= my)%positive.
      destruct (Z.compare_spec ex ey) as [E|E|E].
      * subst ey. now apply units_mantissa_compare.
      * apply Z.compare_lt_iff. exact (units_exponent_lt _ _ _ _ _ _ Vx Vy E).
      * apply Z.compare_gt_iff. exact (units_exponent_lt _ _ _ _ _ _ Vy Vx E).
Qed.

Definition fkey (x : float) : Z := SFkey (Prim2SF x).

Lemma not_nan_true (x : float) : not_nan x = true -> SFnot_nan (Prim2SF x).
Proof. unfold not_nan, SFnot_nan. now destruct (Prim2SF x). Qed.

Lemma not_nan_false (x : float) : not_nan x = false -> Prim2SF x = S754_nan.
Proof. unfold not_nan. now destruct (Prim2SF x). Qed.

Lemma fcompare_key (x y : float) :
  SFcompare (Prim2SF x) (Prim2SF y) =
  if not_nan x && not_nan y then Some (fkey x ?= fkey y) else None.
Proof.
  destruct (not_nan x) eqn:Nx; [destruct (not_nan y) eqn:Ny|]; simpl.
  - apply SFcompare_key; auto using Prim2SF_valid, not_nan_true.
  - rewrite (not_nan_false y Ny). now destruct (Prim2SF x).
  - now rewrite (not_nan_false x Nx).
Qed.

Lemma flt_spec (x y : float) :
  flt x y = not_nan x && not_nan y && (fkey x <? fkey y).
Proof.
  unfold flt. rewrite ltb_spec. unfold SFltb. rewrite fcompare_key.
  destruct (not_nan x && not_nan y); [|reflexivity]. simpl.
  unfold Z.ltb. now destruct (fkey x ?= fkey y).
Qed.

Lemma fle_spec (x y : float) :
  fle x y = not_nan x && not_nan y && (fkey x <=? fkey y).
Proof.
  unfold fle. rewrite leb_spec. unfold SFleb. rewrite fcompare_key.
  destruct (not_nan x && not_nan y); [|reflexivity]. simpl.
  unfold Z.leb. now destruct (fkey x ?= fkey y).
Qed.

Lemma feq_spec (x y : float) :
  feq x y = not_nan x && not_nan y && (fkey x =? fkey y).
Proof.
  unfold feq. rewrite eqb_spec. unfold SFeqb. rewrite fcompare_key.
  destruct (not_nan x && not_nan y); [|reflexivity]. simpl.
  rewrite Z.eqb_compare. now destruct (fkey x ?= fkey y).
Qed.

Lemma fgt_spec (x y : float) :
  fgt x y = not_nan x && not_nan y && (fkey y <? fkey x).
Proof. unfold fgt. change ((y <? x)%float) with (flt y x). rewrite flt_spec. now rewrite (andb_comm (not_nan y)). Qed.

Lemma feq_sym (x y : float) : feq x y = true -> feq y x = true.
Proof.
  rewrite !feq_spec, !andb_true_iff, !Z.eqb_eq. intuition congruence.
Qed.

Lemma feq_trans (x y z : float) : feq x y = true -> feq y z = true -> feq x z = true.
Proof.
  rewrite !feq_spec, !andb_true_iff, !Z.eqb_eq. intuition congruence.
Qed.

(** Equal floats are the same float, or the two zeros. *)
Lemma SFkey_inj (x y : spec_float) :
  valid_binary x = true -> valid_binary y = true ->
  SFnot_nan x -> SFnot_nan y -> SFkey x = SFkey y ->
  x = y \/ (exists s s', x = S754_zero s /\ y = S754_zero s').
Proof.
  intros Vx Vy Nx Ny E.
  pose proof (SFcompare_key x y Vx Vy Nx Ny) as C.
  rewrite E, Z.compare_refl in C.
  assert (P2100 : 0 < 2 ^ 2100) by (apply Z.pow_pos_nonneg; lia).
  destruct x as [sx|sx| |sx mx ex]; [| |now elim Nx|];
    destruct y as [sy|sy| |sy my ey]; try (now elim Ny);
    try (pose proof (units_bound _ _ _ Vx) as Bx);
    try (pose proof (units_bound _ _ _ Vy) as By);
    cbn [SFkey] in E;
    try solve [ repeat match goal with b : bool |- _ => destruct b end;
                first [ now left | lia ] ].
  - right. eauto.
  - left. cbn [SFcompare] in C.
    destruct sx, sy; try lia; injection C as C;
      destruct (Z.compare_spec ex ey) as [Ee|Ee|Ee]; try discriminate; subst ey;
      change (Pos.compare_cont Eq mx my) with (mx ?= my)%positive in C.
    + destruct (Pos.compare_spec mx my); try discriminate. now subst.
    + apply Pos.compare_eq in C. now subst.
Qed.

Lemma feq_exact (x y : float) :
  feq x y = true ->
  x = y \/ (feq x 0 = true /\ feq y 0 = true).
Proof.
  intros H. pose proof H as H0.
  rewrite feq_spec, !andb_true_iff, Z.eqb_eq in H. destruct H as [[Nx Ny] E].
  destruct (SFkey_inj (Prim2SF x) (Prim2SF y)) as [Exy|(s & s' & Ex & Ey)];
    auto using Prim2SF_valid, not_nan_true.
  - left. now apply Prim2SF_inj.
  - right. rewrite !feq_spec, Nx, Ny. unfold fkey. rewrite Ex, Ey. now vm_compute.
Qed.

Section SeqEqb.
Context {A : Type} (eqb : A -> A -> bool).
Hypothesis eqb_sym : forall x y, eqb x y = true -> eqb y x = true.
Hypothesis eqb_trans : forall x y z, eqb x y = true -> eqb y z = true -> eqb x z = true.

Lemma seq_eqb_sym (l1 l2 : list A) :
  seq_eqb eqb l1 l2 = true -> seq_eqb eqb l2 l1 = true.
Proof.
  revert l2. induction l1 as [|x l1 IH]; intros [|y l2]; simpl; try easy.
  rewrite !andb_true_iff. intros [H1 H2]. auto.
Qed.

Lemma seq_eqb_trans (l1 l2 l3 : list A) :
  seq_eqb eqb l1 l2 = true -> seq_eqb eqb l2 l3 = true -> seq_eqb eqb l1 l3 = true.
Proof.
  revert l2 l3. induction l1 as [|x l1 IH]; intros [|y l2] [|z l3]; simpl; try easy.
  rewrite !andb_true_iff. intros [H1 H2] [H3 H4]. eauto.
Qed.
End SeqEqb.

Lemma point_eqb_trans (p q r : list float) :
  point_eqb p q = true -> point_eqb q r = true -> point_eqb p r = true.
Proof. apply seq_eqb_trans, feq_trans. Qed.

Lemma surface_eqb_eq (f g : list Z) : surface_eqb f g = true <-> f = g.
Proof.
  unfold surface_eqb. revert g. induction f as [|x f IH]; intros [|y g]; simpl; try easy.
  rewrite andb_true_iff, Z.eqb_eq, IH. split; [intros []; congruence|intros [= -> ->]; auto].
Qed.

Lemma surface_eqb_trans (f g h : list Z) :
  surface_eqb f g = true -> surface_eqb g h = true -> surface_eqb f h = true.
Proof. rewrite !surface_eqb_eq. congruence. Qed.

(** ** [find_panels] *)

Lemma find_panels_loop {A B : Type} (test : A -> bool) (item : A -> B)
      (l : list A) (acc : list B) :
  fold_left (fun panels i => if test i then panels ++ [item i] else panels) l acc
  = acc ++ map item (filter test l).
Proof.
  revert acc. induction l as [|i l IH]; intros acc; simpl.
  - now rewrite app_nil_r.
  - rewrite IH. destruct (test i); [|reflexivity].
    simpl. now rewrite <- app_assoc.
Qed.

Lemma slice_window (sides : list Side) (i : nat) :
  slice sides i (i + 6) = window sides i.
Proof. unfold slice, window. now replace (i + 6 - i)%nat with 6%nat by lia. Qed.

Lemma py_range_length (n : nat) :
  py_range (Z.of_nat n - 5) = seq 0 (n - 5).
Proof. unfold py_range. f_equal. lia. Qed.

Lemma find_panels_filter (sides : list Side) :
  find_panels sides =
  map (window sides)
      (filter (fun i => is_panel (window sides i)) (seq 0 (List.length sides - 5))).
Proof.
  unfold find_panels. rewrite py_range_length.
  rewrite (find_panels_loop (fun i => is_panel (slice sides i (i + 6)))
                            (fun i => slice sides i (i + 6))).
  simpl. rewrite (map_ext _ (window sides)) by apply slice_window.
  f_equal. apply filter_ext. intros i. now rewrite slice_window.
Qed.

(** The test of the loop, as a proposition. *)
Lemma is_panel_counts (group : list Side) :
  is_panel group = true <-> panel_counts group.
Proof.
  unfold is_panel, panel_counts.
  rewrite !andb_true_iff, !forallb_forall, !Forall_forall, !Nat.eqb_eq.
  rewrite (length_py_set point_eqb point_eqb_trans).
  rewrite (length_py_set surface_eqb surface_eqb_trans).
  setoid_rewrite Nat.eqb_eq. tauto.
Qed.

Lemma window_length (sides : list Side) (i : nat) :
  (i + 6 <= List.length sides)%nat -> List.length (window sides i) = 6%nat.
Proof.
  intros H. unfold window. rewrite length_firstn, length_skipn. lia.
Qed.

Lemma StronglySorted_filter {A : Type} (R : A -> A -> Prop) (f : A -> bool) (l : list A) :
  StronglySorted R l -> StronglySorted R (filter f l).
Proof.
  induction 1 as [|a l Hs IH Hall]; simpl; [constructor|].
  destruct (f a); [|assumption].
  constructor; [assumption|].
  rewrite Forall_forall in *. intros x Hx. apply filter_In in Hx. now apply Hall.
Qed.

Lemma StronglySorted_seq (start len : nat) : StronglySorted lt (seq start len).
Proof.
  revert start. induction len as [|len IH]; intros start; simpl; constructor.
  - apply IH.
  - rewrite Forall_forall. intros x Hx. apply in_seq in Hx. lia.
Qed.

(** ** Distinct values *)

(** On floats that are not NaN, [==] is the equality of the values. *)
Lemma float_value_feq (x y : float) :
  not_nan x = true -> not_nan y = true ->
  (feq x y = true <-> float_value x = float_value y).
Proof.
  intros Nx Ny. rewrite feq_spec, Nx, Ny. simpl. rewrite Z.eqb_eq. split.
  - intros E.
    destruct (SFkey_inj (Prim2SF x) (Prim2SF y)) as [Exy|(s & s' & Ex & Ey)];
      auto using Prim2SF_valid, not_nan_true; unfold float_value.
    + now rewrite Exy.
    + now rewrite Ex, Ey.
  - unfold float_value, fkey. intros E.
    destruct (Prim2SF x), (Prim2SF y); try discriminate E; try reflexivity;
      now inversion E.
Qed.

Lemma point_value_eqb (p q : list float) :
  forallb not_nan p = true -> forallb not_nan q = true ->
  (point_eqb p q = true <-> point_value p = point_value q).
Proof.
  unfold point_eqb, point_value. revert q.
  induction p as [|x p IH]; intros [|y q]; simpl; try easy.
  rewrite !andb_true_iff. intros [Nx Np] [Ny Nq].
  rewrite (float_value_feq x y Nx Ny), (IH q Np Nq).
  split; [intros [-> ->]; reflexivity|intros [= -> ->]; auto].
Qed.

Section DistinctValues.
Context {A V : Type} (eqb : A -> A -> bool) (value : A -> V).

Lemma set_mem_value (x : A) (seen : list A) :
  (forall y, In y seen -> (eqb y x = true <-> value y = value x)) ->
  (set_mem eqb x seen = true <-> In (value x) (map value seen)).
Proof.
  intros H. unfold set_mem. rewrite existsb_exists, in_map_iff.
  split; intros (y & H1 & H2).
  - exists y. split; [now apply H|assumption].
  - exists y. split; [assumption|now apply H].
Qed.

(** The first occurrences hold every value once. *)
Lemma first_occurrences_values (l seen : list A) :
  (forall x y, In x (seen ++ l) -> In y (seen ++ l) ->
               (eqb x y = true <-> value x = value y)) ->
  NoDup (map value (first_occurrences eqb seen l)) /\
  (forall v, In v (map value (first_occurrences eqb seen l)) ->
             In v (map value l) /\ ~ In v (map value seen)) /\
  (forall y, In y l -> ~ In (value y) (map value seen) ->
             In (value y) (map value (first_occurrences eqb seen l))).
Proof.
  revert seen. induction l as [|x l IH]; intros seen H.
  - simpl. split; [constructor|]. split; [intros v []|intros y []].
  - assert (Hseen : forall y, In y seen -> (eqb y x = true <-> value y = value x)).
    { intros y Hy. apply H; apply in_or_app; [now left|right; now left]. }
    pose proof (set_mem_value x seen Hseen) as Hmem.
    destruct (IH (seen ++ [x])) as (Hnd & Hin & Hall).
    { intros a b Ha Hb. rewrite <- app_assoc in Ha, Hb. now apply H. }
    assert (Hsnoc : forall v, In v (map value (seen ++ [x])) <->
                              In v (map value seen) \/ v = value x).
    { intros v. rewrite map_app, in_app_iff. simpl. intuition congruence. }
    simpl. destruct (set_mem eqb x seen) eqn:E.
    + assert (Hx : In (value x) (map value seen)) by now apply Hmem.
      split; [assumption|]. split.
      * intros v Hv. destruct (Hin v Hv) as [H1 H2]. rewrite Hsnoc in H2.
        split; [now right|tauto].
      * intros y [<-|Hy] Hn; [contradiction|].
        apply Hall; [assumption|]. rewrite Hsnoc.
        intros [H1|H1]; [contradiction|]. rewrite H1 in Hn. contradiction.
    + assert (Hx : ~ In (value x) (map value seen)).
      { intros Hx. apply Hmem in Hx. congruence. }
      split; [|split].
      * simpl. constructor; [|assumption].
        intros Hv. apply Hin in Hv. destruct Hv as [_ Hv]. apply Hv.
        rewrite Hsnoc. now right.
      * simpl. intros v [<-|Hv]; [split; [now left|assumption]|].
        destruct (Hin v Hv) as [H1 H2]. rewrite Hsnoc in H2. split; [now right|tauto].
      * simpl. intros y [<-|Hy] Hn; [now left|].
        destruct (eqb x y) eqn:Exy.
        -- left. apply H; [apply in_or_app; right; now left
                          |apply in_or_app; right; now right|assumption].
        -- right. apply Hall; [assumption|]. rewrite Hsnoc. intros [H1|H1]; [contradiction|].
           assert (eqb x y = true); [|congruence].
           apply H; [apply in_or_app; right; now left
                    |apply in_or_app; right; now right|now symmetry].
Qed.

(** Where [==] is the equality of the values, the set counts the values. *)
Lemma num_distinct_values (l : list A) (n : nat) :
  (forall x y, In x l -> In y l -> (eqb x y = true <-> value x = value y)) ->
  (num_distinct eqb l = n <-> distinct_values (fun x => In x l) value n).
Proof.
  intros H. destruct (first_occurrences_values l [] H) as (Hnd & Hin & Hall).
  assert (Hvals : forall v, In v (map value (first_occurrences eqb [] l)) <->
                            exists x, In x l /\ value x = v).
  { intros v. split.
    - intros Hv. apply Hin in Hv. destruct Hv as [Hv _].
      apply in_map_iff in Hv. destruct Hv as (x & <- & Hx). eauto.
    - intros (x & Hx & <-). apply Hall; [assumption|intros []]. }
  unfold num_distinct. split.
  - intros <-. exists (map value (first_occurrences eqb [] l)).
    split; [assumption|]. split; [apply length_map|assumption].
  - intros (vals & Hnd' & <- & Hvals').
    rewrite <- (length_map value). apply Nat.le_antisymm.
    + apply NoDup_incl_length; [assumption|].
      intros v Hv. apply Hvals'. now apply Hvals.
    + apply NoDup_incl_length; [assumption|].
      intros v Hv. apply Hvals. now apply Hvals'.
Qed.

Lemma distinct_values_ext (member member' : A -> Prop) (n : nat) :
  (forall x, member x <-> member' x) ->
  (distinct_values member value n <-> distinct_values member' value n).
Proof.
  intros H. unfold distinct_values.
  split; intros (vals & Hnd & Hlen & Hvals); exists vals;
    (split; [assumption|]); (split; [assumption|]); intros v; rewrite Hvals;
    split; intros (x & Hx & Hv); exists x; (split; [now apply H|assumption]).
Qed.
End DistinctValues.

Lemma point_of_all_points (group : list Side) (point : list float) :
  point_of group point <-> In point (all_points group).
Proof. unfold point_of, all_points. now rewrite in_flat_map. Qed.

Lemma face_of_all_surfaces (group : list Side) (face : list Z) :
  face_of group face <-> In face (all_surfaces group).
Proof. unfold face_of, all_surfaces. now rewrite in_flat_map. Qed.

Lemma no_nan_point (group : list Side) (point : list float) :
  no_nan group = true -> In point (all_points group) -> forallb not_nan point = true.
Proof.
  unfold no_nan. rewrite forallb_forall. intros H Hp.
  apply point_of_all_points in Hp. destruct Hp as (side & Hs & Hp).
  specialize (H side Hs). rewrite forallb_forall in H. now apply H.
Qed.

Lemma no_nan_window (sides : list Side) (i : nat) :
  no_nan sides = true -> no_nan (window sides i) = true.
Proof.
  unfold no_nan. rewrite !forallb_forall. intros H side Hs. apply H.
  unfold window in Hs.
  rewrite <- (firstn_skipn i sides). apply in_or_app. right.
  rewrite <- (firstn_skipn 6 (skipn i sides)). apply in_or_app. now left.
Qed.

(** On sides without NaN the test of the loop decides the box-topology
    invariant. *)
Lemma panel_counts_box_topology (group : list Side) :
  no_nan group = true -> (panel_counts group <-> box_topology group).
Proof.
  intros Hn. unfold panel_counts, box_topology.
  rewrite !Forall_forall.
  rewrite (num_distinct_values point_eqb point_value (all_points group) 8).
  2:{ intros p q Hp Hq. apply point_value_eqb; now apply (no_nan_point group). }
  rewrite (num_distinct_values surface_eqb (fun face => face) (all_surfaces group) 12).
  2:{ intros f g _ _. apply surface_eqb_eq. }
  rewrite <- (distinct_values_ext point_value (point_of group) _ 8
                (point_of_all_points group)).
  rewrite <- (distinct_values_ext (fun face => face) (face_of group) _ 12
                (face_of_all_surfaces group)).
  split.
  - intros (H4 & H2 & H8 & H12). repeat split; auto.
  - intros (H42 & H8 & H12). repeat split; try assumption; intros side Hs; now apply H42.
Qed.

(** C1.  On sides of which no coordinate is NaN, [find_panels] returns the
    windows of six consecutive sides [sides[i:i+6]], for the start indices
    [i] from [0] to [N - 6], that satisfy the box-topology invariant: the
    list of the start indices of the returned windows is strictly
    increasing, and a start index is in it if and only if the window fits
    in the sequence and satisfies the invariant (four points and two faces
    on every side, eight distinct point values and twelve distinct faces
    over the six sides). *)
Theorem find_panels_windows (sides : list Side) :
  no_nan sides = true ->
  exists starts : list nat,
    find_panels sides = map (window sides) starts /\
    StronglySorted lt starts /\
    forall i, In i starts <->
              (i + 6 <= List.length sides)%nat /\
              List.length (window sides i) = 6%nat /\
              box_topology (window sides i).
Proof.
  intros Hn.
  exists (filter (fun i => is_panel (window sides i)) (seq 0 (List.length sides - 5))).
  split; [apply find_panels_filter|]. split.
  - apply StronglySorted_filter, StronglySorted_seq.
  - intros i. rewrite filter_In, in_seq, is_panel_counts.
    rewrite (panel_counts_box_topology _ (no_nan_window sides i Hn)). split.
    + intros [Hi Hb]. split; [lia|]. split; [apply window_length; lia|assumption].
    + intros (Hi & _ & Hb). split; [lia|assumption].
Qed.

Lemma find_panels_windows_witness :
  exists starts : list nat,
    find_panels cube_sides = map (window cube_sides) starts /\
    StronglySorted lt starts /\
    forall i, In i starts <->
              (i + 6 <= List.length cube_sides)%nat /\
              List.length (window cube_sides i) = 6%nat /\
              box_topology (window cube_sides i).
Proof. apply (find_panels_windows cube_sides). vm_compute. reflexivity. Defined.

(** The points of the sides of [nan_file] take five values. *)
Lemma nan_sides_points (point : list float) :
  point_of (window nan_sides 0) point ->
  In point [[nan; 0; 0]; [0; 0; 0]; [2.5; 0; 0]; [2.5; 2.5; 0]; [0; 2.5; 0]]%float.
Proof.
  rewrite point_of_all_points. intros H. vm_compute in H.
  repeat (destruct H as [<-|H]; [simpl; tauto|]). destruct H.
Qed.

(** C1 as stated fails: the file [nan_file] is parsed into six sides with
    four points and two faces each, whose twenty-four points take five
    values, four of the points being [(nan, 0, 0)].  The set of the points
    has eight members, since a tuple that holds a NaN is equal to no tuple,
    and [find_panels] returns the window although it does not satisfy the
    invariant. *)
Lemma find_panels_counts_nan_apart :
  parse_side example_split example_float example_int nan_file = Ok nan_sides /\
  find_panels nan_sides = [window nan_sides 0] /\
  List.length (py_set point_eqb (all_points (window nan_sides 0))) = 8%nat /\
  (forall point,
     point_of (window nan_sides 0) point ->
     In point [[nan; 0; 0]; [0; 0; 0]; [2.5; 0; 0]; [2.5; 2.5; 0]; [0; 2.5; 0]]%float) /\
  ~ box_topology (window nan_sides 0).
Proof.
  split; [vm_compute; reflexivity|].
  split; [vm_compute; reflexivity|].
  split; [vm_compute; reflexivity|].
  split; [exact nan_sides_points|].
  intros (_ & (vals & Hnd & Hlen & Hvals) & _).
  assert (Hincl : incl vals (map point_value
            [[nan; 0; 0]; [0; 0; 0]; [2.5; 0; 0]; [2.5; 2.5; 0]; [0; 2.5; 0]]%float)).
  { intros v Hv. apply Hvals in Hv. destruct Hv as (p & Hp & <-).
    apply in_map. now apply nan_sides_points. }
  apply NoDup_incl_length in Hincl; [|assumption].
  rewrite Hlen in Hincl. simpl in Hincl. lia.
Qed.

(** ** Subtraction of finite floats *)

Lemma iter_pos_invariant {A : Type} (P : A -> Prop) (f : A -> A) :
  (forall a, P a -> P (f a)) -> forall n a, P a -> P (iter_pos f n a).
Proof.
  intros Hf. induction n as [n IH|n IH|]; intros a Ha; simpl; auto.
Qed.

Lemma shr_1_nonneg (mrs : shr_record) : 0 <= shr_m mrs -> 0 <= shr_m (shr_1 mrs).
Proof.
  destruct mrs as [m r s]. simpl. intros Hm.
  destruct m as [|[p|p|]|[p|p|]]; simpl; lia.
Qed.

Lemma shr_fexp_nonneg (m e : Z) (l : location) :
  0 <= m -> 0 <= shr_m (fst (shr_fexp prec emax m e l)).
Proof.
  intros Hm. unfold shr_fexp, shr.
  assert (H0 : 0 <= shr_m (shr_record_of_loc m l)) by (now destruct l as [|[]]).
  destruct (fexp prec emax (Zdigits2 m + e) - e); simpl; try assumption.
  now apply (iter_pos_invariant (fun r => 0 <= shr_m r)); [apply shr_1_nonneg|].
Qed.

Lemma round_nearest_even_nonneg (m : Z) (l : location) :
  0 <= m -> 0 <= round_nearest_even m l.
Proof.
  intros Hm. unfold round_nearest_even. destruct l as [|[]]; try lia.
  destruct (Z.even m); lia.
Qed.

(** Rounding a non-negative mantissa never gives NaN. *)
Lemma binary_round_aux_not_nan (s : bool) (m e : Z) (l : location) :
  0 <= m -> binary_round_aux prec emax s m e l <> S754_nan.
Proof.
  intros Hm. unfold binary_round_aux.
  pose proof (shr_fexp_nonneg m e l Hm) as H1.
  destruct (shr_fexp prec emax m e l) as [mrs' e']. simpl in H1.
  pose proof (shr_fexp_nonneg _ e' loc_Exact
                (round_nearest_even_nonneg _ (loc_of_shr_record mrs') H1)) as H2.
  destruct (shr_fexp prec emax (round_nearest_even (shr_m mrs') (loc_of_shr_record mrs'))
                     e' loc_Exact) as [mrs'' e'']. simpl in H2.
  destruct (shr_m mrs''); try discriminate; [|lia].
  now destruct (e'' <=? emax - prec).
Qed.

Lemma binary_normalize_not_nan (m e : Z) (sz : bool) :
  binary_normalize prec emax m e sz <> S754_nan.
Proof.
  unfold binary_normalize, binary_round.
  destruct m as [|p|p]; try discriminate.
  - destruct (shl_align p e _) as [mz ez]. apply binary_round_aux_not_nan. lia.
  - destruct (shl_align p e _) as [mz ez]. apply binary_round_aux_not_nan. lia.
Qed.

Lemma finite_cases (x : float) :
  finite x = true ->
  (exists s, Prim2SF x = S754_zero s) \/ (exists s m e, Prim2SF x = S754_finite s m e).
Proof. unfold finite. destruct (Prim2SF x); try discriminate; eauto. Qed.

Lemma finite_not_nan (x : float) : finite x = true -> not_nan x = true.
Proof. unfold finite, not_nan. now destruct (Prim2SF x). Qed.

(** The difference of two finite floats is a number (it may overflow to
    an infinity). *)
Lemma fsub_not_nan (x y : float) :
  finite x = true -> finite y = true -> not_nan (x - y)%float = true.
Proof.
  intros Fx Fy. unfold not_nan. rewrite sub_spec. unfold SF64sub.
  destruct (finite_cases x Fx) as [[sx Ex]|(sx & mx & ex & Ex)];
    destruct (finite_cases y Fy) as [[sy Ey]|(sy & my & ey & Ey)];
    rewrite Ex, Ey; simpl.
  - now destruct sx, sy.
  - reflexivity.
  - reflexivity.
  - match goal with |- match ?t with _ => _ end = true =>
      pose proof (binary_normalize_not_nan
        (cond_Zopp sx (Z.pos (fst (shl_align mx ex (Z.min ex ey)))) -
         cond_Zopp sy (Z.pos (fst (shl_align my ey (Z.min ex ey))))) (Z.min ex ey) false) as H
    end.
    unfold SFsub. 
    destruct (binary_normalize prec emax _ _ _); congruence.
Qed.

(** ** [min] and [max] *)

Lemma fle_key (x y : float) :
  not_nan x = true -> not_nan y = true -> (fle x y = true <-> fkey x <= fkey y).
Proof. intros Nx Ny. rewrite fle_spec, Nx, Ny. simpl. apply Z.leb_le. Qed.

Lemma flt_key (x y : float) :
  not_nan x = true -> not_nan y = true -> (flt x y = true <-> fkey x < fkey y).
Proof. intros Nx Ny. rewrite flt_spec, Nx, Ny. simpl. apply Z.ltb_lt. Qed.

Lemma py_min_in (c : float) (cs : list float) : In (py_min c cs) (c :: cs).
Proof.
  revert c. induction cs as [|a cs IH]; intros c; [now left|].
  unfold py_min. simpl. fold (py_min (if flt a c then a else c) cs).
  destruct (IH (if flt a c then a else c)) as [H|H].
  - rewrite <- H. destruct (flt a c); simpl; auto.
  - simpl. auto.
Qed.

Lemma py_max_in (c : float) (cs : list float) : In (py_max c cs) (c :: cs).
Proof.
  revert c. induction cs as [|a cs IH]; intros c; [now left|].
  unfold py_max. simpl. fold (py_max (if fgt a c then a else c) cs).
  destruct (IH (if fgt a c then a else c)) as [H|H].
  - rewrite <- H. destruct (fgt a c); simpl; auto.
  - simpl. auto.
Qed.

Lemma py_min_key (c : float) (cs : list float) :
  Forall (fun x => not_nan x = true) (c :: cs) ->
  forall y, In y (c :: cs) -> fkey (py_min c cs) <= fkey y.
Proof.
  revert c. induction cs as [|a cs IH]; intros c Hn y Hy.
  - destruct Hy as [<-|[]]. simpl. lia.
  - unfold py_min. simpl. fold (py_min (if flt a c then a else c) cs).
    inversion Hn as [|? ? Nc Hn']; subst. inversion Hn' as [|? ? Na Hcs]; subst.
    set (b := if flt a c then a else c).
    assert (Nb : not_nan b = true) by (unfold b; now destruct (flt a c)).
    assert (Hb : fkey b <= fkey c /\ fkey b <= fkey a).
    { unfold b. destruct (flt a c) eqn:E.
      - apply flt_key in E; auto. lia.
      - rewrite flt_spec, Na, Nc in E. simpl in E. apply Z.ltb_ge in E. lia. }
    assert (IHb : forall z, In z (b :: cs) -> fkey (py_min b cs) <= fkey z)
      by (apply IH; now constructor).
    pose proof (IHb b (or_introl eq_refl)).
    destruct Hy as [<-|[<-|Hy]]; [lia|lia|]. apply IHb. now right.
Qed.

Lemma py_max_key (c : float) (cs : list float) :
  Forall (fun x => not_nan x = true) (c :: cs) ->
  forall y, In y (c :: cs) -> fkey y <= fkey (py_max c cs).
Proof.
  revert c. induction cs as [|a cs IH]; intros c Hn y Hy.
  - destruct Hy as [<-|[]]. simpl. lia.
  - unfold py_max. simpl. fold (py_max (if fgt a c then a else c) cs).
    inversion Hn as [|? ? Nc Hn']; subst. inversion Hn' as [|? ? Na Hcs]; subst.
    set (b := if fgt a c then a else c).
    assert (Nb : not_nan b = true) by (unfold b; now destruct (fgt a c)).
    assert (Hb : fkey c <= fkey b /\ fkey a <= fkey b).
    { unfold b. destruct (fgt a c) eqn:E.
      - rewrite fgt_spec, Na, Nc in E. simpl in E. apply Z.ltb_lt in E. lia.
      - rewrite fgt_spec, Na, Nc in E. simpl in E. apply Z.ltb_ge in E. lia. }
    assert (IHb : forall z, In z (b :: cs) -> fkey z <= fkey (py_max b cs))
      by (apply IH; now constructor).
    pose proof (IHb b (or_introl eq_refl)).
    destruct Hy as [<-|[<-|Hy]]; [lia|lia|]. apply IHb. now right.
Qed.

(** ** [sorted] *)

Section SortedFacts.
Context {A : Type} (lt : A -> A -> bool) (dom : A -> Prop).

(** On the items of [dom], [<] is a strict weak order. *)
Hypothesis lt_asym : forall x y, dom x -> dom y -> lt x y = true -> lt y x = false.
Hypothesis lt_negtrans : forall x y z, dom x -> dom y -> dom z ->
  lt x y = false -> lt y z = false -> lt x z = false.

(** [a] comes before [b] in a sorted list when [b] is not less than [a]. *)
Definition ascending (a b : A) : Prop := lt b a = false.

(** Neither is less than the other. *)
Definition tie (x y : A) : bool := negb (lt x y) && negb (lt y x).

Lemma insert_sorted_perm (x : A) (l : list A) : Permutation (x :: l) (insert_sorted lt x l).
Proof.
  induction l as [|y l IH]; simpl; [reflexivity|].
  destruct (lt y x); [|reflexivity].
  rewrite perm_swap. now apply perm_skip.
Qed.

Lemma py_sorted_perm (l : list A) : Permutation l (py_sorted lt l).
Proof.
  induction l as [|x l IH]; simpl; [reflexivity|].
  rewrite <- insert_sorted_perm. now apply perm_skip.
Qed.

Lemma py_sorted_length (l : list A) : List.length (py_sorted lt l) = List.length l.
Proof. symmetry. apply Permutation_length, py_sorted_perm. Qed.

Lemma insert_sorted_ascending (x : A) (l : list A) :
  dom x -> Forall dom l ->
  StronglySorted ascending l -> StronglySorted ascending (insert_sorted lt x l).
Proof.
  intros Dx Dl Hs. induction Hs as [|y l Hs IH Hy]; simpl.
  - constructor; constructor.
  - inversion Dl as [|? ? Dy Dl']; subst.
    destruct (lt y x) eqn:E.
    + constructor; [now apply IH|].
      rewrite Forall_forall in *. intros z Hz.
      apply (Permutation_in z (Permutation_sym (insert_sorted_perm x l))) in Hz.
      destruct Hz as [<-|Hz]; [|now apply Hy].
      unfold ascending. now apply lt_asym.
    + constructor; [now constructor|].
      constructor; [exact E|].
      rewrite Forall_forall in *. intros z Hz.
      unfold ascending in *. apply (lt_negtrans z y x); auto.
Qed.

Lemma py_sorted_ascending (l : list A) :
  Forall dom l -> StronglySorted ascending (py_sorted lt l).
Proof.
  induction 1 as [|x l Dx Dl IH]; simpl; [constructor|].
  apply insert_sorted_ascending; auto.
  rewrite Forall_forall in *. intros z Hz. apply Dl.
  now apply (Permutation_in z (Permutation_sym (py_sorted_perm l))).
Qed.

Lemma tie_trans_lt (x a y : A) :
  dom x -> dom a -> dom y -> tie x a = true -> lt y a = true -> tie x y = false.
Proof.
  intros Dx Da Dy Hxa Hya. unfold tie in *.
  apply andb_true_iff in Hxa. destruct Hxa as [H1 H2].
  apply negb_true_iff in H1, H2.
  destruct (lt x y) eqn:E1; [reflexivity|].
  destruct (lt y x) eqn:E2; [reflexivity|].
  assert (lt y a = false) by (apply (lt_negtrans y x a); auto).
  congruence.
Qed.

(** The sort is stable: the items tied with [x] keep their order. *)
Lemma insert_sorted_stable (x a : A) (l : list A) :
  dom x -> dom a -> Forall dom l ->
  filter (tie x) (insert_sorted lt a l) = filter (tie x) (a :: l).
Proof.
  intros Dx Da Dl. induction Dl as [|y l Dy Dl IH]; [reflexivity|].
  cbn [insert_sorted]. destruct (lt y a) eqn:E; [|reflexivity].
  cbn [filter]. rewrite IH. cbn [filter].
  destruct (tie x a) eqn:Ta; [|reflexivity].
  now rewrite (tie_trans_lt x a y).
Qed.

Lemma py_sorted_stable (x : A) (l : list A) :
  dom x -> Forall dom l -> filter (tie x) (py_sorted lt l) = filter (tie x) l.
Proof.
  intros Dx Dl. induction Dl as [|a l Da Dl IH]; [reflexivity|].
  cbn [py_sorted fold_right]. fold (py_sorted lt l).
  rewrite insert_sorted_stable; auto.
  - cbn [filter]. now rewrite IH.
  - rewrite Forall_forall in *. intros z Hz. apply Dl.
    now apply (Permutation_in z (Permutation_sym (py_sorted_perm l))).
Qed.

Lemma py_sorted_reverse_perm (l : list A) : Permutation l (py_sorted_reverse lt l).
Proof.
  unfold py_sorted_reverse. rewrite <- Permutation_rev, <- py_sorted_perm.
  apply Permutation_rev.
Qed.

Lemma filter_rev (f : A -> bool) (l : list A) : filter f (rev l) = rev (filter f l).
Proof.
  induction l as [|a l IH]; [reflexivity|].
  simpl. rewrite filter_app, IH. simpl. destruct (f a); simpl; [reflexivity|].
  now rewrite app_nil_r.
Qed.

Lemma py_sorted_reverse_stable (x : A) (l : list A) :
  dom x -> Forall dom l -> filter (tie x) (py_sorted_reverse lt l) = filter (tie x) l.
Proof.
  intros Dx Dl. unfold py_sorted_reverse.
  rewrite filter_rev, py_sorted_stable, filter_rev, rev_involutive; auto.
  now apply Forall_rev.
Qed.

Lemma StronglySorted_app (R : A -> A -> Prop) (l1 l2 : list A) :
  StronglySorted R l1 -> StronglySorted R l2 ->
  (forall x y, In x l1 -> In y l2 -> R x y) ->
  StronglySorted R (l1 ++ l2).
Proof.
  intros H1 H2 H12. induction H1 as [|a l1 Hs IH Ha]; simpl; [assumption|].
  constructor.
  - apply IH. intros x y Hx Hy. apply H12; [now right|assumption].
  - apply Forall_app. split; [assumption|].
    rewrite Forall_forall. intros y Hy. apply H12; [now left|assumption].
Qed.

Lemma StronglySorted_rev (R : A -> A -> Prop) (l : list A) :
  StronglySorted R l -> StronglySorted (fun a b => R b a) (rev l).
Proof.
  induction 1 as [|a l Hs IH Ha]; simpl; [constructor|].
  apply StronglySorted_app; [assumption|constructor; constructor|].
  intros x y Hx [<-|[]]. rewrite Forall_forall in Ha. apply Ha. now apply in_rev.
Qed.

(** The reversed sort is descending: no item is less than a later one. *)
Lemma py_sorted_reverse_descending (l : list A) :
  Forall dom l ->
  StronglySorted (fun a b => lt a b = false) (py_sorted_reverse lt l).
Proof.
  intros Dl. unfold py_sorted_reverse.
  apply (StronglySorted_rev ascending). apply py_sorted_ascending.
  now apply Forall_rev.
Qed.
End SortedFacts.

(** ** [calculate_panel_properties] *)

Lemma axis_spec (i : nat) (pts : list (list float)) :
  axis i pts =
  if forallb (fun point => Nat.ltb i (List.length point)) pts
  then Ok (coordinates i pts) else Raise IndexError.
Proof.
  unfold axis. induction pts as [|p pts IH]; [reflexivity|].
  cbn [map_raise forallb coordinates map].
  destruct (Nat.ltb i (List.length p)) eqn:E.
  - apply Nat.ltb_lt in E.
    destruct (nth_error p i) as [c|] eqn:En.
    + rewrite IH. unfold coordinate at 1. rewrite (nth_error_nth p i _ En).
      cbn [andb]. now destruct (forallb _ pts).
    + apply nth_error_None in En. lia.
  - apply Nat.ltb_ge in E. apply nth_error_None in E. now rewrite E.
Qed.

Definition has_axis (i : nat) (pts : list (list float)) : bool :=
  forallb (fun point => Nat.ltb i (List.length point)) pts.

Lemma min_axis_spec (i : nat) (p : list float) (pts : list (list float)) :
  min_axis i (p :: pts) =
  if has_axis i (p :: pts)
  then Ok (py_min (coordinate i p) (coordinates i pts)) else Raise IndexError.
Proof.
  unfold min_axis. rewrite axis_spec. fold (has_axis i (p :: pts)).
  now destruct (has_axis i (p :: pts)).
Qed.

Lemma max_axis_spec (i : nat) (p : list float) (pts : list (list float)) :
  max_axis i (p :: pts) =
  if has_axis i (p :: pts)
  then Ok (py_max (coordinate i p) (coordinates i pts)) else Raise IndexError.
Proof.
  unfold max_axis. rewrite axis_spec. fold (has_axis i (p :: pts)).
  now destruct (has_axis i (p :: pts)).
Qed.

Lemma has_axis_le (i j : nat) (pts : list (list float)) :
  (i <= j)%nat -> has_axis j pts = true -> has_axis i pts = true.
Proof.
  unfold has_axis. rewrite !forallb_forall. intros Hij H p Hp.
  specialize (H p Hp). apply Nat.ltb_lt in H. apply Nat.ltb_lt. lia.
Qed.

Lemma has_axis_three (pts : list (list float)) :
  has_axis 2 pts = true <-> three_coordinates pts.
Proof.
  unfold has_axis, three_coordinates. rewrite forallb_forall, Forall_forall.
  split; intros H p Hp; specialize (H p Hp); [apply Nat.ltb_lt in H|apply Nat.ltb_lt]; lia.
Qed.

Lemma py_sorted_three {A : Type} (lt : A -> A -> bool) (a b c : A) :
  exists d0 d1 d2, py_sorted lt [a; b; c] = [d0; d1; d2].
Proof.
  pose proof (py_sorted_length lt [a; b; c]) as H.
  destruct (py_sorted lt [a; b; c]) as [|d0 [|d1 [|d2 [|d3 l]]]]; try discriminate.
  eauto.
Qed.

(** The three extents, as the calculator computes them from the points. *)
Definition extents (p : list float) (pts : list (list float)) : list float :=
  [py_max (coordinate 0 p) (coordinates 0 pts) - py_min (coordinate 0 p) (coordinates 0 pts);
   py_max (coordinate 1 p) (coordinates 1 pts) - py_min (coordinate 1 p) (coordinates 1 pts);
   py_max (coordinate 2 p) (coordinates 2 pts) - py_min (coordinate 2 p) (coordinates 2 pts)]%float.

(** What the calculator does on a panel: it raises [ValueError] when the
    panel has no point, [IndexError] when a point has fewer than three
    coordinates, and returns the minima and the rounded sorted extents
    otherwise. *)
Lemma calculate_no_point (panel : list Side) :
  all_points panel = [] -> calculate_panel_properties panel = Raise ValueError.
Proof. unfold calculate_panel_properties. now intros ->. Qed.

Lemma calculate_short_point (panel : list Side) :
  all_points panel <> [] -> ~ three_coordinates (all_points panel) ->
  calculate_panel_properties panel = Raise IndexError.
Proof.
  intros Hne H3. unfold calculate_panel_properties.
  destruct (all_points panel) as [|p pts]; [now elim Hne|].
  rewrite <- has_axis_three in H3. apply not_true_is_false in H3.
  rewrite !min_axis_spec, H3.
  destruct (has_axis 0 (p :: pts)); [|reflexivity]. cbn [bind].
  destruct (has_axis 1 (p :: pts)); reflexivity.
Qed.

Lemma calculate_three_coordinates (panel : list Side) (p : list float) (pts : list (list float)) :
  all_points panel = p :: pts -> three_coordinates (p :: pts) ->
  exists d0 d1 d2,
    py_sorted flt (extents p pts) = [d0; d1; d2] /\
    calculate_panel_properties panel =
    Ok ((py_min (coordinate 0 p) (coordinates 0 pts),
         py_min (coordinate 1 p) (coordinates 1 pts),
         py_min (coordinate 2 p) (coordinates 2 pts)),
        py_round1 d2, py_round1 d1, py_round1 d0).
Proof.
  intros Hpts H3. unfold calculate_panel_properties. rewrite Hpts.
  apply has_axis_three in H3.
  rewrite !min_axis_spec, !max_axis_spec, H3.
  rewrite (has_axis_le 0 2), (has_axis_le 1 2) by (auto; lia).
  cbn [bind]. fold (extents p pts).
  destruct (py_sorted_three flt
              (py_max (coordinate 0 p) (coordinates 0 pts) - py_min (coordinate 0 p) (coordinates 0 pts))%float
              (py_max (coordinate 1 p) (coordinates 1 pts) - py_min (coordinate 1 p) (coordinates 1 pts))%float
              (py_max (coordinate 2 p) (coordinates 2 pts) - py_min (coordinate 2 p) (coordinates 2 pts))%float)
    as (d0 & d1 & d2 & E).
  exists d0, d1, d2. fold (extents p pts) in E. rewrite E. auto.
Qed.

(** ** Detected panels *)

Lemma find_panels_In (sides panel : list Side) :
  In panel (find_panels sides) ->
  exists i, panel = window sides i /\ (i + 6 <= List.length sides)%nat /\ panel_counts panel.
Proof.
  rewrite find_panels_filter, in_map_iff. intros (i & <- & Hi).
  apply filter_In in Hi. destruct Hi as [Hi Hp]. apply in_seq in Hi.
  exists i. split; [reflexivity|]. split; [lia|]. now apply is_panel_counts.
Qed.

Lemma all_points_length (group : list Side) :
  Forall (fun side => List.length (points side) = 4%nat) group ->
  List.length (all_points group) = (4 * List.length group)%nat.
Proof.
  unfold all_points. induction 1 as [|s group Hs Hg IH]; [reflexivity|].
  simpl flat_map. rewrite length_app, IH, Hs. simpl List.length. lia.
Qed.

Lemma detected_panel_points (sides panel : list Side) :
  In panel (find_panels sides) -> List.length (all_points panel) = 24%nat.
Proof.
  intros H. apply find_panels_In in H. destruct H as (i & -> & Hi & Hbox & _).
  rewrite (all_points_length _ Hbox), (window_length sides i Hi). reflexivity.
Qed.

Lemma detected_panel_points_calculable (sides panel : list Side) :
  In panel (find_panels sides) ->
  (three_coordinates (all_points panel) -> calculable panel) /\
  (~ three_coordinates (all_points panel) ->
   calculate_panel_properties panel = Raise IndexError).
Proof.
  intros H. pose proof (detected_panel_points sides panel H) as Hlen.
  assert (Hne : all_points panel <> []) by (intros E; now rewrite E in Hlen).
  split.
  - intros H3. destruct (all_points panel) as [|p pts] eqn:E; [now elim Hne|].
    destruct (calculate_three_coordinates panel p pts E H3) as (d0 & d1 & d2 & _ & Hc).
    unfold calculable. eauto.
  - now apply calculate_short_point.
Qed.

(** C10 (amended).  A panel returned by [find_panels] has 24 points, so the
    calculator never takes [min] or [max] of an empty sequence; it returns
    a result when every point of the panel has at least three coordinates,
    and raises [IndexError] otherwise. *)
Theorem detected_panel_calculate (sides panel : list Side) :
  In panel (find_panels sides) ->
  List.length (all_points panel) = 24%nat /\
  calculate_panel_properties panel <> Raise ValueError /\
  (three_coordinates (all_points panel) ->
   exists r, calculate_panel_properties panel = Ok r) /\
  (~ three_coordinates (all_points panel) ->
   calculate_panel_properties panel = Raise IndexError).
Proof.
  intros H. pose proof (detected_panel_points sides panel H) as Hlen.
  assert (Hne : all_points panel <> []) by (intros E; now rewrite E in Hlen).
  split; [exact Hlen|].
  assert (H3 : three_coordinates (all_points panel) ->
               exists r, calculate_panel_properties panel = Ok r).
  { intros H3. destruct (all_points panel) as [|p pts] eqn:E; [now elim Hne|].
    destruct (calculate_three_coordinates panel p pts E H3) as (d0 & d1 & d2 & _ & Hc).
    eauto. }
  assert (H2 : ~ three_coordinates (all_points panel) ->
               calculate_panel_properties panel = Raise IndexError)
    by (now apply calculate_short_point).
  split; [|split; assumption].
  destruct (has_axis 2 (all_points panel)) eqn:E.
  - apply has_axis_three in E. destruct (H3 E) as [r ->]. discriminate.
  - rewrite H2; [discriminate|]. rewrite <- has_axis_three. congruence.
Qed.

Lemma detected_panel_calculate_witness :
  List.length (all_points cube_panel) = 24%nat /\
  calculate_panel_properties cube_panel <> Raise ValueError /\
  (three_coordinates (all_points cube_panel) ->
   exists r, calculate_panel_properties cube_panel = Ok r) /\
  (~ three_coordinates (all_points cube_panel) ->
   calculate_panel_properties cube_panel = Raise IndexError).
Proof.
  apply (detected_panel_calculate cube_sides cube_panel).
  vm_compute. left. reflexivity.
Defined.

(** C10 as stated fails: a file whose [v] lines give two coordinates is
    parsed, its six sides are detected as a panel, and the calculator
    raises [IndexError] on that panel. *)
Lemma detected_panel_not_total :
  parse_example flat_file = Ok flat_sides /\
  find_panels flat_sides = [flat_panel] /\
  calculate_panel_properties flat_panel = Raise IndexError.
Proof.
  split; [vm_compute; reflexivity|].
  split; vm_compute; reflexivity.
Qed.

(** ** [round(x, 1)] is monotone *)

Lemma div_half_even_bounds (a b : Z) :
  0 < b -> a / b <= div_half_even a b <= a / b + 1.
Proof.
  intros Hb. unfold div_half_even.
  destruct (2 * (a mod b) ?= b); [destruct (Z.even (a / b))| |]; lia.
Qed.

Lemma div_half_even_mono (a a' b : Z) :
  0 < b -> a <= a' -> div_half_even a b <= div_half_even a' b.
Proof.
  intros Hb Ha.
  assert (Hq : a / b <= a' / b) by (apply Z.div_le_mono; lia).
  destruct (Z.eq_dec (a / b) (a' / b)) as [E|E].
  - pose proof (Z.div_mod a b ltac:(lia)) as Da.
    pose proof (Z.div_mod a' b ltac:(lia)) as Da'.
    assert (Hr : a mod b <= a' mod b) by (rewrite E in Da; nia).
    unfold div_half_even. rewrite <- E.
    destruct (Z.compare_spec (2 * (a mod b)) b);
      destruct (Z.compare_spec (2 * (a' mod b)) b);
      destruct (Z.even (a / b)); lia.
  - pose proof (div_half_even_bounds a b Hb).
    pose proof (div_half_even_bounds a' b Hb). lia.
Qed.

Lemma div_half_even_ge (a b c : Z) :
  0 < b -> c * b <= a -> c <= div_half_even a b.
Proof.
  intros Hb H. pose proof (div_half_even_bounds a b Hb).
  assert (c <= a / b) by (apply Z.div_le_lower_bound; lia). lia.
Qed.

Lemma div_half_even_le (a b c : Z) :
  0 < b -> a <= c * b -> div_half_even a b <= c.
Proof.
  intros Hb H.
  assert (Hq : a / b <= c) by (apply Z.div_le_upper_bound; lia).
  destruct (Z.eq_dec (a / b) c) as [E|E].
  - pose proof (Z.div_mod a b ltac:(lia)) as Da.
    pose proof (Z.mod_pos_bound a b Hb) as Hr.
    assert (a mod b = 0) by nia.
    unfold div_half_even. rewrite H0.
    replace (2 * 0 ?= b) with Lt by (symmetry; apply Z.compare_lt_iff; lia). lia.
  - pose proof (div_half_even_bounds a b Hb). lia.
Qed.

Lemma tenths_of_units_mono (u u' : Z) :
  u <= u' -> tenths_of_units u <= tenths_of_units u'.
Proof.
  intros H. unfold tenths_of_units. apply div_half_even_mono; [|lia].
  apply Z.pow_pos_nonneg; lia.
Qed.

Lemma tenths_of_units_nonneg (u : Z) : 0 <= u -> 0 <= tenths_of_units u.
Proof.
  intros H. unfold tenths_of_units.
  apply div_half_even_ge; [apply Z.pow_pos_nonneg; lia|lia].
Qed.

(** The shift of [units_of_tenths]: by how many bits the integral part of
    [k / 10], in units, exceeds 53 bits. *)
Definition tenths_shift (k : Z) : Z := Z.log2 (k * 2 ^ 1074 / 10) + 1 - 53.

Lemma tenths_shift_mono (k k' : Z) :
  0 <= k <= k' -> tenths_shift k <= tenths_shift k'.
Proof.
  intros H. unfold tenths_shift.
  assert (0 < 2 ^ 1074) by (apply Z.pow_pos_nonneg; lia).
  assert (k * 2 ^ 1074 / 10 <= k' * 2 ^ 1074 / 10) by (apply Z.div_le_mono; nia).
  pose proof (Z.log2_le_mono _ _ H1). lia.
Qed.

(** Without a shift the result is at most [2^53]; with a shift [sh] it is
    [r * 2^sh] for a mantissa [r] between [2^52] and [2^53]. *)
Lemma units_of_tenths_small (k : Z) :
  0 <= k -> tenths_shift k <= 0 ->
  units_of_tenths k = div_half_even (k * 2 ^ 1074) 10 /\
  0 <= units_of_tenths k <= 2 ^ 53.
Proof.
  intros Hk Hs. unfold units_of_tenths. fold (tenths_shift k).
  replace (tenths_shift k <=? 0) with true by (symmetry; apply Z.leb_le; lia).
  split; [reflexivity|].
  assert (H0 : 0 < 2 ^ 1074) by (apply Z.pow_pos_nonneg; lia).
  set (t := k * 2 ^ 1074) in *.
  assert (Ht : 0 <= t) by (unfold t; nia).
  pose proof (div_half_even_bounds t 10 ltac:(lia)) as Hb.
  assert (Hq : 0 <= t / 10) by (apply Z.div_pos; lia).
  assert (t / 10 < 2 ^ 53).
  { destruct (Z.eq_dec (t / 10) 0) as [E|E]; [rewrite E; apply Z.pow_pos_nonneg; lia|].
    apply Z.log2_lt_pow2; [lia|]. unfold tenths_shift in Hs. fold t in Hs. lia. }
  lia.
Qed.

Lemma units_of_tenths_large (k : Z) :
  0 <= k -> 0 < tenths_shift k ->
  exists r, units_of_tenths k = r * 2 ^ tenths_shift k /\
            r = div_half_even (k * 2 ^ 1074) (10 * 2 ^ tenths_shift k) /\
            2 ^ 52 <= r <= 2 ^ 53.
Proof.
  intros Hk Hs. unfold units_of_tenths. fold (tenths_shift k).
  replace (tenths_shift k <=? 0) with false by (symmetry; apply Z.leb_gt; lia).
  eexists. split; [reflexivity|]. split; [reflexivity|].
  set (sh := tenths_shift k) in *.
  set (t := k * 2 ^ 1074) in *.
  assert (Hp : 0 < 2 ^ sh) by (apply Z.pow_pos_nonneg; lia).
  assert (Hq : 0 < t / 10).
  { destruct (Z_lt_le_dec 0 (t / 10)) as [Hpos|Hneg]; [assumption|].
    unfold sh, tenths_shift in Hs. fold t in Hs.
    rewrite (Z.log2_nonpos _ Hneg) in Hs. lia. }
  pose proof (Z.log2_spec (t / 10) Hq) as [Hlo Hhi].
  assert (El : Z.log2 (t / 10) = 52 + sh) by (unfold sh, tenths_shift; fold t; lia).
  rewrite El in Hlo. replace (Z.succ (Z.log2 (t / 10))) with (53 + sh) in Hhi by lia.
  rewrite Z.pow_add_r in Hlo, Hhi by lia.
  pose proof (Z.div_mod t 10 ltac:(lia)) as Dt.
  pose proof (Z.mod_pos_bound t 10 ltac:(lia)) as Hr.
  split.
  - apply div_half_even_ge; [lia|]. nia.
  - apply div_half_even_le; [lia|]. nia.
Qed.

Lemma units_of_tenths_nonneg (k : Z) : 0 <= k -> 0 <= units_of_tenths k.
Proof.
  intros Hk. destruct (Z_le_gt_dec (tenths_shift k) 0) as [Hs|Hs].
  - now apply units_of_tenths_small.
  - destruct (units_of_tenths_large k Hk ltac:(lia)) as (r & -> & _ & Hr).
    assert (0 < 2 ^ tenths_shift k) by (apply Z.pow_pos_nonneg; lia).
    assert (0 < 2 ^ 52) by (apply Z.pow_pos_nonneg; lia). nia.
Qed.

Lemma units_of_tenths_mono (k k' : Z) :
  0 <= k <= k' -> units_of_tenths k <= units_of_tenths k'.
Proof.
  intros H. pose proof (tenths_shift_mono k k' H) as Hsh.
  assert (H0 : 0 < 2 ^ 1074) by (apply Z.pow_pos_nonneg; lia).
  destruct (Z_le_gt_dec (tenths_shift k') 0) as [Hs'|Hs'].
  - destruct (units_of_tenths_small k ltac:(lia) ltac:(lia)) as [-> _].
    destruct (units_of_tenths_small k' ltac:(lia) Hs') as [-> _].
    apply div_half_even_mono; nia.
  - destruct (units_of_tenths_large k' ltac:(lia) ltac:(lia)) as (r' & E' & Er' & Hr').
    assert (Hp' : 0 < 2 ^ tenths_shift k') by (apply Z.pow_pos_nonneg; lia).
    destruct (Z_le_gt_dec (tenths_shift k) 0) as [Hs|Hs].
    + destruct (units_of_tenths_small k ltac:(lia) Hs) as [_ Hb]. rewrite E'.
      assert (2 ^ 53 <= 2 ^ 52 * 2 ^ tenths_shift k').
      { rewrite <- Z.pow_add_r by lia. apply Z.pow_le_mono_r; lia. }
      nia.
    + destruct (units_of_tenths_large k ltac:(lia) ltac:(lia)) as (r & E & Er & Hr).
      rewrite E, E'.
      destruct (Z.eq_dec (tenths_shift k) (tenths_shift k')) as [Es|Es].
      * rewrite Es in *. apply Z.mul_le_mono_nonneg_r; [lia|].
        rewrite Er, Er'. apply div_half_even_mono; nia.
      * assert (2 ^ 53 * 2 ^ tenths_shift k <= 2 ^ 52 * 2 ^ tenths_shift k').
        { rewrite <- !Z.pow_add_r by lia. apply Z.pow_le_mono_r; lia. }
        assert (0 < 2 ^ tenths_shift k) by (apply Z.pow_pos_nonneg; lia).
        nia.
Qed.

(** A number of units that a float can hold: a mantissa of at most 53
    bits, scaled by a power of two. *)
Definition scaled (u : Z) : Prop :=
  exists r j, 0 <= j /\ 0 <= r <= 2 ^ 53 /\ u = r * 2 ^ j.

(** Beyond the largest float the result is an infinity. *)
Definition cap (u : Z) : Z := if 2 ^ 2098 <=? u then 2 ^ 2100 else u.

Lemma units_of_tenths_scaled (k : Z) : 0 <= k -> scaled (units_of_tenths k).
Proof.
  intros Hk. destruct (Z_le_gt_dec (tenths_shift k) 0) as [Hs|Hs].
  - destruct (units_of_tenths_small k Hk Hs) as [_ Hb].
    exists (units_of_tenths k), 0. rewrite Z.pow_0_r. repeat split; lia.
  - destruct (units_of_tenths_large k Hk ltac:(lia)) as (r & E & _ & Hr).
    exists r, (tenths_shift k). repeat split; lia.
Qed.

Lemma scaled_shift (u : Z) :
  0 < u -> scaled u ->
  u = u / 2 ^ Z.max 0 (Z.log2 u + 1 - 53) * 2 ^ Z.max 0 (Z.log2 u + 1 - 53).
Proof.
  intros Hu (r & j & Hj & Hr & E).
  set (sh := Z.max 0 (Z.log2 u + 1 - 53)).
  assert (Hsh : 0 <= sh) by (unfold sh; lia).
  assert (Hp : 0 < 2 ^ sh) by (apply Z.pow_pos_nonneg; lia).
  assert (Hpj : 0 < 2 ^ j) by (apply Z.pow_pos_nonneg; lia).
  assert (Hc : exists c, u = c * 2 ^ sh).
  { destruct (Z_le_gt_dec sh j) as [Hle|Hgt].
    - exists (r * 2 ^ (j - sh)). rewrite <- Z.mul_assoc, <- Z.pow_add_r by lia.
      now replace (j - sh + sh) with j by lia.
    - assert (Hlog : Z.log2 u <= 53 + j).
      { rewrite <- (Z.log2_pow2 (53 + j)) by lia. apply Z.log2_le_mono.
        rewrite E, Z.pow_add_r by lia. nia. }
      assert (Es : sh = j + 1) by (unfold sh in *; lia).
      assert (Hlog' : Z.log2 u = 53 + j) by (unfold sh in *; lia).
      pose proof (Z.log2_spec u Hu) as [Hlo _]. rewrite Hlog', Z.pow_add_r in Hlo by lia.
      assert (r = 2 ^ 53) by nia.
      exists (2 ^ 52). rewrite E, H, Es.
      rewrite <- !Z.pow_add_r by lia. f_equal. lia. }
  destruct Hc as [c Ec]. rewrite Ec at 2. now rewrite Z.div_mul by lia.
Qed.

Lemma digits2_pos_log2 (m : positive) : Z.pos (digits2_pos m) = Z.log2 (Z.pos m) + 1.
Proof.
  pose proof (digits2_pos_bounds m) as H.
  rewrite (Z.log2_unique (Z.pos m) (Z.pos (digits2_pos m) - 1)); [lia|lia|].
  now replace (Z.succ (Z.pos (digits2_pos m) - 1)) with (Z.pos (digits2_pos m)) by lia.
Qed.

Lemma float_of_units_finite (s : bool) (u : Z) :
  0 < u < 2 ^ 2098 ->
  exists m e,
    float_of_units s u = S754_finite s m e /\
    valid_binary (S754_finite s m e) = true /\
    units m e = u / 2 ^ Z.max 0 (Z.log2 u + 1 - 53) * 2 ^ Z.max 0 (Z.log2 u + 1 - 53).
Proof.
  intros [Hu Hb]. unfold float_of_units.
  destruct u as [|p|p]; try lia.
  replace (2 ^ 2098 <=? Z.pos p) with false by (symmetry; apply Z.leb_gt; lia).
  set (u := Z.pos p) in *.
  set (sh := Z.max 0 (Z.log2 u + 1 - 53)).
  assert (Hsh : 0 <= sh) by (unfold sh; lia).
  assert (Hlog : 0 <= Z.log2 u) by apply Z.log2_nonneg.
  assert (Hshl : sh <= Z.log2 u) by (unfold sh; lia).
  pose proof (Z.log2_spec u Hu) as [Hlo Hhi].
  assert (Hq : 0 < u / 2 ^ sh).
  { apply Z.div_str_pos. split; [apply Z.pow_pos_nonneg; lia|].
    apply Z.le_trans with (2 ^ Z.log2 u); [apply Z.pow_le_mono_r; lia|assumption]. }
  assert (Hlq : Z.log2 (u / 2 ^ sh) = Z.log2 u - sh).
  { rewrite <- Z.shiftr_div_pow2 by lia. rewrite Z.log2_shiftr by lia. lia. }
  assert (Hlu : Z.log2 u < 2098) by (apply Z.log2_lt_pow2; lia).
  exists (Z.to_pos (u / 2 ^ sh)), (sh - 1074). split; [reflexivity|]. split.
  - unfold SpecFloat.valid_binary, bounded, canonical_mantissa, fexp, emin, prec, emax.
    rewrite digits2_pos_log2, Z2Pos.id, Hlq by assumption.
    apply andb_true_iff. split; [apply Z.eqb_eq|apply Z.leb_le]; unfold sh; lia.
  - unfold units. rewrite Z2Pos.id by assumption. f_equal. f_equal. lia.
Qed.

Lemma float_of_units_key (s : bool) (u : Z) :
  0 <= u -> scaled u ->
  valid_binary (float_of_units s u) = true /\
  SFnot_nan (float_of_units s u) /\
  SFkey (float_of_units s u) = if s then - cap u else cap u.
Proof.
  intros Hu Hsc. unfold cap.
  destruct (Z.eq_dec u 0) as [->|Hne].
  - simpl. repeat split; [discriminate|now destruct s].
  - destruct (Z.leb_spec (2 ^ 2098) u) as [Hbig|Hsmall].
    + unfold float_of_units. destruct u as [|p|p]; try lia.
      replace (2 ^ 2098 <=? Z.pos p) with true by (symmetry; apply Z.leb_le; lia).
      repeat split; discriminate.
    + destruct (float_of_units_finite s u ltac:(lia)) as (m & e & -> & V & E).
      rewrite <- scaled_shift in E by (auto; lia).
      split; [exact V|]. split; [discriminate|]. simpl. now rewrite E.
Qed.

(** The units of [round(x, 1)] for a finite [x] of [u] units. *)
Definition round_units (u : Z) : Z := cap (units_of_tenths (tenths_of_units u)).

Lemma cap_mono (u u' : Z) : u <= u' -> cap u <= cap u'.
Proof.
  intros H. unfold cap.
  assert (2 ^ 2098 < 2 ^ 2100) by (apply Z.pow_lt_mono_r; lia).
  destruct (Z.leb_spec (2 ^ 2098) u); destruct (Z.leb_spec (2 ^ 2098) u'); lia.
Qed.

Lemma round_units_mono (u u' : Z) : 0 <= u <= u' -> round_units u <= round_units u'.
Proof.
  intros H. unfold round_units. apply cap_mono, units_of_tenths_mono.
  split; [apply tenths_of_units_nonneg; lia|apply tenths_of_units_mono; lia].
Qed.

Lemma round_units_bounds (u : Z) : 0 <= u -> 0 <= round_units u <= 2 ^ 2100.
Proof.
  intros H. unfold round_units, cap.
  pose proof (units_of_tenths_nonneg _ (tenths_of_units_nonneg u H)).
  assert (2 ^ 2098 < 2 ^ 2100) by (apply Z.pow_lt_mono_r; lia).
  destruct (Z.leb_spec (2 ^ 2098) (units_of_tenths (tenths_of_units u))); lia.
Qed.

(** The place of [round(x, 1)] among the floats, from the one of [x]. *)
Definition round_key (x : spec_float) : Z :=
  match x with
  | S754_finite s m e => if s then - round_units (units m e) else round_units (units m e)
  | _ => SFkey x
  end.

Lemma py_round1_key (x : float) :
  not_nan x = true ->
  not_nan (py_round1 x) = true /\ fkey (py_round1 x) = round_key (Prim2SF x).
Proof.
  intros Nx. unfold py_round1, fkey, not_nan in *.
  destruct (Prim2SF x) as [s|s| |s m e] eqn:E; try discriminate;
    try (rewrite E; now split).
  pose proof (Prim2SF_valid x) as V. rewrite E in V.
  pose proof (units_bound s m e V) as Hu.
  set (u := units_of_tenths (tenths_of_units (units m e))).
  assert (Hk : 0 <= tenths_of_units (units m e)) by (apply tenths_of_units_nonneg; lia).
  destruct (float_of_units_key s u (units_of_tenths_nonneg _ Hk)
                               (units_of_tenths_scaled _ Hk)) as (Vr & Nr & Kr).
  rewrite (Prim2SF_SF2Prim _ Vr). split.
  - destruct (float_of_units s u); [reflexivity|reflexivity|now elim Nr|reflexivity].
  - exact Kr.
Qed.

Lemma py_round1_mono (x y : float) :
  fle x y = true -> fle (py_round1 x) (py_round1 y) = true.
Proof.
  intros H. rewrite fle_spec, !andb_true_iff, Z.leb_le in H. destruct H as [[Nx Ny] H].
  destruct (py_round1_key x Nx) as [Nrx Kx].
  destruct (py_round1_key y Ny) as [Nry Ky].
  apply fle_key; auto. rewrite Kx, Ky. unfold fkey in H.
  pose proof (Prim2SF_valid x) as Vx. pose proof (Prim2SF_valid y) as Vy.
  assert (P : 2 ^ 2098 < 2 ^ 2100) by (apply Z.pow_lt_mono_r; lia).
  assert (P0 : 0 < 2 ^ 2098) by (apply Z.pow_pos_nonneg; lia).
  unfold not_nan in Nx, Ny.
  destruct (Prim2SF x) as [sx|sx| |sx mx ex]; try discriminate;
    destruct (Prim2SF y) as [sy|sy| |sy my ey]; try discriminate;
    try (pose proof (units_bound _ _ _ Vx) as Bx;
         pose proof (round_units_bounds (units mx ex) ltac:(lia)) as Rx);
    try (pose proof (units_bound _ _ _ Vy) as By;
         pose proof (round_units_bounds (units my ey) ltac:(lia)) as Ry);
    cbn [round_key SFkey] in *;
    try solve [ repeat match goal with b : bool |- _ => destruct b end; lia ].
  destruct sx, sy; try lia.
  - pose proof (round_units_mono (units my ey) (units mx ex) ltac:(lia)). lia.
  - pose proof (round_units_mono (units mx ex) (units my ey) ltac:(lia)). lia.
Qed.

(** ** The bounding box of a panel with finite coordinates *)

Lemma flt_asym (x y : float) : flt x y = true -> flt y x = false.
Proof.
  rewrite !flt_spec. intros H. apply andb_true_iff in H. destruct H as [H1 H2].
  apply andb_true_iff in H1. destruct H1 as [Nx Ny]. rewrite Nx, Ny. simpl.
  apply Z.ltb_lt in H2. apply Z.ltb_ge. lia.
Qed.

Lemma flt_negtrans (x y z : float) :
  not_nan x = true -> not_nan y = true -> not_nan z = true ->
  flt x y = false -> flt y z = false -> flt x z = false.
Proof.
  intros Nx Ny Nz. rewrite !flt_spec, Nx, Ny, Nz. simpl.
  rewrite !Z.ltb_ge. lia.
Qed.

Lemma flt_false_fle (x y : float) :
  not_nan x = true -> not_nan y = true -> flt y x = false -> fle x y = true.
Proof.
  intros Nx Ny. rewrite flt_spec, fle_spec, Nx, Ny. simpl.
  rewrite Z.ltb_ge, Z.leb_le. lia.
Qed.

Lemma coordinates_finite (i : nat) (pts : list (list float)) :
  finite_coordinates pts -> has_axis i pts = true ->
  Forall (fun c => finite c = true) (coordinates i pts).
Proof.
  unfold finite_coordinates, has_axis, coordinates.
  rewrite forallb_forall, !Forall_forall. intros Hf Ha c Hc.
  apply in_map_iff in Hc. destruct Hc as (p & <- & Hp).
  specialize (Hf p Hp). rewrite Forall_forall in Hf. apply Hf.
  unfold coordinate. apply nth_In. apply Nat.ltb_lt. now apply Ha.
Qed.

Lemma py_min_is_minimum (c : float) (cs : list float) :
  Forall (fun x => finite x = true) (c :: cs) ->
  finite (py_min c cs) = true /\ is_minimum (py_min c cs) (c :: cs).
Proof.
  intros Hf.
  assert (Hn : Forall (fun x => not_nan x = true) (c :: cs))
    by (eapply Forall_impl; [|exact Hf]; apply finite_not_nan).
  pose proof (py_min_in c cs) as Hin. rewrite Forall_forall in Hf, Hn.
  split; [now apply Hf|]. split; [assumption|].
  intros y Hy. apply fle_key; auto.
  apply py_min_key; [now apply Forall_forall|assumption].
Qed.

Lemma py_max_is_maximum (c : float) (cs : list float) :
  Forall (fun x => finite x = true) (c :: cs) ->
  finite (py_max c cs) = true /\ is_maximum (py_max c cs) (c :: cs).
Proof.
  intros Hf.
  assert (Hn : Forall (fun x => not_nan x = true) (c :: cs))
    by (eapply Forall_impl; [|exact Hf]; apply finite_not_nan).
  pose proof (py_max_in c cs) as Hin. rewrite Forall_forall in Hf, Hn.
  split; [now apply Hf|]. split; [assumption|].
  intros y Hy. apply fle_key; auto.
  apply py_max_key; [now apply Forall_forall|assumption].
Qed.

Lemma calculate_finite (panel : list Side) (p : list float) (pts : list (list float)) :
  all_points panel = p :: pts ->
  three_coordinates (p :: pts) -> finite_coordinates (p :: pts) ->
  exists ox oy oz mx my mz d0 d1 d2,
    calculate_panel_properties panel =
      Ok ((ox, oy, oz), py_round1 d2, py_round1 d1, py_round1 d0) /\
    (is_minimum ox (coordinates 0 (p :: pts)) /\
     is_minimum oy (coordinates 1 (p :: pts)) /\
     is_minimum oz (coordinates 2 (p :: pts))) /\
    (is_maximum mx (coordinates 0 (p :: pts)) /\
     is_maximum my (coordinates 1 (p :: pts)) /\
     is_maximum mz (coordinates 2 (p :: pts))) /\
    Permutation [mx - ox; my - oy; mz - oz]%float [d0; d1; d2] /\
    fle d0 d1 = true /\ fle d1 d2 = true.
Proof.
  intros Hpts H3 Hf.
  destruct (calculate_three_coordinates panel p pts Hpts H3) as (d0 & d1 & d2 & Hs & Hc).
  apply has_axis_three in H3.
  pose proof (coordinates_finite 0 _ Hf (has_axis_le 0 2 _ ltac:(lia) H3)) as F0.
  pose proof (coordinates_finite 1 _ Hf (has_axis_le 1 2 _ ltac:(lia) H3)) as F1.
  pose proof (coordinates_finite 2 _ Hf H3) as F2.
  cbn [coordinates map] in F0, F1, F2. fold (coordinates 0 pts) in F0.
  fold (coordinates 1 pts) in F1. fold (coordinates 2 pts) in F2.
  destruct (py_min_is_minimum _ _ F0) as [Fn0 M0].
  destruct (py_min_is_minimum _ _ F1) as [Fn1 M1].
  destruct (py_min_is_minimum _ _ F2) as [Fn2 M2].
  destruct (py_max_is_maximum _ _ F0) as [Fx0 X0].
  destruct (py_max_is_maximum _ _ F1) as [Fx1 X1].
  destruct (py_max_is_maximum _ _ F2) as [Fx2 X2].
  assert (Hn : Forall (fun x => not_nan x = true) (extents p pts)).
  { unfold extents. repeat constructor; now apply fsub_not_nan. }
  pose proof (py_sorted_perm flt (extents p pts)) as Hperm. rewrite Hs in Hperm.
  pose proof (py_sorted_ascending flt (fun x => not_nan x = true)
                (fun x y _ _ => flt_asym x y) flt_negtrans _ Hn) as Hasc.
  rewrite Hs in Hasc.
  assert (Hnd : Forall (fun x => not_nan x = true) [d0; d1; d2]).
  { rewrite Forall_forall in *. intros x Hx. apply Hn.
    now apply (Permutation_in x (Permutation_sym Hperm)). }
  inversion Hnd as [|? ? N0 Hnd1]; subst. inversion Hnd1 as [|? ? N1 Hnd2]; subst.
  inversion Hnd2 as [|? ? N2 _]; subst.
  inversion Hasc as [|? ? Hasc1 A0]; subst. inversion Hasc1 as [|? ? _ A1]; subst.
  inversion A0 as [|? ? A01 _]; subst. inversion A1 as [|? ? A12 _]; subst.
  unfold ascending in A01, A12.
  exists (py_min (coordinate 0 p) (coordinates 0 pts)),
         (py_min (coordinate 1 p) (coordinates 1 pts)),
         (py_min (coordinate 2 p) (coordinates 2 pts)),
         (py_max (coordinate 0 p) (coordinates 0 pts)),
         (py_max (coordinate 1 p) (coordinates 1 pts)),
         (py_max (coordinate 2 p) (coordinates 2 pts)), d0, d1, d2.
  split; [exact Hc|]. split; [auto|]. split; [auto|]. split; [exact Hperm|].
  split; now apply flt_false_fle.
Qed.

(** C4 (amended).  For a panel that has a point, whose points have at least
    three coordinates and whose coordinates are finite, the calculator
    returns as origin the per-axis minima of the points (each a stored
    coordinate, not rounded), and as [(length, width, height)] the three
    extents (maximum minus minimum per axis) in ascending order
    [d0 <= d1 <= d2], each rounded to one decimal place: height is
    [round(d0, 1)], width [round(d1, 1)], length [round(d2, 1)]. *)
Theorem calculate_bounding_box (panel : list Side) :
  all_points panel <> [] ->
  three_coordinates (all_points panel) ->
  finite_coordinates (all_points panel) ->
  exists ox oy oz mx my mz d0 d1 d2,
    calculate_panel_properties panel =
      Ok ((ox, oy, oz), py_round1 d2, py_round1 d1, py_round1 d0) /\
    (is_minimum ox (coordinates 0 (all_points panel)) /\
     is_minimum oy (coordinates 1 (all_points panel)) /\
     is_minimum oz (coordinates 2 (all_points panel))) /\
    (is_maximum mx (coordinates 0 (all_points panel)) /\
     is_maximum my (coordinates 1 (all_points panel)) /\
     is_maximum mz (coordinates 2 (all_points panel))) /\
    Permutation [mx - ox; my - oy; mz - oz]%float [d0; d1; d2] /\
    fle d0 d1 = true /\ fle d1 d2 = true.
Proof.
  intros Hne H3 Hf. destruct (all_points panel) as [|p pts] eqn:E; [now elim Hne|].
  exact (calculate_finite panel p pts E H3 Hf).
Qed.

Lemma cube_panel_finite : finite_coordinates (all_points cube_panel).
Proof. unfold finite_coordinates. repeat constructor. Qed.

Lemma cube_panel_three : three_coordinates (all_points cube_panel).
Proof. apply has_axis_three. reflexivity. Qed.

Lemma calculate_bounding_box_witness :
  exists ox oy oz mx my mz d0 d1 d2,
    calculate_panel_properties cube_panel =
      Ok ((ox, oy, oz), py_round1 d2, py_round1 d1, py_round1 d0) /\
    (is_minimum ox (coordinates 0 (all_points cube_panel)) /\
     is_minimum oy (coordinates 1 (all_points cube_panel)) /\
     is_minimum oz (coordinates 2 (all_points cube_panel))) /\
    (is_maximum mx (coordinates 0 (all_points cube_panel)) /\
     is_maximum my (coordinates 1 (all_points cube_panel)) /\
     is_maximum mz (coordinates 2 (all_points cube_panel))) /\
    Permutation [mx - ox; my - oy; mz - oz]%float [d0; d1; d2] /\
    fle d0 d1 = true /\ fle d1 d2 = true.
Proof.
  apply (calculate_bounding_box cube_panel).
  - vm_compute. discriminate.
  - exact cube_panel_three.
  - exact cube_panel_finite.
Defined.

(** C4 as stated fails on three kinds of panel: six sides without points
    ([min] of an empty sequence raises [ValueError]); points with two
    coordinates ([IndexError]); points whose first coordinate is always
    [inf], where the first extent is [inf - inf], a NaN, which [sorted]
    leaves in front: the triple returned is not ascending. *)
Lemma calculate_not_bounding_box :
  calculate_panel_properties empty_panel = Raise ValueError /\
  calculate_panel_properties flat_panel = Raise IndexError /\
  (find_panels inf_sides = [inf_panel] /\
   calculate_panel_properties inf_panel = Ok ((infinity, 0, 0), 7.6, 2.5, nan)%float /\
   fle nan 2.5 = false).
Proof.
  split; [vm_compute; reflexivity|].
  split; [vm_compute; reflexivity|].
  split; [vm_compute; reflexivity|].
  split; vm_compute; reflexivity.
Qed.

(** C5 (amended).  For a panel that has a point, whose points have at least
    three coordinates and whose coordinates are finite, the returned
    triple satisfies [height <= width <= length]: rounding the sorted
    extents keeps their order. *)
Theorem calculate_dimensions_ordered (panel : list Side) :
  all_points panel <> [] ->
  three_coordinates (all_points panel) ->
  finite_coordinates (all_points panel) ->
  exists origin length width height,
    calculate_panel_properties panel = Ok (origin, length, width, height) /\
    fle height width = true /\ fle width length = true.
Proof.
  intros Hne H3 Hf. destruct (all_points panel) as [|p pts] eqn:E; [now elim Hne|].
  destruct (calculate_finite panel p pts E H3 Hf)
    as (ox & oy & oz & mx & my & mz & d0 & d1 & d2 & Hc & _ & _ & _ & H01 & H12).
  exists (ox, oy, oz), (py_round1 d2), (py_round1 d1), (py_round1 d0).
  split; [exact Hc|]. split; now apply py_round1_mono.
Qed.

Lemma calculate_dimensions_ordered_witness :
  exists origin length width height,
    calculate_panel_properties cube_panel = Ok (origin, length, width, height) /\
    fle height width = true /\ fle width length = true.
Proof.
  apply (calculate_dimensions_ordered cube_panel).
  - vm_compute. discriminate.
  - exact cube_panel_three.
  - exact cube_panel_finite.
Defined.

(** C5 as stated fails: the file whose points all have the first coordinate
    [inf] is parsed, its six sides are detected as a panel with 24 points,
    and the height returned for it is NaN, which is not [<=] the width. *)
Lemma calculate_dimensions_not_ordered :
  parse_example inf_file = Ok inf_sides /\
  find_panels inf_sides = [inf_panel] /\
  List.length (all_points inf_panel) = 24%nat /\
  exists origin length width height,
    calculate_panel_properties inf_panel = Ok (origin, length, width, height) /\
    fle height width = false.
Proof.
  split; [vm_compute; reflexivity|]. split; [vm_compute; reflexivity|].
  split; [reflexivity|].
  exists (infinity, 0, 0)%float, 7.6%float, 2.5%float, nan.
  split; vm_compute; reflexivity.
Qed.

(** ** Aggregation *)

Lemma sort_key_calculable (panel : list Side) :
  calculable panel ->
  calculate_panel_properties panel = Ok (properties_of panel) /\
  sort_key panel = Ok (key_of panel).
Proof.
  intros [r Hr]. unfold sort_key, key_of, properties_of. rewrite Hr.
  destruct r as [[[o l] w] h]. now split.
Qed.

Lemma sort_key_raise (panel : list Side) (e : exn) :
  sort_key panel = Raise e <-> calculate_panel_properties panel = Raise e.
Proof.
  unfold sort_key. destruct (calculate_panel_properties panel) as [[[[o l] w] h]|e'].
  - simpl. split; discriminate.
  - simpl. split; intros [= ->]; reflexivity.
Qed.

Definition keyed_step (acc : list (float * float * list Side)) (panel : list Side)
  : result (list (float * float * list Side)) :=
  k <- sort_key panel ;; Ok (acc ++ [(k, panel)]).

Lemma keyed_calculable (panels : list (list Side)) (acc : list (float * float * list Side)) :
  Forall calculable panels ->
  for_each keyed_step panels acc = Ok (acc ++ map (fun panel => (key_of panel, panel)) panels).
Proof.
  intros H. revert acc. induction H as [|p panels Hp Hall IH]; intros acc; simpl.
  - now rewrite app_nil_r.
  - unfold keyed_step at 1. destruct (sort_key_calculable p Hp) as [_ ->]. simpl.
    rewrite IH, <- app_assoc. reflexivity.
Qed.

Lemma keyed_raise (panels : list (list Side)) (acc : list (float * float * list Side)) (e : exn) :
  for_each keyed_step panels acc = Raise e ->
  exists panel, In panel panels /\ calculate_panel_properties panel = Raise e.
Proof.
  revert acc. induction panels as [|p panels IH]; intros acc; simpl; [discriminate|].
  unfold keyed_step at 1. destruct (sort_key p) as [k|e'] eqn:E; simpl.
  - intros H. destruct (IH _ H) as (q & Hq & Hc). exists q. auto.
  - intros [= ->]. exists p. split; [now left|]. now apply sort_key_raise.
Qed.

Lemma calculable_dec (panel : list Side) :
  calculable panel \/ exists e, calculate_panel_properties panel = Raise e.
Proof.
  unfold calculable. destruct (calculate_panel_properties panel) as [r|e]; eauto.
Qed.

Lemma sorted_panels_calculable (panels : list (list Side)) :
  Forall calculable panels -> sorted_panels panels = Ok (processing_order panels).
Proof.
  intros H. unfold sorted_panels. fold keyed_step.
  now rewrite (keyed_calculable panels [] H).
Qed.

Lemma sorted_panels_raise (panels : list (list Side)) (e : exn) :
  sorted_panels panels = Raise e ->
  exists panel, In panel panels /\ calculate_panel_properties panel = Raise e.
Proof.
  unfold sorted_panels. fold keyed_step.
  destruct (for_each keyed_step panels []) as [keyed|e'] eqn:E; simpl; [discriminate|].
  intros [= ->]. now apply (keyed_raise panels []).
Qed.

Lemma sorted_panels_ok (panels sorted : list (list Side)) :
  sorted_panels panels = Ok sorted -> Forall calculable panels.
Proof.
  intros H. rewrite Forall_forall. intros p Hp.
  destruct (calculable_dec p) as [Hc|[e He]]; [assumption|].
  exfalso. unfold sorted_panels in H. fold keyed_step in H.
  assert (Hr : forall acc, exists e', for_each keyed_step panels acc = Raise e').
  { clear H. induction panels as [|q panels IH]; [destruct Hp|]. intros acc. simpl.
    unfold keyed_step at 1. destruct (sort_key q) as [k|e'] eqn:E; simpl; [|eauto].
    destruct Hp as [->|Hp]; [|now apply IH].
    apply sort_key_raise in He. congruence. }
  destruct (Hr []) as [e' He']. now rewrite He' in H.
Qed.

Lemma processing_order_perm (panels : list (list Side)) :
  Permutation panels (processing_order panels).
Proof.
  unfold processing_order.
  rewrite <- (Permutation_map snd (py_sorted_reverse_perm _ _)).
  rewrite map_map. simpl. now rewrite map_id.
Qed.

Lemma aggregate_step_calculable (d : panel_dict) (panel : list Side) :
  calculable panel -> aggregate_step d panel = Ok (insert_panel d panel).
Proof.
  intros H. destruct (sort_key_calculable panel H) as [Hc _].
  unfold aggregate_step, insert_panel, dims_of, origin_of. rewrite Hc.
  destruct (properties_of panel) as [[[o l] w] h]. simpl.
  now destruct (dict_mem (l, w, h) d).
Qed.

Lemma for_each_aggregate (panels : list (list Side)) (d : panel_dict) :
  Forall calculable panels ->
  for_each aggregate_step panels d = Ok (fold_left insert_panel panels d).
Proof.
  intros H. revert d. induction H as [|p panels Hp Hall IH]; intros d; simpl; [reflexivity|].
  rewrite (aggregate_step_calculable d p Hp). simpl. apply IH.
Qed.

(** The dictionary [main] builds, when the calculator accepts every panel. *)
Lemma aggregate_calculable (panels : list (list Side)) :
  Forall calculable panels ->
  aggregate panels = Ok (fold_left insert_panel (processing_order panels) []).
Proof.
  intros H. unfold aggregate. rewrite (sorted_panels_calculable panels H). simpl.
  apply for_each_aggregate. rewrite Forall_forall in *. intros p Hp. apply H.
  now apply (Permutation_in p (Permutation_sym (processing_order_perm panels))).
Qed.

Lemma aggregate_raise (panels : list (list Side)) (e : exn) :
  aggregate panels = Raise e ->
  exists panel, In panel panels /\ calculate_panel_properties panel = Raise e.
Proof.
  intros H. destruct (sorted_panels panels) as [sorted|e'] eqn:E.
  - apply sorted_panels_ok in E. rewrite (aggregate_calculable panels E) in H.
    discriminate.
  - unfold aggregate in H. rewrite E in H. simpl in H. injection H as ->.
    now apply sorted_panels_raise.
Qed.

Lemma dims_eqb_sym (a b : dims_t) : dims_eqb a b = true -> dims_eqb b a = true.
Proof.
  destruct a as [[l1 w1] h1], b as [[l2 w2] h2]. unfold dims_eqb.
  rewrite !andb_true_iff. intros [[H1 H2] H3]. auto using feq_sym.
Qed.

Lemma dims_eqb_trans (a b c : dims_t) :
  dims_eqb a b = true -> dims_eqb b c = true -> dims_eqb a c = true.
Proof.
  destruct a as [[l1 w1] h1], b as [[l2 w2] h2], c as [[l3 w3] h3]. unfold dims_eqb.
  rewrite !andb_true_iff. intros [[H1 H2] H3] [[H4 H5] H6].
  repeat split; eapply feq_trans; eassumption.
Qed.

(** The keys of a dictionary are pairwise different. *)
Definition distinct_keys (keys : list dims_t) : Prop :=
  forall a b ka kb, (a < b)%nat ->
    nth_error keys a = Some ka -> nth_error keys b = Some kb -> dims_eqb ka kb = false.

(** The key [k0] of a group stands for the triple [k]: the group was made
    for [k], or [k] was found equal to its key. *)
Definition stands_for (k0 k : dims_t) : Prop := k0 = k \/ dims_eqb k0 k = true.

Lemma find_key_le (keys : list dims_t) (k : dims_t) :
  (find_key keys k <= List.length keys)%nat.
Proof. induction keys as [|k' keys IH]; simpl; [lia|]. destruct (dims_eqb k' k); lia. Qed.

Lemma find_key_mem (keys : list dims_t) (k : dims_t) :
  set_mem dims_eqb k keys = true <-> (find_key keys k < List.length keys)%nat.
Proof.
  induction keys as [|k' keys IH]; simpl; [split; [discriminate|lia]|].
  unfold set_mem in *. simpl. destruct (dims_eqb k' k); simpl; [split; [lia|auto]|].
  rewrite IH. lia.
Qed.

Lemma find_key_found (keys : list dims_t) (k : dims_t) :
  (find_key keys k < List.length keys)%nat ->
  exists k0, nth_error keys (find_key keys k) = Some k0 /\ dims_eqb k0 k = true.
Proof.
  induction keys as [|k' keys IH]; simpl; [lia|].
  destruct (dims_eqb k' k) eqn:E; [intros _; exists k'; now split|].
  intros H. apply IH. lia.
Qed.

Lemma find_key_first (keys : list dims_t) (k : dims_t) (b : nat) (kb : dims_t) :
  (b < find_key keys k)%nat -> nth_error keys b = Some kb -> dims_eqb kb k = false.
Proof.
  revert b. induction keys as [|k' keys IH]; intros b; simpl; [lia|].
  destruct (dims_eqb k' k) eqn:E; [lia|]. intros Hb.
  destruct b as [|b]; simpl; [now intros [= <-]|]. apply IH. lia.
Qed.

Lemma dict_append_keys (d : panel_dict) (k : dims_t) (o : origin_t) :
  map fst (dict_append d k o) = map fst d.
Proof.
  induction d as [|[k' os] d IH]; [reflexivity|]. simpl.
  destruct (dims_eqb k' k); simpl; [reflexivity|now rewrite IH].
Qed.

(** The keys of the dictionary grow as a Python set does. *)
Lemma insert_panel_keys (d : panel_dict) (panel : list Side) :
  map fst (insert_panel d panel) = set_add dims_eqb (map fst d) (dims_of panel).
Proof.
  unfold insert_panel, set_add, dict_mem.
  destruct (set_mem dims_eqb (dims_of panel) (map fst d)).
  - apply dict_append_keys.
  - now rewrite map_app.
Qed.

Lemma fold_insert_panel_keys (panels : list (list Side)) (d : panel_dict) :
  map fst (fold_left insert_panel panels d) =
  fold_left (set_add dims_eqb) (map dims_of panels) (map fst d).
Proof.
  revert d. induction panels as [|p panels IH]; intros d; [reflexivity|].
  simpl. now rewrite IH, insert_panel_keys.
Qed.

Lemma set_add_prefix (keys : list dims_t) (k : dims_t) :
  exists more, set_add dims_eqb keys k = keys ++ more.
Proof.
  unfold set_add. destruct (set_mem dims_eqb k keys); [exists []|exists [k]]; auto.
  now rewrite app_nil_r.
Qed.

Lemma fold_set_add_prefix (ks keys : list dims_t) :
  exists more, fold_left (set_add dims_eqb) ks keys = keys ++ more.
Proof.
  revert keys. induction ks as [|k ks IH]; intros keys; simpl.
  - exists []. now rewrite app_nil_r.
  - destruct (set_add_prefix keys k) as [m1 ->]. destruct (IH (keys ++ m1)) as [m2 ->].
    exists (m1 ++ m2). now rewrite app_assoc.
Qed.

Lemma nth_error_prefix {A : Type} (l more : list A) (n : nat) (x : A) :
  nth_error l n = Some x -> nth_error (l ++ more) n = Some x.
Proof.
  intros H. rewrite nth_error_app1; [assumption|]. apply nth_error_Some. congruence.
Qed.

Lemma distinct_keys_set_add (keys : list dims_t) (k : dims_t) :
  distinct_keys keys -> distinct_keys (set_add dims_eqb keys k).
Proof.
  intros Hd. unfold set_add. destruct (set_mem dims_eqb k keys) eqn:E; [assumption|].
  intros a b ka kb Hab Ha Hb.
  assert (Hlen : (b < List.length (keys ++ [k]))%nat) by (apply nth_error_Some; congruence).
  rewrite length_app in Hlen. simpl in Hlen.
  rewrite nth_error_app1 in Ha by lia.
  destruct (Nat.eq_dec b (List.length keys)) as [->|Hne].
  - rewrite nth_error_app2, Nat.sub_diag in Hb by lia. simpl in Hb. injection Hb as <-.
    apply (proj1 (set_mem_false dims_eqb k keys) E). now apply nth_error_In in Ha.
  - rewrite nth_error_app1 in Hb by lia. now apply (Hd a b).
Qed.

Lemma distinct_keys_fold (ks keys : list dims_t) :
  distinct_keys keys -> distinct_keys (fold_left (set_add dims_eqb) ks keys).
Proof.
  revert keys. induction ks as [|k ks IH]; intros keys H; simpl; [assumption|].
  apply IH. now apply distinct_keys_set_add.
Qed.

Lemma distinct_keys_nil : distinct_keys [].
Proof. intros a b ka kb _ Ha. now destruct a. Qed.

(** Two positions of a dictionary whose keys are equal are one position. *)
Lemma distinct_keys_eq (keys : list dims_t) (a b : nat) (ka kb : dims_t) :
  distinct_keys keys ->
  nth_error keys a = Some ka -> nth_error keys b = Some kb ->
  dims_eqb ka kb = true -> a = b.
Proof.
  intros Hd Ha Hb E. destruct (Nat.lt_total a b) as [Hlt|[Heq|Hgt]]; [|assumption|].
  - rewrite (Hd a b ka kb Hlt Ha Hb) in E. discriminate.
  - apply dims_eqb_sym in E. rewrite (Hd b a kb ka Hgt Hb Ha) in E. discriminate.
Qed.

(** *** The number of origins *)

Lemma total_origins_app (d1 d2 : panel_dict) :
  total_origins (d1 ++ d2) = (total_origins d1 + total_origins d2)%nat.
Proof. unfold total_origins. now rewrite map_app, list_sum_app. Qed.

Lemma total_origins_append (d : panel_dict) (k : dims_t) (o : origin_t) :
  dict_mem k d = true -> total_origins (dict_append d k o) = S (total_origins d).
Proof.
  unfold dict_mem, set_mem. induction d as [|[k' os] d IH]; simpl; [discriminate|].
  destruct (dims_eqb k' k); simpl.
  - intros _. unfold total_origins. simpl. rewrite length_app. simpl. lia.
  - intros H. unfold total_origins in *. simpl. rewrite (IH H). lia.
Qed.

Lemma total_origins_insert (d : panel_dict) (panel : list Side) :
  total_origins (insert_panel d panel) = S (total_origins d).
Proof.
  unfold insert_panel. destruct (dict_mem (dims_of panel) d) eqn:E.
  - now apply total_origins_append.
  - rewrite total_origins_app. unfold total_origins at 2. simpl. lia.
Qed.

Lemma total_origins_fold (panels : list (list Side)) (d : panel_dict) :
  total_origins (fold_left insert_panel panels d) =
  (total_origins d + List.length panels)%nat.
Proof.
  revert d. induction panels as [|p panels IH]; intros d; simpl; [lia|].
  rewrite IH, total_origins_insert. lia.
Qed.

(** X16.  The aggregation step (lines 120 to 131 of [main]) returns a
    dictionary whose origin lists have, together, as many origins as
    there are panels: a panel adds one origin, to the group of its triple
    or to a new group, and nothing is removed.  The step does not return
    only when the calculator raises on one of the panels. *)
Theorem aggregate_total_origins (panels : list (list Side)) :
  match aggregate panels with
  | Ok d => total_origins d = List.length panels
  | Raise e => exists panel, In panel panels /\ calculate_panel_properties panel = Raise e
  end.
Proof.
  destruct (aggregate panels) as [d|e] eqn:E; [|now apply aggregate_raise].
  assert (Hc : Forall calculable panels).
  { destruct (sorted_panels panels) as [sorted|e'] eqn:Es.
    - now apply sorted_panels_ok in Es.
    - unfold aggregate in E. rewrite Es in E. discriminate. }
  rewrite (aggregate_calculable panels Hc) in E. injection E as <-.
  rewrite total_origins_fold. simpl.
  symmetry. apply Permutation_length, processing_order_perm.
Qed.

Lemma window_In (sides : list Side) (i : nat) (s : Side) :
  In s (window sides i) -> In s sides.
Proof.
  unfold window. intros H.
  rewrite <- (firstn_skipn i sides). apply in_or_app. right.
  rewrite <- (firstn_skipn 6 (skipn i sides)). apply in_or_app. now left.
Qed.

(** On the panels detected in sides whose points have three coordinates
    the calculator does not raise, and the dictionary is returned. *)
Lemma detected_panels_calculable (sides : list Side) :
  three_coordinates (all_points sides) -> Forall calculable (find_panels sides).
Proof.
  intros H3. rewrite Forall_forall. intros panel Hp.
  destruct (detected_panel_points_calculable sides panel Hp) as [Hok _]. apply Hok.
  apply find_panels_In in Hp. destruct Hp as (i & -> & _).
  unfold three_coordinates, all_points, window in *. rewrite Forall_forall in *.
  intros pt Hpt. apply H3. apply in_flat_map in Hpt. destruct Hpt as (s & Hs & Hpt).
  apply in_flat_map. exists s. split; [|assumption].
  now apply (window_In sides i).
Qed.

(** *** The group a panel lands in *)

Lemma find_key_absent (keys : list dims_t) (k : dims_t) :
  set_mem dims_eqb k keys = false -> find_key keys k = List.length keys.
Proof.
  intros H. pose proof (find_key_le keys k) as Hle.
  destruct (Nat.eq_dec (find_key keys k) (List.length keys)) as [E|E]; [assumption|].
  assert (Hlt : (find_key keys k < List.length keys)%nat) by lia.
  apply find_key_mem in Hlt. congruence.
Qed.

Lemma group_origins_append (d : panel_dict) (k : dims_t) (o : origin_t) (g : nat) :
  dict_mem k d = true ->
  group_origins (dict_append d k o) g =
  group_origins d g ++ (if Nat.eqb (find_key (map fst d) k) g then [o] else []).
Proof.
  unfold dict_mem, set_mem. revert g. induction d as [|[k' os] d IH]; intros g; simpl; [discriminate|].
  destruct (dims_eqb k' k) eqn:E; simpl.
  - intros _. destruct g as [|g]; unfold group_origins; simpl; [reflexivity|].
    destruct (nth_error d g) as [[k0 os0]|]; now rewrite ?app_nil_r.
  - intros H. destruct g as [|g]; unfold group_origins; simpl; [now rewrite app_nil_r|].
    apply (IH g H).
Qed.

Lemma group_origins_new (d : panel_dict) (k : dims_t) (o : origin_t) (g : nat) :
  group_origins (d ++ [(k, [o])]) g =
  group_origins d g ++ (if Nat.eqb (List.length d) g then [o] else []).
Proof.
  unfold group_origins. destruct (Nat.lt_total g (List.length d)) as [Hlt|[Heq|Hgt]].
  - rewrite nth_error_app1 by assumption.
    replace (Nat.eqb (List.length d) g) with false by (symmetry; apply Nat.eqb_neq; lia).
    destruct (nth_error d g) as [[k0 os0]|]; now rewrite ?app_nil_r.
  - subst g. rewrite nth_error_app2, Nat.sub_diag, Nat.eqb_refl by lia. simpl.
    replace (nth_error d (List.length d)) with (@None (dims_t * list origin_t))
      by (symmetry; apply nth_error_None; lia).
    reflexivity.
  - replace (Nat.eqb (List.length d) g) with false by (symmetry; apply Nat.eqb_neq; lia).
    replace (nth_error d g) with (@None (dims_t * list origin_t))
      by (symmetry; apply nth_error_None; lia).
    replace (nth_error (d ++ [(k, [o])]) g) with (@None (dims_t * list origin_t)); [reflexivity|].
    symmetry. apply nth_error_None. rewrite length_app. simpl. lia.
Qed.

Lemma group_origins_insert (d : panel_dict) (panel : list Side) (g : nat) :
  group_origins (insert_panel d panel) g =
  group_origins d g ++
  (if Nat.eqb (find_key (map fst d) (dims_of panel)) g then [origin_of panel] else []).
Proof.
  unfold insert_panel. destruct (dict_mem (dims_of panel) d) eqn:E.
  - now apply group_origins_append.
  - rewrite group_origins_new. unfold dict_mem in E.
    now rewrite (find_key_absent _ _ E), length_map.
Qed.

(** Every group holds the origins of the panels that landed in it, in the
    order the panels were processed. *)
Lemma group_origins_fold (panels : list (list Side)) (d : panel_dict) (g : nat) :
  group_origins (fold_left insert_panel panels d) g =
  group_origins d g ++ origins_landed g panels (landings d panels).
Proof.
  revert d. induction panels as [|p panels IH]; intros d; simpl.
  - now rewrite app_nil_r.
  - rewrite IH, group_origins_insert, <- app_assoc. f_equal.
    now destruct (Nat.eqb (find_key (map fst d) (dims_of p)) g).
Qed.

Lemma landings_length (panels : list (list Side)) (d : panel_dict) :
  List.length (landings d panels) = List.length panels.
Proof. revert d. induction panels as [|p panels IH]; intros d; simpl; auto. Qed.

Lemma insert_panel_distinct (d : panel_dict) (panel : list Side) :
  distinct_keys (map fst d) -> distinct_keys (map fst (insert_panel d panel)).
Proof. rewrite insert_panel_keys. apply distinct_keys_set_add. Qed.

Lemma insert_panel_keeps (d : panel_dict) (panel : list Side) (g : nat) (kg : dims_t) :
  nth_error (map fst d) g = Some kg ->
  nth_error (map fst (insert_panel d panel)) g = Some kg.
Proof.
  rewrite insert_panel_keys. destruct (set_add_prefix (map fst d) (dims_of panel)) as [m ->].
  apply nth_error_prefix.
Qed.

(** The group a panel lands in has a key that stands for its triple. *)
Lemma landing_stands_for (d : panel_dict) (panel : list Side) :
  exists k0,
    nth_error (map fst (insert_panel d panel)) (find_key (map fst d) (dims_of panel)) = Some k0 /\
    stands_for k0 (dims_of panel).
Proof.
  rewrite insert_panel_keys. unfold set_add, stands_for.
  destruct (set_mem dims_eqb (dims_of panel) (map fst d)) eqn:E.
  - apply find_key_mem in E. destruct (find_key_found _ _ E) as (k0 & H0 & H1). eauto.
  - rewrite (find_key_absent _ _ E). exists (dims_of panel).
    rewrite nth_error_app2, Nat.sub_diag by lia. auto.
Qed.

(** A later panel lands in an existing group exactly when its triple equals
    the triple the key of the group stands for. *)
Lemma landing_existing_group (panels : list (list Side)) :
  forall (d : panel_dict) (g : nat) (kg k : dims_t),
    distinct_keys (map fst d) ->
    nth_error (map fst d) g = Some kg -> stands_for kg k ->
    forall j pj gj,
      nth_error panels j = Some pj -> nth_error (landings d panels) j = Some gj ->
      (g = gj <-> dims_eqb k (dims_of pj) = true).
Proof.
  induction panels as [|q panels IH]; intros d g kg k Hd Hg Hs j pj gj Hpj Hgj.
  - now destruct j.
  - destruct j as [|j]; simpl in Hpj, Hgj.
    + injection Hpj as <-. injection Hgj as <-.
      assert (Hlen : (g < List.length (map fst d))%nat) by (apply nth_error_Some; congruence).
      split.
      * intros ->. destruct (find_key_found _ _ Hlen) as (k0 & H0 & H1).
        rewrite Hg in H0. injection H0 as <-.
        destruct Hs as [->|Hs]; [assumption|].
        apply (dims_eqb_trans k kg); [now apply dims_eqb_sym|assumption].
      * intros E.
        assert (Ekg : dims_eqb kg (dims_of q) = true).
        { destruct Hs as [->|Hs]; [assumption|]. now apply (dims_eqb_trans kg k). }
        assert (Hm : set_mem dims_eqb (dims_of q) (map fst d) = true).
        { apply set_mem_true. exists kg. split; [now apply nth_error_In in Hg|assumption]. }
        apply find_key_mem in Hm. destruct (find_key_found _ _ Hm) as (ka & Ha & Eka).
        symmetry. apply (distinct_keys_eq (map fst d) _ _ ka kg Hd Ha Hg).
        apply (dims_eqb_trans ka (dims_of q)); [assumption|now apply dims_eqb_sym].
    + exact (IH (insert_panel d q) g kg k (insert_panel_distinct d q Hd)
                (insert_panel_keeps d q g kg Hg) Hs j pj gj Hpj Hgj).
Qed.

(** Two panels land in one group exactly when their triples are equal. *)
Lemma landings_same_group (panels : list (list Side)) :
  forall d : panel_dict,
    distinct_keys (map fst d) ->
    forall i j pi pj gi gj,
      (i < j)%nat ->
      nth_error panels i = Some pi -> nth_error panels j = Some pj ->
      nth_error (landings d panels) i = Some gi ->
      nth_error (landings d panels) j = Some gj ->
      (gi = gj <-> dims_eqb (dims_of pi) (dims_of pj) = true).
Proof.
  induction panels as [|q panels IH]; intros d Hd i j pi pj gi gj Hij Hpi Hpj Hgi Hgj.
  - now destruct i.
  - destruct j as [|j]; [lia|]. simpl in Hpj, Hgj.
    destruct i as [|i]; simpl in Hpi, Hgi.
    + injection Hpi as <-. injection Hgi as <-.
      destruct (landing_stands_for d q) as (k0 & H0 & Hs).
      exact (landing_existing_group panels (insert_panel d q) _ k0 (dims_of q)
               (insert_panel_distinct d q Hd) H0 Hs j pj gj Hpj Hgj).
    + exact (IH (insert_panel d q) (insert_panel_distinct d q Hd) i j pi pj gi gj
                ltac:(lia) Hpi Hpj Hgi Hgj).
Qed.

Lemma dims_eqb_exact (a b : dims_t) :
  dims_eqb a b = true ->
  let '(l1, w1, h1) := a in
  let '(l2, w2, h2) := b in
  (l1 = l2 \/ (feq l1 0 = true /\ feq l2 0 = true)) /\
  (w1 = w2 \/ (feq w1 0 = true /\ feq w2 0 = true)) /\
  (h1 = h2 \/ (feq h1 0 = true /\ feq h2 0 = true)).
Proof.
  destruct a as [[l1 w1] h1], b as [[l2 w2] h2]. unfold dims_eqb.
  rewrite !andb_true_iff. intros [[H1 H2] H3]. auto using feq_exact.
Qed.

(* ================================================================= *)
(** * Further properties of the script *)

(** ** [parse_side] *)


(** A line that starts with ["o "] does not start with ["v "] or ["f "]. *)
Lemma prefix_o_not_v (l : string) : prefix "o " l = true -> prefix "v " l = false.
Proof.
  destruct l as [|c l]; [discriminate|]. cbn [prefix].
  destruct (ascii_dec "o" c) as [<-|]; [intros _|discriminate].
  destruct (ascii_dec "v" "o") as [E|]; [discriminate E|reflexivity].
Qed.

Lemma prefix_o_not_f (l : string) : prefix "o " l = true -> prefix "f " l = false.
Proof.
  destruct l as [|c l]; [discriminate|]. cbn [prefix].
  destruct (ascii_dec "o" c) as [<-|]; [intros _|discriminate].
  destruct (ascii_dec "f" "o") as [E|]; [discriminate E|reflexivity].
Qed.

Lemma prefix_v_not_f (l : string) : prefix "v " l = true -> prefix "f " l = false.
Proof.
  destruct l as [|c l]; [discriminate|]. cbn [prefix].
  destruct (ascii_dec "v" c) as [<-|]; [intros _|discriminate].
  destruct (ascii_dec "f" "v") as [E|]; [discriminate E|reflexivity].
Qed.

Section ParserFacts.
Variable py_split : string -> list string.
Variable py_float : string -> option float.
Variable py_int : string -> option Z.

(** The sides a state of the loop stands for: [sides], then the side being
    read. *)
Definition sides_so_far (st : parse_state) : list Side := flush (fst st) (snd st).

(** The name an ["o "] line gives to its side. *)
Definition side_name (l : string) : string := replace_obj (nth 1 (py_split l) EmptyString).

(** The four ways a line is read without an exception. *)
Lemma parse_line_ok (st st' : parse_state) (l : string) :
  parse_line py_split py_float py_int st l = Ok st' ->
  (prefix "o " l = true /\
   nth_error (py_split l) 1 <> None /\
   st' = (sides_so_far st, Some (mkSide (side_name l) [] []))) \/
  (prefix "o " l = false /\ prefix "v " l = true /\
   exists s coords,
     snd st = Some s /\
     map_raise ValueError py_float (tl (py_split l)) = Ok coords /\
     st' = (fst st, Some (mkSide (name s) (points s ++ [map convert_coordinate coords])
                                 (surfaces s)))) \/
  (prefix "o " l = false /\ prefix "v " l = false /\ prefix "f " l = true /\
   exists s surface,
     snd st = Some s /\
     map_raise ValueError py_int (tl (py_split l)) = Ok surface /\
     st' = (fst st, Some (mkSide (name s) (points s) (surfaces s ++ [surface])))) \/
  (prefix "o " l = false /\ prefix "v " l = false /\ prefix "f " l = false /\ st' = st).
Proof.
  destruct st as [sides cur]. unfold parse_line, sides_so_far, side_name. simpl fst. simpl snd.
  destruct (prefix "o " l) eqn:Eo.
  - destruct (nth_error (py_split l) 1) as [nm|] eqn:En; [|discriminate].
    intros [= <-]. left. split; [reflexivity|]. split; [discriminate|].
    now rewrite (nth_error_nth _ _ _ En).
  - destruct (prefix "v " l) eqn:Ev.
    + destruct (map_raise ValueError py_float (tl (py_split l))) as [coords|e]; [|discriminate].
      simpl. destruct cur as [s|]; [|discriminate].
      intros [= <-]. right. left. repeat split. exists s, coords. auto.
    + destruct (prefix "f " l) eqn:Ef.
      * destruct cur as [s|]; [|discriminate].
        destruct (map_raise ValueError py_int (tl (py_split l))) as [surface|e]; [|discriminate].
        simpl. intros [= <-]. right. right. left. repeat split. exists s, surface. auto.
      * intros [= <-]. right. right. right. auto.
Qed.

(** What [parse_side] returns is what the state of the loop stands for at
    the end of the file. *)
Lemma parse_side_ok (lines : list string) (sides : list Side) :
  parse_side py_split py_float py_int lines = Ok sides <->
  exists st, for_each (parse_line py_split py_float py_int) lines ([], None) = Ok st /\ sides = sides_so_far st.
Proof.
  unfold parse_side, sides_so_far.
  destruct (for_each (parse_line py_split py_float py_int) lines ([], None)) as [[ss cur]|e]; simpl.
  - split; [intros [= <-]; eauto|intros (st & [= <-] & ->); reflexivity].
  - split; [discriminate|intros (st & H & _); discriminate].
Qed.

(** A line with none of the three prefixes. *)
Definition other_line (l : string) : bool :=
  negb (prefix "o " l) && negb (prefix "v " l) && negb (prefix "f " l).

Lemma parse_line_other (st : parse_state) (l : string) :
  other_line l = true -> parse_line py_split py_float py_int st l = Ok st.
Proof.
  unfold other_line. rewrite !andb_true_iff, !negb_true_iff. intros [[Ho Hv] Hf].
  destruct st as [sides cur]. unfold parse_line. now rewrite Ho, Hv, Hf.
Qed.

Lemma for_each_skip_other (lines : list string) (st : parse_state) :
  for_each (parse_line py_split py_float py_int) (filter (fun l => negb (other_line l)) lines) st = for_each (parse_line py_split py_float py_int) lines st.
Proof.
  revert st. induction lines as [|l lines IH]; intros st; simpl; [reflexivity|].
  destruct (other_line l) eqn:E; simpl.
  - rewrite (parse_line_other st l E). simpl. apply IH.
  - destruct (parse_line py_split py_float py_int st l) as [st'|e]; simpl; [apply IH|reflexivity].
Qed.

(** X1.  Lines that start with none of ["o "], ["v "] and ["f "] are ignored:
    removing them from the file changes nothing, whether the file is
    parsed or raises. *)
Theorem parse_side_ignores_other_lines (lines : list string) :
  parse_side py_split py_float py_int (filter (fun l => negb (other_line l)) lines) = parse_side py_split py_float py_int lines.
Proof. unfold parse_side. now rewrite for_each_skip_other. Qed.

(** X2.  A file without a line that starts with ["o "], ["v "] or ["f "] (the
    empty file is one) is parsed into the empty list of sides. *)
Theorem parse_side_no_marker (lines : list string) :
  forallb other_line lines = true -> parse_side py_split py_float py_int lines = Ok [].
Proof.
  intros H. unfold parse_side. rewrite <- for_each_skip_other.
  replace (filter (fun l => negb (other_line l)) lines) with (@nil string); [reflexivity|].
  symmetry. induction lines as [|l lines IH]; [reflexivity|].
  simpl in *. apply andb_true_iff in H. destruct H as [Hl H]. rewrite Hl. simpl. now apply IH.
Qed.



(** What reading a line does to the sides read so far: an ["o "] line adds
    an empty side, a ["v "] line adds a point to the last side, an ["f "]
    line adds a surface to the last side, another line does nothing. *)
Lemma parse_line_effect (st st' : parse_state) (l : string) :
  parse_line py_split py_float py_int st l = Ok st' ->
  (prefix "o " l = true /\
   sides_so_far st' = sides_so_far st ++ [mkSide (side_name l) [] []]) \/
  (prefix "o " l = false /\ prefix "v " l = true /\
   exists front s coords,
     sides_so_far st = front ++ [s] /\
     map_raise ValueError py_float (tl (py_split l)) = Ok coords /\
     sides_so_far st' =
       front ++ [mkSide (name s) (points s ++ [map convert_coordinate coords]) (surfaces s)]) \/
  (prefix "o " l = false /\ prefix "v " l = false /\ prefix "f " l = true /\
   exists front s surface,
     sides_so_far st = front ++ [s] /\
     map_raise ValueError py_int (tl (py_split l)) = Ok surface /\
     sides_so_far st' =
       front ++ [mkSide (name s) (points s) (surfaces s ++ [surface])]) \/
  (other_line l = true /\ sides_so_far st' = sides_so_far st).
Proof.
  intros H. destruct (parse_line_ok st st' l H)
    as [(Ho & _ & ->)|[(Ho & Hv & s & coords & Hs & Hc & ->)
       |[(Ho & Hv & Hf & s & surface & Hs & Hc & ->)|(Ho & Hv & Hf & ->)]]].
  - left. auto.
  - right. left. repeat split; auto. exists (fst st), s, coords.
    unfold sides_so_far. rewrite Hs. auto.
  - right. right. left. repeat split; auto. exists (fst st), s, surface.
    unfold sides_so_far. rewrite Hs. auto.
  - right. right. right. unfold other_line. now rewrite Ho, Hv, Hf.
Qed.

Lemma other_line_false (l : string) :
  other_line l = true ->
  prefix "o " l = false /\ prefix "v " l = false /\ prefix "f " l = false.
Proof.
  unfold other_line. rewrite !andb_true_iff, !negb_true_iff. tauto.
Qed.

Lemma for_each_names (lines : list string) (st st' : parse_state) :
  for_each (parse_line py_split py_float py_int) lines st = Ok st' ->
  map name (sides_so_far st') =
  map name (sides_so_far st) ++ map side_name (filter (prefix "o ") lines).
Proof.
  revert st. induction lines as [|l lines IH]; intros st; simpl.
  - intros [= <-]. now rewrite app_nil_r.
  - destruct (parse_line py_split py_float py_int st l) as [st1|e] eqn:E; simpl; [|discriminate].
    intros H. rewrite (IH st1 H).
    destruct (parse_line_effect st st1 l E)
      as [(Ho & ->)|[(Ho & Hv & front & s & coords & -> & _ & ->)
         |[(Ho & Hv & Hf & front & s & surface & -> & _ & ->)|(Hx & ->)]]].
    + rewrite Ho, map_app, <- app_assoc. reflexivity.
    + rewrite Ho, !map_app. reflexivity.
    + rewrite Ho, !map_app. reflexivity.
    + destruct (other_line_false l Hx) as (-> & _). reflexivity.
Qed.

(** X4.  The sides of a parsed file are those of its ["o "] lines, in file
    order: the name of a side is the second token of its line without the
    occurrences of [obj]. *)
Theorem parse_side_names (lines : list string) (sides : list Side) :
  parse_side py_split py_float py_int lines = Ok sides ->
  map name sides = map side_name (filter (prefix "o ") lines).
Proof.
  intros H. apply parse_side_ok in H. destruct H as (st & H & ->).
  now rewrite (for_each_names lines _ st H).
Qed.

Lemma all_points_snoc (front : list Side) (s : Side) :
  all_points (front ++ [s]) = all_points front ++ points s.
Proof. unfold all_points. rewrite flat_map_app. simpl. now rewrite app_nil_r. Qed.

Lemma all_surfaces_snoc (front : list Side) (s : Side) :
  all_surfaces (front ++ [s]) = all_surfaces front ++ surfaces s.
Proof. unfold all_surfaces. rewrite flat_map_app. simpl. now rewrite app_nil_r. Qed.

Lemma for_each_counts (lines : list string) (st st' : parse_state) :
  for_each (parse_line py_split py_float py_int) lines st = Ok st' ->
  List.length (all_points (sides_so_far st')) =
    (List.length (all_points (sides_so_far st)) + List.length (filter (prefix "v ") lines))%nat /\
  List.length (all_surfaces (sides_so_far st')) =
    (List.length (all_surfaces (sides_so_far st)) + List.length (filter (prefix "f ") lines))%nat.
Proof.
  revert st. induction lines as [|l lines IH]; intros st; simpl.
  - intros [= <-]. lia.
  - destruct (parse_line py_split py_float py_int st l) as [st1|e] eqn:E; simpl; [|discriminate].
    intros H. destruct (IH st1 H) as [IHp IHs]. rewrite IHp, IHs.
    destruct (parse_line_effect st st1 l E)
      as [(Ho & ->)|[(Ho & Hv & front & s & coords & -> & _ & ->)
         |[(Ho & Hv & Hf & front & s & surface & -> & _ & ->)|(Hx & ->)]]].
    + rewrite (prefix_o_not_v l Ho), (prefix_o_not_f l Ho).
      rewrite all_points_snoc, all_surfaces_snoc. simpl. rewrite !app_nil_r. lia.
    + rewrite Hv, (prefix_v_not_f l Hv). rewrite !all_points_snoc, !all_surfaces_snoc.
      simpl. rewrite !length_app. simpl. lia.
    + rewrite Hv, Hf. rewrite !all_points_snoc, !all_surfaces_snoc.
      simpl. rewrite !length_app. simpl. lia.
    + destruct (other_line_false l Hx) as (_ & -> & ->). lia.
Qed.

(** X5.  A parsed file has one side per ["o "] line, one point per ["v "]
    line and one surface per ["f "] line. *)
Theorem parse_side_counts (lines : list string) (sides : list Side) :
  parse_side py_split py_float py_int lines = Ok sides ->
  List.length sides = List.length (filter (prefix "o ") lines) /\
  List.length (all_points sides) = List.length (filter (prefix "v ") lines) /\
  List.length (all_surfaces sides) = List.length (filter (prefix "f ") lines).
Proof.
  intros H. apply parse_side_ok in H. destruct H as (st & H & ->).
  split.
  - rewrite <- (length_map name), (for_each_names lines _ st H). simpl.
    apply length_map.
  - destruct (for_each_counts lines _ st H) as [Hp Hs]. simpl in Hp, Hs. auto.
Qed.

(** Where a stored point and a stored surface come from. *)
Definition point_of_line (l : string) (point : list float) : Prop :=
  prefix "v " l = true /\
  exists coords, map_raise ValueError py_float (tl (py_split l)) = Ok coords /\
                 point = map convert_coordinate coords.

Definition surface_of_line (l : string) (surface : list Z) : Prop :=
  prefix "f " l = true /\
  map_raise ValueError py_int (tl (py_split l)) = Ok surface.

Definition from_lines (lines : list string) (sides : list Side) : Prop :=
  forall side, In side sides ->
    (forall point, In point (points side) ->
                   exists l, In l lines /\ point_of_line l point) /\
    (forall surface, In surface (surfaces side) ->
                     exists l, In l lines /\ surface_of_line l surface).

Lemma for_each_from_lines (file lines : list string) (st st' : parse_state) :
  incl lines file ->
  from_lines file (sides_so_far st) ->
  for_each (parse_line py_split py_float py_int) lines st = Ok st' ->
  from_lines file (sides_so_far st').
Proof.
  revert st. induction lines as [|l lines IH]; intros st Hincl Hst; simpl.
  - now intros [= <-].
  - destruct (parse_line py_split py_float py_int st l) as [st1|e] eqn:E; simpl; [|discriminate].
    apply IH; [intros x Hx; apply Hincl; now right|].
    assert (Hl : In l file) by (apply Hincl; now left).
    destruct (parse_line_effect st st1 l E)
      as [(Ho & ->)|[(Ho & Hv & front & s & coords & Es & Hc & ->)
         |[(Ho & Hv & Hf & front & s & surface & Es & Hc & ->)|(Hx & ->)]]].
    + intros side Hside. apply in_app_or in Hside. destruct Hside as [Hside|[<-|[]]].
      * now apply Hst.
      * simpl. split; intros x [].
    + rewrite Es in Hst. intros side Hside. apply in_app_or in Hside.
      destruct Hside as [Hside|[<-|[]]].
      * apply Hst. apply in_or_app. now left.
      * destruct (Hst s ltac:(apply in_or_app; right; now left)) as [Hp Hs].
        simpl. split; [|exact Hs].
        intros point Hpoint. apply in_app_or in Hpoint. destruct Hpoint as [Hpoint|[<-|[]]].
        -- now apply Hp.
        -- exists l. split; [assumption|]. split; [assumption|]. eauto.
    + rewrite Es in Hst. intros side Hside. apply in_app_or in Hside.
      destruct Hside as [Hside|[<-|[]]].
      * apply Hst. apply in_or_app. now left.
      * destruct (Hst s ltac:(apply in_or_app; right; now left)) as [Hp Hs].
        simpl. split; [exact Hp|].
        intros surf Hsurf. apply in_app_or in Hsurf. destruct Hsurf as [Hsurf|[<-|[]]].
        -- now apply Hs.
        -- exists l. split; [assumption|]. now split.
    + assumption.
Qed.

(** Every point of a parsed file is the list of the floats of a ["v "]
    line, each converted; every surface is the list of the integers of an
    ["f "] line, as they are. *)
Lemma parse_side_from_lines (lines : list string) (sides : list Side) :
  parse_side py_split py_float py_int lines = Ok sides -> from_lines lines sides.
Proof.
  intros H. apply parse_side_ok in H. destruct H as (st & H & ->).
  apply (for_each_from_lines lines lines ([], None)); auto.
  - apply incl_refl.
  - intros side [].
Qed.

End ParserFacts.


(** ** Stored coordinates *)

Lemma fkey_zero (x : float) :
  not_nan x = true -> fkey x = 0 -> exists s, Prim2SF x = S754_zero s.
Proof.
  unfold not_nan, fkey. pose proof (Prim2SF_valid x) as V.
  assert (P : 0 < 2 ^ 2100) by (apply Z.pow_pos_nonneg; lia).
  destruct (Prim2SF x) as [s|s| |s m e]; try discriminate; intros _; simpl.
  - eauto.
  - destruct s; lia.
  - pose proof (units_bound s m e V). destruct s; lia.
Qed.

Lemma feq_neg_zero (c : float) :
  feq c (-0.0)%float = true <-> exists s, Prim2SF c = S754_zero s.
Proof.
  split.
  - intros H. rewrite feq_spec, !andb_true_iff, Z.eqb_eq in H.
    destruct H as [[Nc _] Hk]. apply fkey_zero; [assumption|].
    rewrite Hk. reflexivity.
  - intros [s E]. unfold feq. rewrite eqb_spec, E. reflexivity.
Qed.

(** The conversion never gives the negative zero. *)
Lemma convert_coordinate_sign (coord : float) :
  Prim2SF (convert_coordinate coord) <> S754_zero true.
Proof.
  unfold convert_coordinate. set (c := py_round1 (coord * 2.54)%float).
  destruct (feq c (-0.0)%float) eqn:E; simpl; [discriminate|].
  intros Hz. assert (feq c (-0.0)%float = true) by (apply feq_neg_zero; eauto).
  congruence.
Qed.

(** X6.  The conversion of a coordinate of a ["v "] line gives
    [round(coord * 2.54, 1)], except that the negative zero becomes the
    positive zero; it never gives the negative zero. *)
Theorem convert_coordinate_spec (coord : float) :
  Prim2SF (convert_coordinate coord) <> S754_zero true /\
  (convert_coordinate coord = py_round1 (coord * 2.54)%float \/
   (Prim2SF (py_round1 (coord * 2.54)%float) = S754_zero true /\
    convert_coordinate coord = 0%float)).
Proof.
  unfold convert_coordinate. set (c := py_round1 (coord * 2.54)%float).
  destruct (feq c (-0.0)%float) eqn:E; simpl.
  - split; [discriminate|]. apply feq_neg_zero in E. destruct E as [[|] E].
    + right. auto.
    + left. apply Prim2SF_inj. rewrite E. reflexivity.
  - split; [|now left]. intros Hz.
    assert (feq c (-0.0)%float = true) by (apply feq_neg_zero; eauto). congruence.
Qed.

Lemma map_raise_In {A B : Type} (e : exn) (f : A -> option B) (xs : list A) (ys : list B) :
  map_raise e f xs = Ok ys ->
  List.length ys = List.length xs /\
  forall y, In y ys -> exists x, In x xs /\ f x = Some y.
Proof.
  revert ys. induction xs as [|x xs IH]; intros ys; simpl.
  - intros [= <-]. split; [reflexivity|intros y []].
  - destruct (f x) as [y0|] eqn:E; [|discriminate].
    destruct (map_raise e f xs) as [ys0|e0]; simpl; [|discriminate].
    intros [= <-]. destruct (IH ys0 eq_refl) as [Hlen Hin]. split; [simpl; lia|].
    intros y [<-|Hy]; [eauto|].
    destruct (Hin y Hy) as (x' & Hx' & Hf). eauto.
Qed.

Section StoredCoordinates.
Variable py_split : string -> list string.
Variable py_float : string -> option float.
Variable py_int : string -> option Z.

(** X7.  Every point stored by [parse_side] comes from a [v] line: its
    coordinates are the conversions of the floats of the tokens after the
    first, token by token and in the order of the line, and none of them is
    the negative zero. *)
Theorem parse_side_coordinates (lines : list string) (sides : list Side) :
  parse_side py_split py_float py_int lines = Ok sides ->
  forall side point,
    In side sides -> In point (points side) ->
    exists l coords,
      In l lines /\ prefix "v " l = true /\
      map_raise ValueError py_float (tl (py_split l)) = Ok coords /\
      point = map convert_coordinate coords /\
      List.length point = List.length (tl (py_split l)) /\
      forall c, In c point -> Prim2SF c <> S754_zero true.
Proof.
  intros H side point Hside Hpoint.
  destruct (parse_side_from_lines py_split py_float py_int lines sides H side Hside) as [Hp _].
  destruct (Hp point Hpoint) as (l & Hl & Hv & coords & Hc & ->).
  destruct (map_raise_In _ _ _ _ Hc) as [Hlen Hin].
  exists l, coords. split; [assumption|]. split; [assumption|]. split; [assumption|].
  split; [reflexivity|]. split; [now rewrite length_map|].
  intros c Hc'. apply in_map_iff in Hc'. destruct Hc' as (x & <- & Hx).
  apply convert_coordinate_sign.
Qed.

(** X8.  Every surface stored by [parse_side] is the list of the integers
    of the tokens of an ["f "] line, unchanged. *)
Theorem parse_side_surfaces (lines : list string) (sides : list Side) :
  parse_side py_split py_float py_int lines = Ok sides ->
  forall side surface,
    In side sides -> In surface (surfaces side) ->
    exists l,
      In l lines /\ prefix "f " l = true /\
      map_raise ValueError py_int (tl (py_split l)) = Ok surface.
Proof.
  intros H side surface Hside Hsurface.
  destruct (parse_side_from_lines py_split py_float py_int lines sides H side Hside) as [_ Hs].
  destruct (Hs surface Hsurface) as (l & Hl & Hf & Hc). eauto.
Qed.

End StoredCoordinates.

(** ** More on [find_panels] *)

(** X9.  At most [N - 5] panels are found among [N] sides; none among fewer
    than six. *)
Theorem find_panels_count (sides : list Side) :
  (List.length (find_panels sides) <= List.length sides - 5)%nat /\
  ((List.length sides < 6)%nat -> find_panels sides = []).
Proof.
  rewrite find_panels_filter. split.
  - rewrite length_map.
    etransitivity; [apply filter_length_le|]. now rewrite length_seq.
  - intros H. replace (List.length sides - 5)%nat with 0%nat by lia. reflexivity.
Qed.

Lemma window_app (sides more : list Side) (i : nat) :
  (i + 6 <= List.length sides)%nat -> window (sides ++ more) i = window sides i.
Proof.
  intros H. unfold window. rewrite skipn_app, firstn_app.
  rewrite length_skipn. replace (6 - (List.length sides - i))%nat with 0%nat by lia.
  simpl. now rewrite app_nil_r.
Qed.

(** X10.  Sides added at the end of the sequence keep the panels found so far,
    in front of the new ones. *)
Theorem find_panels_app (sides more : list Side) :
  exists rest, find_panels (sides ++ more) = find_panels sides ++ rest.
Proof.
  rewrite !find_panels_filter, length_app.
  set (n := List.length sides). set (m := List.length more).
  replace (n + m - 5)%nat with ((n - 5) + (n + m - 5 - (n - 5)))%nat by lia.
  rewrite seq_app, filter_app, map_app.
  eexists. f_equal.
  rewrite (map_ext_in _ (window sides)).
  - f_equal. apply filter_ext_in. intros i Hi. apply in_seq in Hi.
    rewrite window_app; [reflexivity|unfold n in *; lia].
  - intros i Hi. apply filter_In in Hi. destruct Hi as [Hi _]. apply in_seq in Hi.
    apply window_app. unfold n in *. lia.
Qed.

(** A side with another name. *)
Definition rename_side (f : string -> string) (s : Side) : Side :=
  mkSide (f (name s)) (points s) (surfaces s).

Lemma is_panel_rename (f : string -> string) (group : list Side) :
  is_panel (map (rename_side f) group) = is_panel group.
Proof.
  unfold is_panel.
  replace (all_points (map (rename_side f) group)) with (all_points group)
    by (unfold all_points; induction group; simpl; congruence).
  replace (all_surfaces (map (rename_side f) group)) with (all_surfaces group)
    by (unfold all_surfaces; induction group; simpl; congruence).
  f_equal. f_equal. f_equal; induction group; simpl; congruence.
Qed.

Lemma window_map (f : Side -> Side) (sides : list Side) (i : nat) :
  window (map f sides) i = map f (window sides i).
Proof. unfold window. now rewrite skipn_map, firstn_map. Qed.

(** X11.  [find_panels] does not look at the names: renaming the sides
    renames the sides of the panels and changes nothing else. *)
Theorem find_panels_rename (f : string -> string) (sides : list Side) :
  find_panels (map (rename_side f) sides) = map (map (rename_side f)) (find_panels sides).
Proof.
  rewrite !find_panels_filter, length_map, map_map.
  rewrite (filter_ext (fun i => is_panel (window (map (rename_side f) sides) i))
                      (fun i => is_panel (window sides i)))
    by (intros i; now rewrite window_map, is_panel_rename).
  apply map_ext. intros i. apply window_map.
Qed.

Lemma first_occurrences_all {A : Type} (eqb : A -> A -> bool) (l seen : list A) :
  (List.length (first_occurrences eqb seen l) <= List.length l)%nat /\
  (List.length (first_occurrences eqb seen l) = List.length l ->
   forall pre x post, l = pre ++ x :: post -> set_mem eqb x (seen ++ pre) = false).
Proof.
  revert seen. induction l as [|a l IH]; intros seen; simpl.
  - split; [lia|]. intros _ pre x post E. now destruct pre.
  - destruct (IH (seen ++ [a])) as [Hle Hall].
    destruct (set_mem eqb a seen) eqn:E; simpl.
    + split; [lia|]. intros H. lia.
    + split; [lia|]. intros H pre x post Ep.
      destruct pre as [|b pre]; simpl in Ep; injection Ep as -> ->.
      * now rewrite app_nil_r.
      * specialize (Hall ltac:(lia) pre x post eq_refl).
        now rewrite <- app_assoc in Hall.
Qed.

Lemma set_mem_surface (x : list Z) (l : list (list Z)) :
  set_mem surface_eqb x l = true <-> In x l.
Proof.
  rewrite set_mem_true. split.
  - intros (y & Hy & E). apply surface_eqb_eq in E. now subst.
  - intros H. exists x. split; [assumption|]. now apply surface_eqb_eq.
Qed.

Lemma num_distinct_NoDup (l : list (list Z)) :
  num_distinct surface_eqb l = List.length l -> NoDup l.
Proof.
  unfold num_distinct. intros H.
  destruct (first_occurrences_all surface_eqb l []) as [_ Hall].
  specialize (Hall H). clear H.
  induction l as [|a l IH] using rev_ind; [constructor|].
  apply NoDup_app. 
  - apply IH. intros pre x post E. apply (Hall pre x (post ++ [a])).
    rewrite E, <- app_assoc. reflexivity.
  - constructor; [intros []|constructor].
  - intros x Hx [E|[]]. subst x.
    specialize (Hall l a [] eq_refl). simpl in Hall.
    assert (set_mem surface_eqb a l = true) by (now apply set_mem_surface). congruence.
Qed.

Lemma all_surfaces_length (group : list Side) :
  Forall (fun side => List.length (surfaces side) = 2%nat) group ->
  List.length (all_surfaces group) = (2 * List.length group)%nat.
Proof.
  unfold all_surfaces. induction 1 as [|s group Hs Hg IH]; [reflexivity|].
  simpl flat_map. rewrite length_app, IH, Hs. simpl List.length. lia.
Qed.

(** X12.  A detected panel has twelve surfaces and no two of them are the
    same list of indices. *)
Theorem detected_panel_surfaces (sides panel : list Side) :
  In panel (find_panels sides) ->
  List.length (all_surfaces panel) = 12%nat /\ NoDup (all_surfaces panel).
Proof.
  intros H. apply find_panels_In in H. destruct H as (i & -> & Hi & _ & Hs & _ & Hd).
  assert (Hlen : List.length (all_surfaces (window sides i)) = 12%nat)
    by (rewrite (all_surfaces_length _ Hs), (window_length sides i Hi); reflexivity).
  split; [assumption|]. apply num_distinct_NoDup. congruence.
Qed.

Lemma detected_panel_surfaces_witness :
  List.length (all_surfaces cube_panel) = 12%nat /\ NoDup (all_surfaces cube_panel).
Proof.
  apply (detected_panel_surfaces cube_sides cube_panel).
  vm_compute. left. reflexivity.
Defined.


(** ** More on [calculate_panel_properties] *)

(** X13.  The three outcomes of the calculator: [ValueError] exactly when the
    panel has no point, [IndexError] exactly when it has points and one of
    them has fewer than three coordinates, a result otherwise; never
    another exception. *)
Theorem calculate_outcomes (panel : list Side) :
  (calculate_panel_properties panel = Raise ValueError <-> all_points panel = []) /\
  (calculate_panel_properties panel = Raise IndexError <->
   all_points panel <> [] /\ ~ three_coordinates (all_points panel)) /\
  (calculable panel <->
   all_points panel <> [] /\ three_coordinates (all_points panel)) /\
  calculate_panel_properties panel <> Raise AttributeError.
Proof.
  unfold calculable. destruct (all_points panel) as [|p pts] eqn:E.
  - pose proof (calculate_no_point panel E) as Hc. rewrite Hc.
    split; [tauto|].
    split; [split; [discriminate|intros [Hne _]; now elim Hne]|].
    split; [split; [intros [r Hr]; discriminate|intros [Hne _]; now elim Hne]|discriminate].
  - destruct (has_axis 2 (p :: pts)) eqn:H3.
    + apply has_axis_three in H3.
      destruct (calculate_three_coordinates panel p pts E H3) as (d0 & d1 & d2 & _ & Hc).
      rewrite Hc.
      split; [split; discriminate|].
      split; [split; [discriminate|intros [_ Hn]; now elim Hn]|].
      split; [split; [intros _; split; [discriminate|assumption]|eauto]|discriminate].
    + assert (Hn : ~ three_coordinates (p :: pts))
        by (rewrite <- has_axis_three; congruence).
      assert (Hc : calculate_panel_properties panel = Raise IndexError).
      { apply calculate_short_point; rewrite E; [discriminate|assumption]. }
      rewrite Hc.
      split; [split; discriminate|].
      split; [split; [intros _; split; [discriminate|assumption]|reflexivity]|].
      split; [split; [intros [r Hr]; discriminate|intros [_ H3']; now elim Hn]|discriminate].
Qed.

(** A side without its name and its surfaces, its points cut after the
    third coordinate. *)
Definition trim (s : Side) : Side := mkSide EmptyString (map (firstn 3) (points s)) [].

Lemma all_points_trim (panel : list Side) :
  all_points (map trim panel) = map (firstn 3) (all_points panel).
Proof.
  unfold all_points. induction panel as [|s panel IH]; [reflexivity|].
  simpl. now rewrite map_app, IH.
Qed.

Lemma axis_firstn (i : nat) (pts : list (list float)) :
  (i < 3)%nat -> axis i (map (firstn 3) pts) = axis i pts.
Proof.
  intros Hi. unfold axis. induction pts as [|p pts IH]; [reflexivity|].
  cbn [map map_raise]. rewrite IH, nth_error_firstn.
  now rewrite (proj2 (Nat.ltb_lt i 3) Hi).
Qed.

Lemma min_axis_firstn (i : nat) (pts : list (list float)) :
  (i < 3)%nat -> min_axis i (map (firstn 3) pts) = min_axis i pts.
Proof.
  intros Hi. unfold min_axis. rewrite (axis_firstn i pts Hi). now destruct pts.
Qed.

Lemma max_axis_firstn (i : nat) (pts : list (list float)) :
  (i < 3)%nat -> max_axis i (map (firstn 3) pts) = max_axis i pts.
Proof.
  intros Hi. unfold max_axis. rewrite (axis_firstn i pts Hi). now destruct pts.
Qed.

(** X14.  The calculator reads the first three coordinates of the points and
    nothing else: not the names, not the surfaces, not a fourth
    coordinate. *)
Theorem calculate_reads_three_coordinates (panel : list Side) :
  calculate_panel_properties (map trim panel) = calculate_panel_properties panel.
Proof.
  unfold calculate_panel_properties. rewrite all_points_trim.
  now rewrite !min_axis_firstn, !max_axis_firstn by lia.
Qed.




(** ** More on the aggregation *)

Lemma group_origins_nil (g : nat) : group_origins [] g = [].
Proof. unfold group_origins. now destruct g. Qed.

(** X17.  The loop of [main] over the sorted panels, whatever the list
    [order] that the sort returned: when the calculator accepts every
    panel of [order], the dictionary is returned; each of its groups holds
    the origins of the panels that landed in it, in the order of [order];
    and two panels land in the same group exactly when their triples are
    equal with [==], component by component (so a triple with a NaN shares
    no group). *)
Theorem aggregate_groups (panels order : list (list Side)) :
  Forall calculable order ->
  exists d,
    for_each aggregate_step order [] = Ok d /\
    (sorted_panels panels = Ok order -> aggregate panels = Ok d) /\
    List.length (landings [] order) = List.length order /\
    (forall g, group_origins d g = origins_landed g order (landings [] order)) /\
    (forall i j pi pj gi gj,
        (i < j)%nat ->
        nth_error order i = Some pi ->
        nth_error order j = Some pj ->
        nth_error (landings [] order) i = Some gi ->
        nth_error (landings [] order) j = Some gj ->
        (gi = gj <-> dims_eqb (dims_of pi) (dims_of pj) = true)).
Proof.
  intros H. exists (fold_left insert_panel order []).
  split; [now apply for_each_aggregate|]. split.
  - intros Hs. unfold aggregate. rewrite Hs. simpl. now apply for_each_aggregate.
  - split; [apply landings_length|]. split.
    + intros g. now rewrite group_origins_fold, group_origins_nil.
    + apply landings_same_group. apply distinct_keys_nil.
Qed.

Lemma boxes_panels_calculable : Forall calculable boxes_panels.
Proof.
  unfold boxes_panels. repeat (constructor; [eexists; vm_compute; reflexivity|]).
  constructor.
Qed.

Lemma boxes_order_calculable : Forall calculable boxes_order.
Proof.
  unfold boxes_order. repeat (constructor; [eexists; vm_compute; reflexivity|]).
  constructor.
Qed.

Lemma aggregate_groups_witness :
  exists d,
    for_each aggregate_step boxes_order [] = Ok d /\
    (sorted_panels boxes_panels = Ok boxes_order -> aggregate boxes_panels = Ok d) /\
    List.length (landings [] boxes_order) = List.length boxes_order /\
    (forall g, group_origins d g = origins_landed g boxes_order (landings [] boxes_order)) /\
    (forall i j pi pj gi gj,
        (i < j)%nat ->
        nth_error boxes_order i = Some pi ->
        nth_error boxes_order j = Some pj ->
        nth_error (landings [] boxes_order) i = Some gi ->
        nth_error (landings [] boxes_order) j = Some gj ->
        (gi = gj <-> dims_eqb (dims_of pi) (dims_of pj) = true)).
Proof. apply (aggregate_groups boxes_panels boxes_order). exact boxes_order_calculable. Defined.

Lemma dict_append_nonempty (d : panel_dict) (k : dims_t) (o : origin_t) :
  Forall (fun item => snd item <> []) d ->
  Forall (fun item => snd item <> []) (dict_append d k o).
Proof.
  induction 1 as [|[k' os] d Hos Hd IH]; simpl; [constructor|].
  destruct (dims_eqb k' k); constructor; auto.
  simpl. now destruct os.
Qed.

Lemma insert_panel_nonempty (d : panel_dict) (panel : list Side) :
  Forall (fun item => snd item <> []) d ->
  Forall (fun item => snd item <> []) (insert_panel d panel).
Proof.
  intros H. unfold insert_panel. destruct (dict_mem (dims_of panel) d).
  - now apply dict_append_nonempty.
  - apply Forall_app. split; [assumption|]. constructor; [discriminate|constructor].
Qed.

Lemma fold_insert_panel_nonempty (panels : list (list Side)) (d : panel_dict) :
  Forall (fun item => snd item <> []) d ->
  Forall (fun item => snd item <> []) (fold_left insert_panel panels d).
Proof.
  revert d. induction panels as [|p panels IH]; intros d H; simpl; [assumption|].
  apply IH. now apply insert_panel_nonempty.
Qed.

Lemma fold_insert_panel_first_occurrences (order : list (list Side)) :
  map fst (fold_left insert_panel order []) =
  first_occurrences dims_eqb [] (map dims_of order).
Proof.
  rewrite fold_insert_panel_keys. simpl.
  apply (py_set_first_occurrences dims_eqb dims_eqb_trans).
Qed.

(** X18.  The loop of [main] over the sorted panels, whatever the list
    [order] that the sort returned: when the calculator accepts every
    panel of [order], the keys of the dictionary are the distinct triples
    of the panels, in the order in which they first come up in [order];
    no two keys are equal, and no group is empty. *)
Theorem aggregate_keys (panels order : list (list Side)) :
  Forall calculable order ->
  exists d,
    for_each aggregate_step order [] = Ok d /\
    (sorted_panels panels = Ok order -> aggregate panels = Ok d) /\
    map fst d = first_occurrences dims_eqb [] (map dims_of order) /\
    distinct_keys (map fst d) /\
    Forall (fun item => snd item <> []) d.
Proof.
  intros H. exists (fold_left insert_panel order []).
  split; [now apply for_each_aggregate|]. split; [|split; [|split]].
  - intros Hs. unfold aggregate. rewrite Hs. simpl. now apply for_each_aggregate.
  - apply fold_insert_panel_first_occurrences.
  - rewrite fold_insert_panel_keys. apply distinct_keys_fold, distinct_keys_nil.
  - apply fold_insert_panel_nonempty. constructor.
Qed.

Lemma aggregate_keys_witness :
  exists d,
    for_each aggregate_step boxes_order [] = Ok d /\
    (sorted_panels boxes_panels = Ok boxes_order -> aggregate boxes_panels = Ok d) /\
    map fst d = first_occurrences dims_eqb [] (map dims_of boxes_order) /\
    distinct_keys (map fst d) /\
    Forall (fun item => snd item <> []) d.
Proof. apply (aggregate_keys boxes_panels boxes_order). exact boxes_order_calculable. Defined.

(** ** The order of processing *)

(** A sort key without NaN. *)
Definition ordered_key (k : float * float) : Prop :=
  not_nan (fst k) = true /\ not_nan (snd k) = true.

(** On keys without NaN, [<] on the key tuples is the lexicographic
    order. *)
Lemma key_lt_spec (a b : float * float) :
  ordered_key a -> ordered_key b ->
  key_lt a b =
  if fkey (fst a) =? fkey (fst b) then fkey (snd a) <? fkey (snd b)
  else fkey (fst a) <? fkey (fst b).
Proof.
  intros [Na1 Na2] [Nb1 Nb2]. unfold key_lt.
  rewrite !feq_spec, !flt_spec, Na1, Na2, Nb1, Nb2. simpl.
  destruct (fkey (fst a) =? fkey (fst b)); simpl; [|reflexivity].
  destruct (Z.eqb_spec (fkey (snd a)) (fkey (snd b))) as [E|E]; simpl; [|reflexivity].
  symmetry. apply Z.ltb_ge. lia.
Qed.

Lemma key_lt_asym (a b : float * float) :
  ordered_key a -> ordered_key b -> key_lt a b = true -> key_lt b a = false.
Proof.
  intros Ha Hb. rewrite (key_lt_spec a b Ha Hb), (key_lt_spec b a Hb Ha).
  destruct (Z.eqb_spec (fkey (fst a)) (fkey (fst b)));
    destruct (Z.eqb_spec (fkey (fst b)) (fkey (fst a))); try lia;
    rewrite ?Z.ltb_lt, ?Z.ltb_ge; lia.
Qed.

Lemma key_lt_negtrans (a b c : float * float) :
  ordered_key a -> ordered_key b -> ordered_key c ->
  key_lt a b = false -> key_lt b c = false -> key_lt a c = false.
Proof.
  intros Ha Hb Hc.
  rewrite (key_lt_spec a b Ha Hb), (key_lt_spec b c Hb Hc), (key_lt_spec a c Ha Hc).
  destruct (Z.eqb_spec (fkey (fst a)) (fkey (fst b)));
    destruct (Z.eqb_spec (fkey (fst b)) (fkey (fst c)));
    destruct (Z.eqb_spec (fkey (fst a)) (fkey (fst c))); try lia;
    rewrite ?Z.ltb_ge; lia.
Qed.

(** A panel with its sort key, as [sorted] holds them. *)
Definition keyed (panel : list Side) : float * float * list Side := (key_of panel, panel).

Definition keyed_lt (a b : float * float * list Side) : bool := key_lt (fst a) (fst b).

(** Two panels tie when neither sort key is less than the other. *)
Definition tied (p q : list Side) : bool := tie key_lt (key_of p) (key_of q).

Lemma processing_order_keyed (panels : list (list Side)) :
  processing_order panels = map snd (py_sorted_reverse keyed_lt (map keyed panels)).
Proof. reflexivity. Qed.

Lemma keyed_sorted_map (l : list (float * float * list Side)) :
  Forall (fun a => fst a = key_of (snd a)) l ->
  StronglySorted (fun a b => keyed_lt a b = false) l ->
  StronglySorted (fun p q => key_lt (key_of p) (key_of q) = false) (map snd l).
Proof.
  intros Hk Hs. induction Hs as [|a l Hs IH Ha]; simpl; [constructor|].
  inversion Hk as [|? ? Hka Hkl]; subst. constructor; [now apply IH|].
  rewrite Forall_forall in *. intros q Hq. apply in_map_iff in Hq.
  destruct Hq as (b & <- & Hb). specialize (Ha b Hb). unfold keyed_lt in Ha.
  now rewrite Hka, (Hkl b Hb) in Ha.
Qed.

Lemma keyed_filter_map (p : list Side) (l : list (float * float * list Side)) :
  Forall (fun a => fst a = key_of (snd a)) l ->
  map snd (filter (tie keyed_lt (keyed p)) l) = filter (tied p) (map snd l).
Proof.
  induction 1 as [|a l Ha Hl IH]; [reflexivity|]. simpl.
  replace (tie keyed_lt (keyed p) a) with (tied p (snd a))
    by (unfold tied, tie, keyed_lt, keyed; simpl; now rewrite Ha).
  destruct (tied p (snd a)); simpl; now rewrite IH.
Qed.

Lemma keyed_Forall (panels : list (list Side)) :
  Forall (fun a => fst a = key_of (snd a)) (map keyed panels).
Proof. rewrite Forall_forall. intros a Ha. apply in_map_iff in Ha. now destruct Ha as (p & <- & _). Qed.

(** Without NaN in the sort keys the processing order is descending and
    stable. *)
Lemma processing_order_descending_stable (panels : list (list Side)) :
  Forall (fun p => ordered_key (key_of p)) panels ->
  StronglySorted (fun p q => key_lt (key_of p) (key_of q) = false)
                 (processing_order panels) /\
  forall p, In p panels ->
       filter (tied p) (processing_order panels) = filter (tied p) panels.
Proof.
  intros Ho.
  set (dom := fun a : float * float * list Side => ordered_key (fst a)).
  assert (Hdom : Forall dom (map keyed panels)).
  { rewrite Forall_forall in *. intros a Ha. apply in_map_iff in Ha.
    destruct Ha as (p & <- & Hp). unfold dom. simpl. now apply Ho. }
  assert (Hasym : forall x y, dom x -> dom y -> keyed_lt x y = true -> keyed_lt y x = false)
    by (intros x y; apply key_lt_asym).
  assert (Hnt : forall x y z, dom x -> dom y -> dom z ->
                 keyed_lt x y = false -> keyed_lt y z = false -> keyed_lt x z = false)
    by (intros x y z; apply key_lt_negtrans).
  assert (Hk : Forall (fun a => fst a = key_of (snd a))
                      (py_sorted_reverse keyed_lt (map keyed panels))).
  { pose proof (keyed_Forall panels) as H0. rewrite Forall_forall in *. intros a Ha.
    apply H0. apply (Permutation_in a (Permutation_sym (py_sorted_reverse_perm keyed_lt _)) Ha). }
  rewrite processing_order_keyed. split.
  - apply keyed_sorted_map; [assumption|].
    apply (py_sorted_reverse_descending keyed_lt dom Hasym Hnt). assumption.
  - intros p Hp. rewrite <- keyed_filter_map by assumption.
    rewrite (py_sorted_reverse_stable keyed_lt dom Hnt (keyed p)); auto.
    + rewrite keyed_filter_map by apply keyed_Forall.
      now rewrite map_map, map_id.
    + rewrite Forall_forall in Ho. unfold dom. simpl. now apply Ho.
Qed.

(** X19.  When the calculator accepts every panel, [sorted] returns a
    rearrangement of the panels; when moreover no sort key holds a NaN,
    the rearrangement is descending (no panel has a smaller key than a
    later one) and stable (the panels that tie with a panel are in the
    order of detection). *)
Theorem processing_order_sorted (panels : list (list Side)) :
  Forall calculable panels ->
  exists order,
    sorted_panels panels = Ok order /\
    Permutation panels order /\
    (Forall (fun p => ordered_key (key_of p)) panels ->
     StronglySorted (fun p q => key_lt (key_of p) (key_of q) = false) order /\
     forall p, In p panels -> filter (tied p) order = filter (tied p) panels).
Proof.
  intros Hc. exists (processing_order panels).
  split; [now apply sorted_panels_calculable|].
  split; [apply processing_order_perm|].
  apply processing_order_descending_stable.
Qed.

Lemma processing_order_sorted_witness :
  exists order,
    sorted_panels boxes_panels = Ok order /\
    Permutation boxes_panels order /\
    (Forall (fun p => ordered_key (key_of p)) boxes_panels ->
     StronglySorted (fun p q => key_lt (key_of p) (key_of q) = false) order /\
     forall p, In p boxes_panels -> filter (tied p) order = filter (tied p) boxes_panels).
Proof. apply (processing_order_sorted boxes_panels). exact boxes_panels_calculable. Defined.


(** ** The origins of a group, in the order of detection *)

Lemma fold_insert_panel_keeps (panels : list (list Side)) (d : panel_dict) (g : nat) (kg : dims_t) :
  nth_error (map fst d) g = Some kg ->
  nth_error (map fst (fold_left insert_panel panels d)) g = Some kg.
Proof.
  rewrite fold_insert_panel_keys.
  destruct (fold_set_add_prefix (map dims_of panels) (map fst d)) as [m ->].
  apply nth_error_prefix.
Qed.

(** The key found, at the end, in the group a panel landed in stands for
    the triple of the panel. *)
Lemma landing_key (panels : list (list Side)) :
  forall (d : panel_dict) i pi gi,
    nth_error panels i = Some pi -> nth_error (landings d panels) i = Some gi ->
    exists k0, nth_error (map fst (fold_left insert_panel panels d)) gi = Some k0 /\
               stands_for k0 (dims_of pi).
Proof.
  induction panels as [|q panels IH]; intros d i pi gi Hpi Hgi; [now destruct i|].
  destruct i as [|i]; simpl in Hpi, Hgi.
  - injection Hpi as <-. injection Hgi as <-.
    destruct (landing_stands_for d q) as (k0 & H0 & Hs). exists k0. split; [|assumption].
    simpl. now apply fold_insert_panel_keeps.
  - simpl. now apply (IH (insert_panel d q) i).
Qed.

Lemma landing_iff (panels : list (list Side)) (d : panel_dict) :
  distinct_keys (map fst d) ->
  (forall p, In p panels -> dims_eqb (dims_of p) (dims_of p) = true) ->
  forall i pi gi g kg,
    nth_error panels i = Some pi -> nth_error (landings d panels) i = Some gi ->
    nth_error (map fst (fold_left insert_panel panels d)) g = Some kg ->
    (gi = g <-> dims_eqb kg (dims_of pi) = true).
Proof.
  intros Hd Hself i pi gi g kg Hpi Hgi Hg.
  destruct (landing_key panels d i pi gi Hpi Hgi) as (k0 & H0 & Hs).
  assert (E0 : dims_eqb k0 (dims_of pi) = true).
  { destruct Hs as [->|Hs]; [|assumption]. apply Hself. now apply nth_error_In in Hpi. }
  assert (Hd' : distinct_keys (map fst (fold_left insert_panel panels d)))
    by (rewrite fold_insert_panel_keys; now apply distinct_keys_fold).
  split.
  - intros <-. rewrite H0 in Hg. now injection Hg as <-.
  - intros E. apply (distinct_keys_eq _ gi g k0 kg Hd' H0 Hg).
    apply (dims_eqb_trans k0 (dims_of pi)); [assumption|now apply dims_eqb_sym].
Qed.

Lemma origins_landed_filter (f : list Side -> bool) (g : nat) :
  forall (panels : list (list Side)) (gs : list nat),
    List.length gs = List.length panels ->
    (forall i pi gi, nth_error panels i = Some pi -> nth_error gs i = Some gi ->
                     Nat.eqb gi g = f pi) ->
    origins_landed g panels gs = map origin_of (filter f panels).
Proof.
  induction panels as [|p panels IH]; intros [|g0 gs] Hlen H; simpl in *; try discriminate;
    [reflexivity|].
  rewrite (H 0%nat p g0 eq_refl eq_refl).
  rewrite (IH gs); [now destruct (f p)|lia|].
  intros i pi gi Hpi Hgi. exact (H (S i) pi gi Hpi Hgi).
Qed.

Lemma first_occurrences_In {A : Type} (eqb : A -> A -> bool) (l seen : list A) (x : A) :
  In x (first_occurrences eqb seen l) -> In x l.
Proof.
  revert seen. induction l as [|a l IH]; intros seen; simpl; [auto|].
  destruct (set_mem eqb a seen); simpl; [eauto|]. intros [->|H]; eauto.
Qed.

(** The product of a zero is a zero or a NaN. *)
Lemma feq_zero (c : float) : feq c 0 = true <-> exists s, Prim2SF c = S754_zero s.
Proof.
  split.
  - intros H. rewrite feq_spec, !andb_true_iff, Z.eqb_eq in H.
    destruct H as [[Nc _] Hk]. apply fkey_zero; [assumption|].
    rewrite Hk. reflexivity.
  - intros [s E]. unfold feq. rewrite eqb_spec, E. reflexivity.
Qed.

Lemma fmul_zero (a b : float) :
  feq a 0 = true \/ feq b 0 = true ->
  not_nan (a * b)%float = true -> feq (a * b)%float 0 = true.
Proof.
  intros H N. apply feq_zero. unfold not_nan in N. rewrite mul_spec in *.
  unfold SF64mul in *.
  destruct H as [H|H]; apply feq_zero in H; destruct H as [s E]; rewrite E in *.
  - destruct (Prim2SF b); simpl in *; try discriminate; eauto.
  - destruct (Prim2SF a); simpl in *; try discriminate; eauto.
Qed.

Lemma fmul_not_nan (a b : float) :
  not_nan (a * b)%float = true -> not_nan a = true /\ not_nan b = true.
Proof.
  unfold not_nan. rewrite mul_spec. unfold SF64mul.
  destruct (Prim2SF a), (Prim2SF b); simpl; auto.
Qed.

Lemma feq_refl (x : float) : not_nan x = true -> feq x x = true.
Proof. intros N. rewrite feq_spec, N. simpl. apply Z.eqb_refl. Qed.

Lemma fmul_feq (l1 w1 l2 w2 : float) :
  feq l1 l2 = true -> feq w1 w2 = true ->
  not_nan (l1 * w1)%float = true -> not_nan (l2 * w2)%float = true ->
  feq (l1 * w1)%float (l2 * w2)%float = true.
Proof.
  intros Hl Hw N1 N2.
  destruct (feq_exact l1 l2 Hl) as [->|[Z1 Z2]].
  - destruct (feq_exact w1 w2 Hw) as [->|[Z1 Z2]]; [now apply feq_refl|].
    apply (feq_trans _ 0%float); [|apply feq_sym]; apply fmul_zero; auto.
  - apply (feq_trans _ 0%float); [|apply feq_sym]; apply fmul_zero; auto.
Qed.

(** Panels with equal triples tie in the sort. *)
Lemma dims_tied (p q : list Side) :
  ordered_key (key_of p) -> ordered_key (key_of q) ->
  dims_eqb (dims_of p) (dims_of q) = true -> tied p q = true.
Proof.
  unfold tied, tie, key_of, dims_of.
  destruct (properties_of p) as [[[o1 l1] w1] h1], (properties_of q) as [[[o2 l2] w2] h2].
  intros Hp Hq E. unfold dims_eqb in E. rewrite !andb_true_iff in E.
  destruct E as [[El Ew] Eh].
  rewrite (key_lt_spec _ _ Hp Hq), (key_lt_spec _ _ Hq Hp). simpl.
  destruct Hp as [Hp1 Hp2], Hq as [Hq1 Hq2]. simpl in *.
  pose proof (fmul_feq l1 w1 l2 w2 El Ew Hp2 Hq2) as Ea.
  rewrite feq_spec, !andb_true_iff, Z.eqb_eq in Eh, Ea.
  destruct Eh as [_ Eh], Ea as [_ Ea]. rewrite Eh, Ea, !Z.eqb_refl, !Z.ltb_irrefl.
  reflexivity.
Qed.

Lemma ordered_key_self (p : list Side) :
  ordered_key (key_of p) -> dims_eqb (dims_of p) (dims_of p) = true.
Proof.
  unfold key_of, dims_of. destruct (properties_of p) as [[[o l] w] h].
  intros [Hh Ha]. simpl in *. destruct (fmul_not_nan l w Ha) as [Hl Hw].
  unfold dims_eqb. now rewrite !feq_refl.
Qed.

Lemma filter_filter_implied {A : Type} (f g : A -> bool) (l : list A) :
  (forall x, In x l -> f x = true -> g x = true) ->
  filter f (filter g l) = filter f l.
Proof.
  induction l as [|a l IH]; intros H; [reflexivity|]. simpl.
  destruct (g a) eqn:Eg; simpl.
  - rewrite IH; [reflexivity|]. intros x Hx. apply H. now right.
  - destruct (f a) eqn:Ef.
    + rewrite (H a (or_introl eq_refl) Ef) in Eg. discriminate.
    + apply IH. intros x Hx. apply H. now right.
Qed.

(** X20.  When the calculator accepts every panel and no sort key holds a NaN,
    each group of the dictionary holds the origins of the panels whose
    triple equals its key, in the order in which [find_panels] detected
    them: the sort does not reorder panels of one triple. *)
Theorem aggregate_origins_in_detection_order (panels : list (list Side)) :
  Forall calculable panels ->
  Forall (fun p => ordered_key (key_of p)) panels ->
  exists d,
    aggregate panels = Ok d /\
    forall k origins,
      In (k, origins) d ->
      origins = map origin_of (filter (fun p => dims_eqb k (dims_of p)) panels).
Proof.
  intros Hc Ho. pose proof (processing_order_perm panels) as Hperm.
  destruct (processing_order_descending_stable panels Ho) as [_ Hstable].
  eexists. split; [apply (aggregate_calculable panels Hc)|].
  set (processed := processing_order panels) in *.
  set (d := fold_left insert_panel processed []).
  intros k origins Hin.
  destruct (In_nth_error _ _ Hin) as [g Hg].
  assert (Hkg : nth_error (map fst d) g = Some k) by (now rewrite nth_error_map, Hg).
  assert (Ho' : forall p, In p processed -> ordered_key (key_of p)).
  { intros p Hp. rewrite Forall_forall in Ho. apply Ho.
    now apply (Permutation_in p (Permutation_sym Hperm)). }
  assert (Hos : origins = group_origins d g) by (unfold group_origins; now rewrite Hg).
  rewrite Hos. unfold d. rewrite group_origins_fold, group_origins_nil. simpl.
  rewrite (origins_landed_filter (fun p => dims_eqb k (dims_of p)) g).
  - f_equal.
    assert (Hk : In k (map dims_of processed)).
    { apply (first_occurrences_In dims_eqb _ []).
      rewrite <- (fold_insert_panel_first_occurrences processed).
      now apply nth_error_In in Hkg. }
    apply in_map_iff in Hk. destruct Hk as (p0 & <- & Hp0).
    assert (Hp0' : In p0 panels) by (now apply (Permutation_in p0 (Permutation_sym Hperm))).
    rewrite <- (filter_filter_implied _ (tied p0) processed).
    + rewrite (Hstable p0 Hp0'). apply filter_filter_implied.
      intros q Hq E. rewrite Forall_forall in Ho.
      apply dims_tied; [now apply Ho|now apply Ho|assumption].
    + intros q Hq E. apply dims_tied; [now apply Ho'|now apply Ho'|assumption].
  - apply landings_length.
  - intros i pi gi Hpi Hgi.
    pose proof (landing_iff processed [] distinct_keys_nil
                  (fun p Hp => ordered_key_self p (Ho' p Hp)) i pi gi g k Hpi Hgi Hkg) as Hiff.
    destruct (Nat.eqb_spec gi g) as [E|E]; symmetry.
    + now apply Hiff.
    + apply not_true_is_false. intros Ek. apply E. now apply Hiff.
Qed.

Lemma boxes_panels_ordered : Forall (fun p => ordered_key (key_of p)) boxes_panels.
Proof.
  unfold boxes_panels. repeat (constructor; [split; vm_compute; reflexivity|]).
  constructor.
Qed.

Lemma aggregate_origins_in_detection_order_witness :
  exists d,
    aggregate boxes_panels = Ok d /\
    forall k origins,
      In (k, origins) d ->
      origins = map origin_of (filter (fun p => dims_eqb k (dims_of p)) boxes_panels).
Proof.
  apply (aggregate_origins_in_detection_order boxes_panels).
  - exact boxes_panels_calculable.
  - exact boxes_panels_ordered.
Defined.


(** ** [main] *)

Lemma report_counts (d : panel_dict) :
  map block_count (report d) = map (fun item => List.length (snd item)) d.
Proof.
  unfold report. rewrite map_map. apply map_ext. now intros [[[l w] h] origins].
Qed.

Lemma aggregate_nil : aggregate [] = Ok [].
Proof. reflexivity. Qed.

Section MainFacts.
Variable py_split : string -> list string.
Variable py_float : string -> option float.
Variable py_int : string -> option Z.

(** X21.  When the file is parsed and every point has at least three
    coordinates, the run ends without an exception; the counts of the
    blocks of the report add up to the number of panels detected, and no
    block has the count zero. *)
Theorem main_report (lines : list string) (sides : list Side) :
  parse_side py_split py_float py_int lines = Ok sides ->
  three_coordinates (all_points sides) ->
  exists d,
    aggregate (find_panels sides) = Ok d /\
    main py_split py_float py_int lines = Ok (report d) /\
    list_sum (map block_count (report d)) = List.length (find_panels sides) /\
    Forall (fun b => (1 <= block_count b)%nat) (report d).
Proof.
  intros Hp H3. pose proof (detected_panels_calculable sides H3) as Hc.
  pose proof (aggregate_calculable (find_panels sides) Hc) as Hd.
  set (d := fold_left insert_panel (processing_order (find_panels sides)) []) in *.
  assert (Hne : Forall (fun item => snd item <> []) d)
    by (apply fold_insert_panel_nonempty; constructor).
  exists d. split; [assumption|]. split; [|split].
  - unfold main. rewrite Hp. simpl. now rewrite Hd.
  - rewrite report_counts.
    change (total_origins d = List.length (find_panels sides)).
    unfold d. rewrite total_origins_fold. simpl.
    symmetry. apply Permutation_length, processing_order_perm.
  - rewrite Forall_forall in *. intros b Hb. unfold report in Hb.
    apply in_map_iff in Hb. destruct Hb as ([[[l w] h] origins] & <- & Hin).
    specialize (Hne _ Hin). simpl in *. destruct origins; [now elim Hne|simpl; lia].
Qed.

(** X22.  A run that is not ended by [parse_side] can only be ended by
    [IndexError], and only when a detected panel has a point with fewer than
    three coordinates; [min] and [max] never see an empty sequence. *)
Theorem main_raises (lines : list string) (e : exn) :
  main py_split py_float py_int lines = Raise e ->
  parse_side py_split py_float py_int lines = Raise e \/
  (e = IndexError /\
   exists sides panel,
     parse_side py_split py_float py_int lines = Ok sides /\
     In panel (find_panels sides) /\
     ~ three_coordinates (all_points panel)).
Proof.
  unfold main. destruct (parse_side py_split py_float py_int lines) as [sides|e'] eqn:Hp; simpl.
  - destruct (aggregate (find_panels sides)) as [d|e'] eqn:Ha; simpl; [discriminate|].
    intros [= ->]. right.
    destruct (aggregate_raise _ _ Ha) as (panel & Hin & Hc).
    destruct (detected_panel_points_calculable sides panel Hin) as [Hok Hshort].
    destruct (has_axis 2 (all_points panel)) eqn:E.
    + apply has_axis_three in E. destruct (Hok E) as [r Hr]. congruence.
    + assert (Hn : ~ three_coordinates (all_points panel))
        by (rewrite <- has_axis_three; congruence).
      rewrite (Hshort Hn) in Hc. injection Hc as <-. split; [reflexivity|]. eauto.
  - intros [= ->]. now left.
Qed.

(** X23.  A parsed file with fewer than six sides gives an empty report. *)
Theorem main_few_sides (lines : list string) (sides : list Side) :
  parse_side py_split py_float py_int lines = Ok sides ->
  (List.length sides < 6)%nat ->
  main py_split py_float py_int lines = Ok [].
Proof.
  intros Hp Hlen. unfold main. rewrite Hp. simpl.
  rewrite find_panels_filter.
  replace (List.length sides - 5)%nat with 0%nat by lia. reflexivity.
Qed.

End MainFacts.

(** ** The properties on the example files *)

Definition comment_file : list string :=
  map line ["# a cube"; ""; "vn 0 0 1"; "g cube"]%string.


Lemma parse_side_no_marker_witness :
  parse_side example_split example_float example_int comment_file = Ok [].
Proof.
  apply (parse_side_no_marker example_split example_float example_int comment_file).
  vm_compute. reflexivity.
Defined.


(** The cube file is parsed into [cube_sides]. *)
Lemma cube_file_parsed :
  parse_side example_split example_float example_int cube_file = Ok cube_sides.
Proof. vm_compute. reflexivity. Qed.

Lemma parse_side_names_witness :
  map name cube_sides = map (side_name example_split) (filter (prefix "o ") cube_file).
Proof.
  apply (parse_side_names example_split example_float example_int cube_file cube_sides).
  exact cube_file_parsed.
Defined.

Lemma parse_side_counts_witness :
  List.length cube_sides = List.length (filter (prefix "o ") cube_file) /\
  List.length (all_points cube_sides) = List.length (filter (prefix "v ") cube_file) /\
  List.length (all_surfaces cube_sides) = List.length (filter (prefix "f ") cube_file).
Proof.
  apply (parse_side_counts example_split example_float example_int cube_file cube_sides).
  exact cube_file_parsed.
Defined.

Lemma parse_side_coordinates_witness :
  exists l coords,
    In l cube_file /\ prefix "v " l = true /\
    map_raise ValueError example_float (tl (example_split l)) = Ok coords /\
    [2.5; 0; 0]%float = map convert_coordinate coords /\
    List.length [2.5; 0; 0]%float = List.length (tl (example_split l)) /\
    forall c, In c [2.5; 0; 0]%float -> Prim2SF c <> S754_zero true.
Proof.
  pose proof cube_file_parsed as H.
  assert (Hs : In (mkSide "Side1" [[0; 0; 0]; [2.5; 0; 0]; [2.5; 2.5; 0]; [0; 2.5; 0]]%float
                          [[1; 2; 3]; [1; 3; 4]]) cube_sides)
    by (vm_compute; left; reflexivity).
  exact (parse_side_coordinates example_split example_float example_int cube_file cube_sides
           H _ [2.5; 0; 0]%float Hs (or_intror (or_introl eq_refl))).
Defined.

Lemma parse_side_surfaces_witness :
  exists l,
    In l cube_file /\ prefix "f " l = true /\
    map_raise ValueError example_int (tl (example_split l)) = Ok [1; 3; 4].
Proof.
  pose proof cube_file_parsed as H.
  assert (Hs : In (mkSide "Side1" [[0; 0; 0]; [2.5; 0; 0]; [2.5; 2.5; 0]; [0; 2.5; 0]]%float
                          [[1; 2; 3]; [1; 3; 4]]) cube_sides)
    by (vm_compute; left; reflexivity).
  exact (parse_side_surfaces example_split example_float example_int cube_file cube_sides
           H _ [1; 3; 4] Hs (or_intror (or_introl eq_refl))).
Defined.

Lemma main_report_witness :
  exists d,
    aggregate (find_panels cube_sides) = Ok d /\
    main example_split example_float example_int cube_file = Ok (report d) /\
    list_sum (map block_count (report d)) = List.length (find_panels cube_sides) /\
    Forall (fun b => (1 <= block_count b)%nat) (report d).
Proof.
  apply (main_report example_split example_float example_int cube_file cube_sides).
  - exact cube_file_parsed.
  - apply has_axis_three. vm_compute. reflexivity.
Defined.

Lemma main_raises_witness :
  parse_side example_split example_float example_int flat_file = Raise IndexError \/
  (IndexError = IndexError /\
   exists sides panel,
     parse_side example_split example_float example_int flat_file = Ok sides /\
     In panel (find_panels sides) /\
     ~ three_coordinates (all_points panel)).
Proof.
  apply (main_raises example_split example_float example_int flat_file IndexError).
  vm_compute. reflexivity.
Defined.

Lemma main_few_sides_witness :
  main example_split example_float example_int (firstn 7 cube_file) = Ok [].
Proof.
  apply (main_few_sides example_split example_float example_int
           (firstn 7 cube_file) (firstn 1 cube_sides)).
  - vm_compute. reflexivity.
  - vm_compute. lia.
Defined.
